(** * A shallow embedding of [webscrapper.py] and [Hangamn.py]

    The scraper fetches pages over HTTP, walks the parsed document with
    BeautifulSoup, resolves links with [urllib.parse] and exports records
    with [csv].  The development below embeds

    - the Python values the scraper manipulates (strings, insertion-ordered
      dicts, exceptions);
    - [urllib.parse.urljoin] and [urlparse], transcribed from CPython 3.11's
      [Lib/urllib/parse.py];
    - the fragment of the BeautifulSoup tree API the scraper calls;
    - [csv.DictWriter] with the default (excel) dialect;
    - the methods of [WebScraper] themselves, as computations over an explicit
      world (network, standard output, clock, object heap, file system);
    - [json.dump] as [save_to_json] calls it, transcribed from CPython 3.11's
      [Lib/json/encoder.py], and the example functions of the module;
    - the game of [Hangamn.py] (class [HangmanGame]), run on the lines of
      standard input and on a source of random numbers.

    Python [str] values are modelled by [string], a sequence of code points
    below 256; inside [Urllib] they are handled as lists of characters.
    White space, printable characters and the lower case of the game's
    input are those of Python's Unicode tables for these code points; the
    letters and digits that [urllib.parse] asks for are ASCII there too. *)

From Stdlib Require Import ZArith Lia Ascii String List Bool.
From stdpp Require Import base option list gmap sets strings pretty sorting.

Open Scope string_scope.
Open Scope list_scope.
Set Warnings "-register-all".

(* ===================================================================== *)
(** * Python exceptions and results                                       *)
(* ===================================================================== *)

(** The exception classes that occur in the scraper, the game and their
    libraries.  The first six are [requests.exceptions.RequestException]
    and the subclasses the transport raises; the last one is the error of
    [bs4] for a document that its parser gives up on. *)
Inductive exn_class :=
  | RequestException
  | HTTPError
  | ConnectionError
  | Timeout
  | TooManyRedirects
  | InvalidURL
  | ValueError
  | TypeError
  | KeyError
  | IndexError
  | OSError
  | OverflowError
  | EOFError
  | ParserRejectedMarkup.

Record exn := Exn { exn_cls : exn_class; exn_msg : string }.

(** [isinstance(e, requests.exceptions.RequestException)] *)
Definition isinstance_RequestException (e : exn) : bool :=
  match exn_cls e with
  | RequestException | HTTPError | ConnectionError
  | Timeout | TooManyRedirects | InvalidURL => true
  | _ => false
  end.

(** [isinstance(e, Exception)]: every modelled class derives from it. *)
Definition isinstance_Exception (e : exn) : bool := true.

(** The outcome of evaluating a Python expression: a value, or a raised
    exception. *)
Inductive result (A : Type) :=
  | Ok (a : A)
  | Raise (e : exn).
Arguments Ok {A} a.
Arguments Raise {A} e.

#[global] Instance result_ret : MRet result := fun _ a => Ok a.
#[global] Instance result_bind : MBind result := fun _ _ k r =>
  match r with
  | Ok a => k a
  | Raise e => Raise e
  end.

(** A [for] loop that threads an accumulator and stops at the first
    exception. *)
Fixpoint rfold {A B} (f : B -> A -> result B) (acc : B) (l : list A)
  : result B :=
  match l with
  | [] => Ok acc
  | x :: l' => acc' ← f acc x; rfold f acc' l'
  end.

(* ===================================================================== *)
(** * Python [str] operations                                             *)
(* ===================================================================== *)

Module PyStr.

Abbreviation str := (list ascii).

Definition chars (s : string) : str := list_ascii_of_string s.
Definition text (s : str) : string := string_of_list_ascii s.

Definition code (c : ascii) : nat := nat_of_ascii c.

Definition ch_tab : ascii := ascii_of_nat 9.
Definition ch_lf : ascii := ascii_of_nat 10.
Definition ch_cr : ascii := ascii_of_nat 13.
Definition ch_dquote : ascii := ascii_of_nat 34.
Definition ch_squote : ascii := ascii_of_nat 39.
Definition ch_backslash : ascii := ascii_of_nat 92.

Definition eqc (a b : ascii) : bool := Ascii.eqb a b.

(** [c in s] for a single character [c] *)
Definition contains (c : ascii) (s : str) : bool := existsb (eqc c) s.

(** [s.find(c)]: index of the first occurrence, [None] for Python's -1 *)
Fixpoint find (c : ascii) (s : str) : option nat :=
  match s with
  | [] => None
  | x :: s' => if eqc c x then Some 0 else S <$> find c s'
  end.

(** [s.split(c, 1)] when [c] occurs in [s]; [None] when it does not *)
Fixpoint split1 (c : ascii) (s : str) : option (str * str) :=
  match s with
  | [] => None
  | x :: s' =>
      if eqc c x then Some ([], s')
      else match split1 c s' with
           | Some (a, b) => Some (x :: a, b)
           | None => None
           end
  end.

(** [s.partition(c)]: [(before, found, after)] *)
Definition partition (c : ascii) (s : str) : str * bool * str :=
  match split1 c s with
  | Some (a, b) => (a, true, b)
  | None => (s, false, [])
  end.

(** [s.split(c)]: always at least one piece *)
Fixpoint split (c : ascii) (s : str) : list str :=
  match s with
  | [] => [[]]
  | x :: s' =>
      match split c s' with
      | [] => [[]]
      | p :: ps => if eqc c x then [] :: p :: ps else (x :: p) :: ps
      end
  end.

(** [sep.join(parts)] for a one-character separator *)
Fixpoint join (sep : str) (parts : list str) : str :=
  match parts with
  | [] => []
  | [p] => p
  | p :: ps => p ++ sep ++ join sep ps
  end.

(** the last piece of [s.split(c)]: what follows the last [c] *)
Definition last_piece (c : ascii) (s : str) : str :=
  List.last (split c s) [].

(** [s.rpartition(c)[2]] *)
Definition after_last (c : ascii) (s : str) : str := last_piece c s.

(** [s.replace(c, '')] *)
Definition remove (c : ascii) (s : str) : str :=
  List.filter (fun x => negb (eqc c x)) s.

(** [s.lstrip(set)] and [s.strip(set)] for a set of characters given by
    its membership test *)
Fixpoint lstrip_of (p : ascii -> bool) (s : str) : str :=
  match s with
  | [] => []
  | x :: s' => if p x then lstrip_of p s' else s
  end.

Definition rstrip_of (p : ascii -> bool) (s : str) : str :=
  rev (lstrip_of p (rev s)).

Definition strip_of (p : ascii -> bool) (s : str) : str :=
  rstrip_of p (lstrip_of p s).

Definition is_ascii (c : ascii) : bool := Nat.ltb (code c) 128.
Definition is_upper (c : ascii) : bool :=
  Nat.leb 65 (code c) && Nat.leb (code c) 90.
Definition is_lower (c : ascii) : bool :=
  Nat.leb 97 (code c) && Nat.leb (code c) 122.
Definition is_alpha (c : ascii) : bool := is_upper c || is_lower c.
Definition is_digit (c : ascii) : bool :=
  Nat.leb 48 (code c) && Nat.leb (code c) 57.
Definition is_hex (c : ascii) : bool :=
  is_digit c
  || (Nat.leb 65 (code c) && Nat.leb (code c) 70)
  || (Nat.leb 97 (code c) && Nat.leb (code c) 102).

(** [c.isspace()]: the white space of Unicode below 256, which is what
    [str.strip()] removes: U+0009 to U+000D, U+001C to U+0020, U+0085 and
    U+00A0 *)
Definition is_space (c : ascii) : bool :=
  (Nat.leb 9 (code c) && Nat.leb (code c) 13)
  || (Nat.leb 28 (code c) && Nat.leb (code c) 32)
  || Nat.eqb (code c) 133
  || Nat.eqb (code c) 160.

(** [c.lower()] for the characters of a URL scheme, which are ASCII *)
Definition lower_char (c : ascii) : ascii :=
  if is_upper c then ascii_of_nat (code c + 32) else c.

Definition lower (s : str) : str := map lower_char s.

(** [s.strip()] *)
Definition strip (s : string) : string :=
  text (strip_of is_space (chars s)).

Definition is_empty (s : str) : bool :=
  match s with [] => true | _ => false end.

Definition eqs (a b : str) : bool := bool_decide (a = b).

(** [s.startswith(p)] *)
Fixpoint startswith (p s : str) : bool :=
  match p, s with
  | [], _ => true
  | a :: p', b :: s' => eqc a b && startswith p' s'
  | _ :: _, [] => false
  end.


(** [s.rfind(c)] *)
Definition rfind (c : ascii) (s : str) : option nat :=
  (fun i => length s - 1 - i) <$> find c (rev s).

(** [s.find(c, start)] *)
Definition find_from (c : ascii) (start : nat) (s : str) : option nat :=
  (fun i => start + i) <$> find c (drop start s).

(** the longest prefix of [s] whose characters satisfy [p] *)
Fixpoint take_while (p : ascii -> bool) (s : str) : str :=
  match s with
  | [] => []
  | x :: s' => if p x then x :: take_while p s' else []
  end.

(** [x in l] for a list of strings *)
Definition in_list (x : str) (l : list str) : bool := existsb (eqs x) l.

End PyStr.

(* ===================================================================== *)
(** * [urllib.parse] (CPython 3.11, [Lib/urllib/parse.py])                *)
(* ===================================================================== *)

Module Urllib.
Import PyStr.

(** Two checks of [urlsplit] lean on Unicode and address tables that are
    not transcribed: [ipaddress.ip_address] (does the bracketed host parse
    as an IPv6 address?) and the NFKC normalisation of a non-ASCII netloc
    (does the normalised netloc stay free of the characters [/?#@:]?).
    They are parameters of the embedding. *)
Class Tables := {
  is_ipv6_address : str -> bool;
  nfkc_netloc_ok : str -> bool
}.

Definition uses_relative : list str :=
  map chars
    [""; "ftp"; "http"; "gopher"; "nntp"; "imap";
     "wais"; "file"; "https"; "shttp"; "mms";
     "prospero"; "rtsp"; "rtspu"; "sftp";
     "svn"; "svn+ssh"; "ws"; "wss"].

Definition uses_netloc : list str :=
  map chars
    [""; "ftp"; "http"; "gopher"; "nntp"; "telnet";
     "imap"; "wais"; "file"; "mms"; "https"; "shttp";
     "snews"; "prospero"; "rtsp"; "rtspu"; "rsync";
     "svn"; "svn+ssh"; "sftp"; "nfs"; "git"; "git+ssh";
     "ws"; "wss"].

Definition uses_params : list str :=
  map chars
    [""; "ftp"; "hdl"; "prospero"; "http"; "imap";
     "https"; "shttp"; "rtsp"; "rtspu"; "sip"; "sips";
     "mms"; "sftp"; "tel"].

(** [c in scheme_chars] *)
Definition is_scheme_char (c : ascii) : bool :=
  is_alpha c || is_digit c || contains c (chars "+-.").

(** [c in _WHATWG_C0_CONTROL_OR_SPACE] *)
Definition is_c0_or_space (c : ascii) : bool := Nat.leb (code c) 32.

(** the loop over [_UNSAFE_URL_BYTES_TO_REMOVE] *)
Definition remove_unsafe (s : str) : str :=
  remove ch_lf (remove ch_cr (remove ch_tab s)).

Record SplitResult := mkSplit {
  s_scheme : str; s_netloc : str; s_path : str;
  s_query : str; s_fragment : str
}.

Record ParseResult := mkParse {
  scheme : str; netloc : str; path : str;
  params : str; query : str; fragment : str
}.

Definition _splitparams (url : str) : str * str :=
  if contains "/" url then
    match rfind "/" url with
    | Some r =>
        match find_from ";" r url with
        | Some i => (take i url, drop (S i) url)
        | None => (url, [])
        end
    | None => (url, [])
    end
  else
    match find ";" url with
    | Some i => (take i url, drop (S i) url)
    | None => (removelast url, url)   (* [url[:-1], url[0:]] *)
    end.

Definition _splitnetloc (url : str) (start : nat) : str * str :=
  let delim :=
    fold_left
      (fun delim c =>
         match find_from c start url with
         | Some wdelim => Nat.min delim wdelim
         | None => delim
         end)
      (chars "/?#") (length url) in
  (drop start (take delim url), drop delim url).

Definition invalid_ipv6 : exn := Exn ValueError "Invalid IPv6 URL".

Section WithTables.
Context `{Tables}.

(** [re.match(r"\Av[a-fA-F0-9]+\..+\Z", hostname)] *)
Definition ipvfuture_match (hostname : str) : bool :=
  match hostname with
  | v :: rest =>
      let digits := take_while is_hex rest in
      eqc v "v" && negb (is_empty digits) &&
      match drop (length digits) rest with
      | dot :: tail =>
          eqc dot "." && negb (is_empty tail) &&
          forallb (fun c => negb (eqc c ch_lf)) tail
      | [] => false
      end
  | [] => false
  end.

Definition _check_bracketed_host (hostname : str) : result unit :=
  if startswith (chars "v") hostname then
    if ipvfuture_match hostname then Ok tt
    else Raise (Exn ValueError "IPvFuture address is invalid")
  else
    if is_ipv6_address hostname then Ok tt
    else Raise (Exn ValueError "not an IPv6 address").

Definition _check_bracketed_netloc (netloc : str) : result unit :=
  let hostname_and_port := after_last "@" netloc in
  let '(before_bracket, have_open_br, bracketed) :=
    partition "[" hostname_and_port in
  if have_open_br then
    if negb (is_empty before_bracket) then Raise invalid_ipv6
    else
      let '(hostname, _, port) := partition "]" bracketed in
      if negb (is_empty port) && negb (startswith (chars ":") port)
      then Raise invalid_ipv6
      else _check_bracketed_host hostname
  else
    let '(hostname, _, port) := partition ":" hostname_and_port in
    _check_bracketed_host hostname.

Definition _checknetloc (netloc : str) : result unit :=
  if is_empty netloc || forallb is_ascii netloc then Ok tt
  else if nfkc_netloc_ok netloc then Ok tt
  else Raise (Exn ValueError
                "netloc contains invalid characters under NFKC normalization").

(** the scheme step of [urlsplit]: a prefix of scheme characters that
    starts with an ASCII letter and ends at the first colon is the scheme;
    otherwise the default stands *)
Definition split_scheme (url scheme : str) : str * str :=
  match find ":" url with
  | Some i =>
      if Nat.ltb 0 i
         && match url with c :: _ => is_ascii c && is_alpha c | [] => false end
         && forallb is_scheme_char (take i url)
      then (lower (take i url), drop (S i) url)
      else (scheme, url)
  | None => (scheme, url)
  end.

(** the checks of [urlsplit] on the brackets of a netloc *)
Definition check_brackets (netloc : str) : result unit :=
  if (contains "[" netloc && negb (contains "]" netloc))
     || (contains "]" netloc && negb (contains "[" netloc))
  then Raise invalid_ipv6
  else if contains "[" netloc && contains "]" netloc
  then _check_bracketed_netloc netloc
  else Ok tt.

(** the netloc step of [urlsplit] *)
Definition split_authority (url : str) : result (str * str) :=
  if eqs (take 2 url) (chars "//") then
    let '(netloc, url) := _splitnetloc url 2 in
    _ ← check_brackets netloc;
    Ok (netloc, url)
  else Ok ([], url).

(** [url, rest = url.split(c, 1)] when [c] is in [url] *)
Definition split_at (c : ascii) (url : str) : str * str :=
  match split1 c url with
  | Some (a, b) => (a, b)
  | None => (url, [])
  end.

Definition urlsplit (url scheme : str) : result SplitResult :=
  let url := lstrip_of is_c0_or_space url in
  let scheme := strip_of is_c0_or_space scheme in
  let url := remove_unsafe url in
  let scheme := remove_unsafe scheme in
  let '(scheme, url) := split_scheme url scheme in
  '(netloc, url) ← split_authority url;
  let '(url, fragment) := split_at "#" url in
  let '(url, query) := split_at "?" url in
  _ ← _checknetloc netloc;
  Ok (mkSplit scheme netloc url query fragment).

Definition urlparse (url scheme : str) : result ParseResult :=
  r ← urlsplit url scheme;
  let '(url, params) :=
    if in_list (s_scheme r) uses_params && contains ";" (s_path r)
    then _splitparams (s_path r)
    else (s_path r, []) in
  Ok (mkParse (s_scheme r) (s_netloc r) url params (s_query r) (s_fragment r)).

Definition urlunsplit (r : SplitResult) : str :=
  let url := s_path r in
  let url :=
    if negb (is_empty (s_netloc r))
       || (negb (is_empty (s_scheme r))
           && in_list (s_scheme r) uses_netloc
           && negb (eqs (take 2 url) (chars "//")))
    then
      let url :=
        if negb (is_empty url) && negb (eqs (take 1 url) (chars "/"))
        then chars "/" ++ url else url in
      chars "//" ++ s_netloc r ++ url
    else url in
  let url :=
    if negb (is_empty (s_scheme r)) then s_scheme r ++ chars ":" ++ url
    else url in
  let url :=
    if negb (is_empty (s_query r)) then url ++ chars "?" ++ s_query r
    else url in
  if negb (is_empty (s_fragment r)) then url ++ chars "#" ++ s_fragment r
  else url.

Definition urlunparse (p : ParseResult) : str :=
  let url :=
    if negb (is_empty (params p)) then path p ++ chars ";" ++ params p
    else path p in
  urlunsplit (mkSplit (scheme p) (netloc p) url (query p) (fragment p)).

(** [segments[1:-1] = filter(None, segments[1:-1])] *)
Definition filter_middle (segments : list str) : list str :=
  match segments with
  | [] => []
  | first :: rest =>
      match rest with
      | [] => [first]
      | _ =>
          first :: List.filter (fun s => negb (is_empty s)) (removelast rest)
                ++ [List.last rest []]
      end
  end.

(** the loop over [segments] that builds [resolved_path] *)
Definition resolve_segments (segments : list str) : list str :=
  fold_left
    (fun resolved_path seg =>
       if eqs seg (chars "..") then removelast resolved_path
       else if eqs seg (chars ".") then resolved_path
       else resolved_path ++ [seg])
    segments [].

Definition urljoin_chars (base url : str) : result str :=
  if is_empty base then Ok url
  else if is_empty url then Ok base
  else
    b ← urlparse base [];
    u ← urlparse url (scheme b);
    if negb (eqs (scheme u) (scheme b))
       || negb (in_list (scheme u) uses_relative)
    then Ok url
    else
      if in_list (scheme u) uses_netloc && negb (is_empty (netloc u))
      then Ok (urlunparse u)
      else
        let netloc' :=
          if in_list (scheme u) uses_netloc then netloc b else netloc u in
        if is_empty (path u) && is_empty (params u) then
          let query' := if is_empty (query u) then query b else query u in
          Ok (urlunparse
                (mkParse (scheme u) netloc' (path b) (params b) query'
                         (fragment u)))
        else
          let base_parts := split "/" (path b) in
          let base_parts :=
            if negb (is_empty (List.last base_parts []))
            then removelast base_parts else base_parts in
          let segments :=
            if eqs (take 1 (path u)) (chars "/") then split "/" (path u)
            else filter_middle (base_parts ++ split "/" (path u)) in
          let resolved_path := resolve_segments segments in
          let resolved_path :=
            if in_list (List.last segments []) [chars "."; chars ".."]
            then resolved_path ++ [[]] else resolved_path in
          let joined := join (chars "/") resolved_path in
          Ok (urlunparse
                (mkParse (scheme u) netloc'
                         (if is_empty joined then chars "/" else joined)
                         (params u) (query u) (fragment u))).

(** [urljoin(base, url)] on Python strings *)
Definition urljoin (base url : string) : result string :=
  r ← urljoin_chars (chars base) (chars url); Ok (text r).

(** [urlparse(url).netloc] *)
Definition urlparse_netloc (url : string) : result string :=
  p ← urlparse (chars url) []; Ok (text (netloc p)).

End WithTables.

End Urllib.

(* ===================================================================== *)
(** * Python values and insertion-ordered dicts                           *)
(* ===================================================================== *)

(** The values that occur in scraped records. *)
Inductive pyval :=
  | PNone
  | PStr (s : string)
  | PInt (z : Z)
  | PList (l : list pyval).

(** A [dict] with [str] keys: the items in insertion order, every key at
    most once. *)
Abbreviation pydict := (list (string * pyval)).

Module PyDict.

(** [d.get(k)] *)
Fixpoint get (k : string) (d : pydict) : option pyval :=
  match d with
  | [] => None
  | (k', v) :: d' => if String.eqb k k' then Some v else get k d'
  end.

(** [d[k] = v]: an existing key keeps its position, a new key goes last *)
Fixpoint set (k : string) (v : pyval) (d : pydict) : pydict :=
  match d with
  | [] => [(k, v)]
  | (k', v') :: d' =>
      if String.eqb k k' then (k', v) :: d' else (k', v') :: set k v d'
  end.

(** [d.keys()] *)
Definition keys (d : pydict) : list string := map fst d.

(** [dict(pairs)]: the pairs are inserted from left to right *)
Definition of_pairs (pairs : list (string * pyval)) : pydict :=
  fold_left (fun d kv => set (fst kv) (snd kv) d) pairs [].

End PyDict.

(** [zip(a, b)] stops at the shorter argument *)
Fixpoint zip {A B} (a : list A) (b : list B) : list (A * B) :=
  match a, b with
  | x :: a', y :: b' => (x, y) :: zip a' b'
  | _, _ => []
  end.

(* ===================================================================== *)
(** * [repr] and [str] of values                                          *)
(* ===================================================================== *)

Module PyRepr.
Import PyStr.

Definition hex_digit (n : nat) : ascii :=
  if Nat.ltb n 10 then ascii_of_nat (48 + n) else ascii_of_nat (87 + n).

(** [c.isprintable()]: below 256 the control characters U+0000 to U+001F
    and U+007F to U+009F, the no-break space U+00A0 and the soft hyphen
    U+00AD are not printable *)
Definition is_printable (c : ascii) : bool :=
  Nat.leb 32 (code c)
  && negb (Nat.leb 127 (code c) && Nat.leb (code c) 160)
  && negb (Nat.eqb (code c) 173).

(** one character of [repr(s)], inside the quotes [q]: what is not printable
    is written as a two-digit hexadecimal escape *)
Definition repr_char (q : ascii) (c : ascii) : str :=
  if eqc c q || eqc c ch_backslash then [ch_backslash; c]
  else if eqc c ch_tab then ch_backslash :: chars "t"
  else if eqc c ch_lf then ch_backslash :: chars "n"
  else if eqc c ch_cr then ch_backslash :: chars "r"
  else if negb (is_printable c)
  then ch_backslash :: chars "x"
       ++ [hex_digit (code c / 16); hex_digit (code c mod 16)]
  else [c].

(** [repr(s)] for a string: double quotes are chosen when the string holds
    a single quote and no double quote *)
Definition repr_str (s : string) : string :=
  let cs := chars s in
  let q :=
    if contains ch_squote cs && negb (contains ch_dquote cs)
    then ch_dquote else ch_squote in
  text (q :: concat (map (repr_char q) cs) ++ [q]).

Fixpoint join_strings (sep : string) (l : list string) : string :=
  match l with
  | [] => ""
  | [s] => s
  | s :: l' => s ++ sep ++ join_strings sep l'
  end.

Definition repr_Z (z : Z) : string := pretty z.

(** [repr(v)] *)
Fixpoint repr (v : pyval) : string :=
  match v with
  | PNone => "None"
  | PStr s => repr_str s
  | PInt z => repr_Z z
  | PList l => "[" ++ join_strings ", " (map repr l) ++ "]"
  end.

(** [str(v)] *)
Definition str_of (v : pyval) : string :=
  match v with
  | PStr s => s
  | _ => repr v
  end.

End PyRepr.

(* ===================================================================== *)
(** * The BeautifulSoup tree                                              *)
(* ===================================================================== *)

Module Bs4.

(** The classes of the strings that the tree builder puts below the tags
    [script], [style], [template], [rt] and [rp]. *)
Inductive string_class :=
  | Script
  | Stylesheet
  | TemplateString
  | RubyTextString
  | RubyParenthesisString.

#[global] Instance string_class_eq_dec : EqDecision string_class.
Proof. solve_decision. Defined.

(** A parsed document is a tree of tags and strings.  A string has a class:
    [NavigableString] itself, [CData], one of the container classes, or a
    class that is text for no tag, for which [Comment] stands (comments,
    declarations, doctypes, processing instructions).  A tag's attributes
    form a dict. *)
Inductive node :=
  | NavigableString (s : string)
  | Comment (s : string)
  | CData (s : string)
  | Contained (cls : string_class) (s : string)
  | Tag (name : string) (attrs : gmap string string) (contents : list node).

(** the [BeautifulSoup] object: the root tag of a document *)
Definition BeautifulSoup (contents : list node) : node :=
  Tag "[document]" ∅ contents.

(** [tag.descendants]: every node below [n], in document order *)
Fixpoint descendants (n : node) : list node :=
  match n with
  | Tag _ _ contents =>
      (fix go (l : list node) : list node :=
         match l with
         | [] => []
         | c :: l' => c :: descendants c ++ go l'
         end) contents
  | _ => []
  end.

Definition tag_attrs (n : node) : gmap string string :=
  match n with Tag _ attrs _ => attrs | _ => ∅ end.

(** [tag.find_all(names, attrs)]: the descendant tags whose name is one of
    [names] and whose attributes pass [attrs_ok], in document order *)
Definition find_all (names : list string) (attrs_ok : gmap string string -> bool)
    (n : node) : list node :=
  List.filter
    (fun d =>
       match d with
       | Tag name attrs _ => bool_decide (name ∈ names) && attrs_ok attrs
       | _ => false
       end)
    (descendants n).

(** [tag.find(...)]: the first match, or [None] *)
Definition find (names : list string) (attrs_ok : gmap string string -> bool)
    (n : node) : option node :=
  head (find_all names attrs_ok n).

(** attribute filters: none, [href=True], [attrs={'name': v}] *)
Definition any_attrs : gmap string string -> bool := fun _ => true.
Definition has_attr (k : string) : gmap string string -> bool :=
  fun attrs => bool_decide (is_Some (attrs !! k)).
Definition attr_is (k v : string) : gmap string string -> bool :=
  fun attrs => bool_decide (attrs !! k = Some v).

(** [tag.get(key, default)] *)
Definition get (n : node) (key dflt : string) : string :=
  default dflt (tag_attrs n !! key).

End Bs4.

Module Bs4Text.
Import Bs4.

(** [HTMLTreeBuilder.DEFAULT_STRING_CONTAINERS]: the class of the strings
    below a tag of this name, if it has one of its own *)
Definition string_containers (name : string) : option string_class :=
  if String.eqb name "rt" then Some RubyTextString
  else if String.eqb name "rp" then Some RubyParenthesisString
  else if String.eqb name "style" then Some Stylesheet
  else if String.eqb name "script" then Some Script
  else if String.eqb name "template" then Some TemplateString
  else None.

(** the string [d], if its class is one of the tag's
    [interesting_string_types]: the class of the tag's container, or else
    [NavigableString] and [CData] *)
Definition interesting (name : string) (d : node) : option string :=
  match string_containers name, d with
  | Some cls, Contained cls' s => if decide (cls' = cls) then Some s else None
  | None, NavigableString s => Some s
  | None, CData s => Some s
  | _, _ => None
  end.

(** [tag.get_text(strip=True)]: the strings below the tag that are of
    interest to it, each stripped, the empty ones dropped, joined without
    separator; for a string, the string itself if it is text *)
Definition get_text (n : node) : string :=
  match n with
  | Tag name _ _ =>
      fold_right String.append ""
        (List.filter (fun s => negb (String.eqb s ""))
           (omap (fun d => PyStr.strip <$> interesting name d)
                 (descendants n)))
  | NavigableString s => PyStr.strip s
  | CData s => PyStr.strip s
  | _ => ""
  end.

End Bs4Text.

(* ===================================================================== *)
(** * [csv.DictWriter] with the excel dialect                             *)
(* ===================================================================== *)

Module Csv.
Import PyStr.

(** the characters that force a field into quotes: the delimiter, the
    quote character and the characters of the line terminator *)
Definition is_special (c : ascii) : bool :=
  eqc c "," || eqc c ch_dquote || eqc c ch_cr || eqc c ch_lf.

(** one field under [QUOTE_MINIMAL] with [doublequote] *)
Definition field (s : string) : string :=
  let cs := chars s in
  if existsb is_special cs then
    text (ch_dquote
            :: concat (map (fun c => if eqc c ch_dquote
                                     then [ch_dquote; ch_dquote] else [c]) cs)
            ++ [ch_dquote])
  else s.

Definition lineterminator : string := text [ch_cr; ch_lf].

(** [writer.writerow(fields)]: the text written for one row; a row that
    consists of one empty field is written as a pair of quotes *)
Definition row (fields : list string) : string :=
  match fields with
  | [f] =>
      if String.eqb f "" then text [ch_dquote; ch_dquote] ++ lineterminator
      else field f ++ lineterminator
  | _ => PyRepr.join_strings "," (map field fields) ++ lineterminator
  end.

(** the text of a cell: [None] is written empty, a string as it is, any
    other value through [str] *)
Definition cell (v : pyval) : string :=
  match v with
  | PNone => ""
  | _ => PyRepr.str_of v
  end.

(** [DictWriter._dict_to_list] with [extrasaction="raise"] and
    [restval=""].  The wrong fields are listed here in the row's key
    order; Python lists them in the iteration order of a set, which is not
    fixed, so the message is known up to the order of its names when there
    are several. *)
Definition _dict_to_list (fieldnames : list string) (rowdict : pydict)
  : result (list pyval) :=
  let wrong_fields :=
    List.filter (fun k => negb (bool_decide (k ∈ fieldnames)))
                (PyDict.keys rowdict) in
  match wrong_fields with
  | _ :: _ =>
      Raise (Exn ValueError
               ("dict contains fields not in fieldnames: "
                ++ PyRepr.join_strings ", " (map PyRepr.repr_str wrong_fields)))
  | [] =>
      Ok (map (fun key => default (PStr "") (PyDict.get key rowdict))
              fieldnames)
  end.

(** the text [DictWriter.writerow(rowdict)] writes *)
Definition writerow (fieldnames : list string) (rowdict : pydict)
  : result string :=
  fields ← _dict_to_list fieldnames rowdict;
  Ok (row (map cell fields)).

(** the dict [DictWriter.writeheader] passes to [writerow] *)
Definition header (fieldnames : list string) : pydict :=
  PyDict.of_pairs (zip fieldnames (map PStr fieldnames)).

End Csv.

(* ===================================================================== *)
(** * The world of a scraping run                                         *)
(* ===================================================================== *)

Abbreviation node := Bs4.node.

(** [requests.Response], as far as the scraper reads it *)
Record Response := mkResponse {
  status_code : Z;
  reason : string;
  response_url : string;
  content : string
}.

(** The transport and the parser are collaborators of the scraper:
    [session_get] is [requests.Session.get] (with the session's headers and
    [timeout=10]) against a network whose state it may change, and
    [html_parser] is [BeautifulSoup(content, 'html.parser')], which gives
    the tree of the document or raises, as it does with
    [ParserRejectedMarkup] for markup that the parser gives up on; the
    errors of the parser are no errors of [requests]. *)
Class Web := {
  NetState : Type;
  session_get : string -> NetState -> result Response * NetState;
  html_parser : string -> result node;
  html_parser_raises : forall content e,
    html_parser content = Raise e -> isinstance_RequestException e = false
}.

(** The files a run can see: the contents of the files that exist, and for
    the paths that cannot be opened for writing the message of the
    [OSError] that [open] raises. *)
Record FileSystem := mkFS {
  files : gmap string string;
  open_errors : gmap string string
}.

Abbreviation loc := nat.

Section World.
Context `{Web}.

(** The state a method runs in.  [heap] holds the dict objects that are
    passed around by reference. *)
Record World := mkWorld {
  net : NetState;
  stdout : list string;
  slept : Z;
  heap : gmap loc pydict;
  fs : FileSystem
}.

(** A Python computation: it changes the world and returns a value or
    raises. *)
Definition Py (A : Type) : Type := World -> result A * World.

Definition py_ret {A} (a : A) : Py A := fun w => (Ok a, w).

Definition py_bind {A B} (m : Py A) (k : A -> Py B) : Py B :=
  fun w =>
    match m w with
    | (Ok a, w') => k a w'
    | (Raise e, w') => (Raise e, w')
    end.

Definition py_raise {A} (e : exn) : Py A := fun w => (Raise e, w).

(** a pure expression that may raise *)
Definition py_lift {A} (r : result A) : Py A := fun w => (r, w).

(** [try: body except C as e: handler e], where [catches] decides
    [isinstance(e, C)] *)
Definition try_except {A} (body : Py A) (catches : exn -> bool)
    (handler : exn -> Py A) : Py A :=
  fun w =>
    match body w with
    | (Ok a, w') => (Ok a, w')
    | (Raise e, w') => if catches e then handler e w' else (Raise e, w')
    end.

(** a [for] loop with an accumulator *)
Fixpoint py_fold {A B} (f : B -> A -> Py B) (acc : B) (l : list A) : Py B :=
  match l with
  | [] => py_ret acc
  | x :: l' => py_bind (f acc x) (fun acc' => py_fold f acc' l')
  end.

(** [print(line)] *)
Definition print (line : string) : Py unit :=
  fun w => (Ok tt, mkWorld (net w) (stdout w ++ [line]) (slept w) (heap w) (fs w)).

(** the largest number of seconds that fits the clock of [time.sleep],
    which counts nanoseconds in 64 bits *)
Definition max_sleep : Z := 9223372036.

(** [time.sleep(seconds)] for a whole number of seconds: the number is
    converted to nanoseconds first, then its sign is tested *)
Definition sleep (seconds : Z) : Py unit :=
  fun w =>
    if (seconds <? - max_sleep)%Z || (max_sleep <? seconds)%Z
    then (Raise (Exn OverflowError
                     "timestamp too large to convert to C _PyTime_t"), w)
    else if (seconds <? 0)%Z
    then (Raise (Exn ValueError "sleep length must be non-negative"), w)
    else (Ok tt, mkWorld (net w) (stdout w) (slept w + seconds) (heap w) (fs w)).

(** [self.session.get(url, timeout=10)] *)
Definition get (url : string) : Py Response :=
  fun w =>
    let '(r, n) := session_get url (net w) in
    (r, mkWorld n (stdout w) (slept w) (heap w) (fs w)).

(** [response.raise_for_status()] *)
Definition raise_for_status (r : Response) : Py unit :=
  let describe kind :=
    pretty (status_code r) +:+ " " +:+ kind +:+ " Error: " +:+ reason r
    +:+ " for url: " +:+ response_url r in
  if (400 <=? status_code r)%Z && (status_code r <? 500)%Z
  then py_raise (Exn HTTPError (describe "Client"))
  else if (500 <=? status_code r)%Z && (status_code r <? 600)%Z
  then py_raise (Exn HTTPError (describe "Server"))
  else py_ret tt.

Definition with_heap (h : gmap loc pydict) (w : World) : World :=
  mkWorld (net w) (stdout w) (slept w) h (fs w).

(** a dict display [{...}]: a new object, at a reference not yet in use *)
Definition new_dict (d : pydict) : Py loc :=
  fun w =>
    let l := fresh (dom (heap w)) in
    (Ok l, with_heap (<[l := d]> (heap w)) w).

(** [d[key] = value] for the object at [l]; anything but a dict does not
    support item assignment *)
Definition setitem (l : loc) (key : string) (value : pyval) : Py unit :=
  fun w =>
    match heap w !! l with
    | Some d =>
        (Ok tt,
         mkWorld (net w) (stdout w) (slept w)
                 (<[l := PyDict.set key value d]> (heap w)) (fs w))
    | None =>
        (Raise (Exn TypeError "object does not support item assignment"), w)
    end.

(** [open(filename, 'w', newline='', encoding='utf-8')]: the file is
    created or truncated *)
Definition open_w (filename : string) : Py unit :=
  fun w =>
    match open_errors (fs w) !! filename with
    | Some msg => (Raise (Exn OSError msg), w)
    | None =>
        (Ok tt,
         mkWorld (net w) (stdout w) (slept w) (heap w)
                 (mkFS (<[filename := ""]> (files (fs w)))
                       (open_errors (fs w))))
    end.

(** [f.write(data)] on the file opened at [filename] *)
Definition write (filename : string) (data : string) : Py unit :=
  fun w =>
    (Ok tt,
     mkWorld (net w) (stdout w) (slept w) (heap w)
             (mkFS (<[filename :=
                        default "" (files (fs w) !! filename) +:+ data]>
                      (files (fs w)))
                   (open_errors (fs w)))).

End World.

Arguments World {_}.
Arguments Py {_} A.

(* ===================================================================== *)
(** * [class WebScraper]                                                  *)
(* ===================================================================== *)

(** The fields of a scraper that its methods read.  [delay] is a whole
    number of seconds; the constructor does not check it. *)
Record WebScraper := mkScraper {
  base_url : string;
  delay : Z
}.

(** [l[i]] for a Python list: negative indices count from the end.  An
    index that names no element is an error, with a message of its own
    when the index does not fit a machine word of 64 bits (a list is never
    that long). *)
Definition py_index {A} (l : list A) (i : Z) : result A :=
  let n := Z.of_nat (length l) in
  let j := if (i <? 0)%Z then (n + i)%Z else i in
  if (0 <=? j)%Z && (j <? n)%Z then
    match l !! Z.to_nat j with
    | Some x => Ok x
    | None => Raise (Exn IndexError "list index out of range")
    end
  else if (i <? - 2 ^ 63)%Z || (2 ^ 63 <=? i)%Z
  then Raise (Exn IndexError "cannot fit 'int' into an index-sized integer")
  else Raise (Exn IndexError "list index out of range").

(** [tag[key]] *)
Definition getitem (n : node) (key : string) : result string :=
  match Bs4.tag_attrs n !! key with
  | Some v => Ok v
  | None => Raise (Exn KeyError key)
  end.

Section Scraper.
Context `{Web} `{Urllib.Tables}.

#[global] Instance py_mret : MRet Py := fun _ a => py_ret a.
#[global] Instance py_mbind : MBind Py := fun _ _ k m => py_bind m k.

Definition fetch_page (self : WebScraper) (url : string) : Py (option node) :=
  try_except
    (_ ← print ("Fetching: " +:+ url);
     response ← get url;
     _ ← raise_for_status response;
     _ ← sleep (delay self);
     soup ← py_lift (html_parser (content response));
     mret (Some soup))
    isinstance_RequestException
    (fun e =>
       _ ← print ("Error fetching " +:+ url +:+ ": " +:+ exn_msg e);
       mret None).

(** the body of the loop over the anchors of [extract_links] *)
Definition extract_links_step (self : WebScraper) (filter_internal : bool)
    (links : list string) (link : node) : result (list string) :=
  href ← getitem link "href";
  url ← Urllib.urljoin (base_url self) href;
  if filter_internal then
    n ← Urllib.urlparse_netloc url;
    nb ← Urllib.urlparse_netloc (base_url self);
    if String.eqb n nb then Ok (links ++ [url]) else Ok links
  else Ok (links ++ [url]).

Definition extract_links (self : WebScraper) (soup : option node)
    (filter_internal : bool) : result (list string) :=
  match soup with
  | None => Ok []
  | Some soup =>
      links ←
        rfold (extract_links_step self filter_internal)
              [] (Bs4.find_all ["a"] (Bs4.has_attr "href") soup);
      Ok (elements (list_to_set links : gset string))
  end.

Definition extract_text (self : WebScraper) (soup : option node)
    (tag : string) : list string :=
  match soup with
  | None => []
  | Some soup =>
      let elements := Bs4.find_all [tag] Bs4.any_attrs soup in
      List.filter (fun t => negb (String.eqb t ""))
                  (map Bs4Text.get_text elements)
  end.

Definition extract_images (self : WebScraper) (soup : option node)
  : result (list pydict) :=
  match soup with
  | None => Ok []
  | Some soup =>
      rfold
        (fun images img =>
           let img_url := Bs4.get img "src" "" in
           if negb (String.eqb img_url "") then
             full_url ← Urllib.urljoin (base_url self) img_url;
             Ok (images
                   ++ [[("url", PStr full_url);
                        ("alt", PStr (Bs4.get img "alt" "No alt text"))]])
           else Ok images)
        [] (Bs4.find_all ["img"] Bs4.any_attrs soup)
  end.

Definition extract_metadata (self : WebScraper) (soup : option node)
  : pydict :=
  match soup with
  | None => []
  | Some soup =>
      let metadata : pydict := [] in
      let title := Bs4.find ["title"] Bs4.any_attrs soup in
      let metadata :=
        PyDict.set "title"
          (PStr match title with
                | Some title => Bs4Text.get_text title
                | None => "No title"
                end) metadata in
      let description :=
        Bs4.find ["meta"] (Bs4.attr_is "name" "description") soup in
      let metadata :=
        PyDict.set "description"
          (PStr match description with
                | Some description =>
                    Bs4.get description "content" "No description"
                | None => "No description"
                end) metadata in
      let keywords :=
        Bs4.find ["meta"] (Bs4.attr_is "name" "keywords") soup in
      let metadata :=
        PyDict.set "keywords"
          (PStr match keywords with
                | Some keywords => Bs4.get keywords "content" "No keywords"
                | None => "No keywords"
                end) metadata in
      metadata
  end.

(** the cell texts of a table row *)
Definition row_cells (names : list string) (row : node) : list string :=
  map Bs4Text.get_text (Bs4.find_all names Bs4.any_attrs row).

(** the body of the loop over the data rows of [scrape_table] *)
Definition table_row_step (headers : list string) (rows : list pydict)
    (row : node) : list pydict :=
  let cells := row_cells ["td"; "th"] row in
  match cells with
  | _ :: _ =>
      match headers with
      | _ :: _ => rows ++ [PyDict.of_pairs (zip headers (map PStr cells))]
      | [] => rows ++ [[("data", PList (map PStr cells))]]
      end
  | [] => rows
  end.

Definition scrape_table (self : WebScraper) (url : string) (table_index : Z)
  : Py (list pydict) :=
  soup ← fetch_page self url;
  match soup with
  | None => mret []
  | Some soup =>
      let tables := Bs4.find_all ["table"] Bs4.any_attrs soup in
      if bool_decide (tables = [])
         || (Z.of_nat (length tables) <=? table_index)%Z
      then
        _ ← print "Table not found";
        mret []
      else
        table ← py_lift (py_index tables table_index);
        let header_row := Bs4.find ["tr"] Bs4.any_attrs table in
        let headers :=
          match header_row with
          | Some header_row => row_cells ["th"; "td"] header_row
          | None => []
          end in
        let rows :=
          fold_left (table_row_step headers)
                    (drop 1 (Bs4.find_all ["tr"] Bs4.any_attrs table)) [] in
        mret rows
  end.

Definition save_to_csv (self : WebScraper) (data : list pydict)
    (filename : string) : Py unit :=
  match data with
  | [] => print "No data to save"
  | first :: _ =>
      try_except
        (_ ← open_w filename;
         let fieldnames := PyDict.keys first in
         _ ← (line ← py_lift (Csv.writerow fieldnames (Csv.header fieldnames));
              write filename line);
         _ ← py_fold
               (fun _ rowdict =>
                  line ← py_lift (Csv.writerow fieldnames rowdict);
                  write filename line)
               tt data;
         print ("Data saved to " +:+ filename))
        isinstance_Exception
        (fun e => print ("Error saving to CSV: " +:+ exn_msg e))
  end.

(** the body of the loop of [scrape_multiple_pages] *)
Definition scrape_step (self : WebScraper) (extract_func : node -> Py loc)
    (all_data : list loc) (url : string) : Py (list loc) :=
  soup ← fetch_page self url;
  match soup with
  | Some soup =>
      data ← extract_func soup;
      _ ← setitem data "url" (PStr url);
      mret (all_data ++ [data])
  | None => mret all_data
  end.

Definition scrape_multiple_pages (self : WebScraper) (urls : list string)
    (extract_func : node -> Py loc) : Py (list loc) :=
  py_fold (scrape_step self extract_func) [] urls.

End Scraper.

(* ===================================================================== *)
(** * Concrete collaborators for the examples                             *)
(* ===================================================================== *)

Module Demo.
Import Bs4.

(** The address table cut down to the loopback literal. *)
Definition tables : Urllib.Tables :=
  {| Urllib.is_ipv6_address := fun h => bool_decide (h = PyStr.chars "::1");
     Urllib.nfkc_netloc_ok := fun _ => true |}.

Definition anchor (href : string) : node :=
  Tag "a" {[ "href" := href ]} [NavigableString "link"].

Definition tr (cell : string) (cells : list string) : node :=
  Tag "tr" ∅ (map (fun c => Tag cell ∅ [NavigableString c]) cells).

(** a page with a title, a keywords element and five anchors, two of them
    to the same target and one to another host *)
Definition links_page : node :=
  BeautifulSoup
    [Tag "html" ∅
       [Tag "head" ∅
          [Tag "title" ∅ [NavigableString "  Demo "];
           Tag "meta" {[ "name" := "keywords"; "content" := "a,b" ]} []];
        Tag "body" ∅
          [anchor "/x"; anchor "x"; anchor "http://other.example/";
           anchor "/x"; Tag "a" ∅ []]]].

(** a page with two tables: the first has the header [h1, h2] and the
    rows [a, b] and [c]; the second has the header [k] and three more
    rows, of which only the middle one has a cell *)
Definition table_page : node :=
  BeautifulSoup
    [Tag "table" ∅
       [tr "th" ["h1"; "h2"]; tr "td" ["a"; "b"]; tr "td" ["c"]];
     Tag "table" ∅
       [tr "th" ["k"]; Tag "tr" ∅ []; tr "td" ["v"]; Tag "tr" ∅ []]].

(** A network with three pages; [http://site.example/missing] answers 404
    and any other URL cannot be connected to.  The state counts the
    requests. *)
Definition serve (url : string) (n : nat) : result Response * nat :=
  (if String.eqb url "http://site.example/links"
   then Ok (mkResponse 200 "OK" url "links")
   else if String.eqb url "http://site.example/table"
   then Ok (mkResponse 200 "OK" url "table")
   else if String.eqb url "http://site.example/plain"
   then Ok (mkResponse 200 "OK" url "plain")
   else if String.eqb url "http://site.example/missing"
   then Ok (mkResponse 404 "Not Found" url "")
   else Raise (Exn ConnectionError "connection refused"),
   S n).

Definition parse (content : string) : node :=
  if String.eqb content "links" then links_page
  else if String.eqb content "table" then table_page
  else BeautifulSoup [].

Definition web : Web :=
  {| NetState := nat; session_get := serve; html_parser := fun content => Ok (parse content);
     html_parser_raises := ltac:(intros content e Hparse; discriminate Hparse)
  |}.

Definition scraper : WebScraper := mkScraper "http://site.example/dir/index" 1.

Definition fs0 : FileSystem :=
  mkFS ∅ {[ "/readonly.csv" := "[Errno 13] Permission denied" ]}.

Definition world0 : @World web := @mkWorld web 0 [] 0 ∅ fs0.

(** an extraction function in the style of the module's own example: a
    new dict with the title and the number of paragraphs of the page *)
Definition extract_data (soup : node) : @Py web loc :=
  new_dict
    [("title",
      default PNone (PyDict.get "title" (extract_metadata scraper (Some soup))));
     ("paragraphs",
      PInt (Z.of_nat (length (extract_text scraper (Some soup) "p"))))].

(** an extraction function that hands out one and the same dict, the one
    at reference 0, for every page *)
Definition shared_record (soup : node) : @Py web loc := fun w => (Ok 0, w).

Definition world_with_record : @World web :=
  @mkWorld web 0 [] 0 {[ 0 := [("pages", PInt 0)] ]} fs0.

End Demo.

(* ===================================================================== *)
(** * The notions the properties are stated with                         *)
(* ===================================================================== *)

Section Notions.
Context `{Web} `{Urllib.Tables}.

(** a URL is internal when its netloc is the netloc of the base URL *)
Definition same_netloc (self : WebScraper) (u : string) : Prop :=
  exists n, Urllib.urlparse_netloc u = Ok n
            /\ Urllib.urlparse_netloc (base_url self) = Ok n.

(** the loop of [dict(pairs)], started from a dict [d] *)
Definition insert_all (pairs : list (string * pyval)) (d : pydict) : pydict :=
  fold_left (fun d kv => PyDict.set (fst kv) (snd kv) d) pairs d.

(** the texts of the cells of the first row of a table: the headers *)
Definition table_headers (table : node) : list string :=
  match Bs4.find ["tr"] Bs4.any_attrs table with
  | Some header_row => row_cells ["th"; "td"] header_row
  | None => []
  end.

(** the rows after the first one *)
Definition table_data_rows (table : node) : list node :=
  drop 1 (Bs4.find_all ["tr"] Bs4.any_attrs table).

(** the cell texts of the data rows that have at least one cell *)
Definition table_data_cells (table : node) : list (list string) :=
  List.filter (fun cells => negb (bool_decide (cells = [])))
              (map (row_cells ["td"; "th"]) (table_data_rows table)).

(** An extraction function that builds its record afresh: it returns a
    reference that was not in use, leaves the objects that exist as they
    are, and does nothing besides. *)
Definition fresh_extractor (extract_func : node -> Py loc) : Prop :=
  forall soup (w : World),
    exists l h',
      extract_func soup w = (Ok l, with_heap h' w)
      /\ heap w !! l = None
      /\ is_Some (h' !! l)
      /\ forall l0 d, heap w !! l0 = Some d -> h' !! l0 = Some d.

(** the object at [l] is a dict whose [url] entry is the string [url] *)
Definition tagged (w : World) (l : loc) (url : string) : Prop :=
  exists d, heap w !! l = Some d /\ PyDict.get "url" d = Some (PStr url).

(** An extraction function that leaves the records of other pages alone:
    whenever it returns, the object it returns is none of those that
    carried a [url] entry before the call, and these carry it still.  The
    function may raise, print, wait, use the network and the files, and
    build or change other objects. *)
Definition keeps_tags (extract_func : node -> Py loc) : Prop :=
  forall soup (w w' : World) l,
    extract_func soup w = (Ok l, w') ->
    forall l0 url, tagged w l0 url -> l0 <> l /\ tagged w' l0 url.

(** A run of the loop of [scrape_multiple_pages] in which nothing raises:
    [visited self extract_func w urls pages w'] holds when, from the world
    [w], every fetch returns, the extraction function returns for every
    document that arrives and its result takes the [url] entry, and the
    world ends as [w'].  [pages] lists the URLs whose fetch gave a
    document, in the order of the fetches, each with the reference that
    the extraction function returned for it. *)
Inductive visited (self : WebScraper) (extract_func : node -> Py loc)
  : World -> list string -> list (string * loc) -> World -> Prop :=
  | visited_nil w : visited self extract_func w [] [] w
  | visited_failure w url w1 urls pages w' :
      fetch_page self url w = (Ok None, w1) ->
      visited self extract_func w1 urls pages w' ->
      visited self extract_func w (url :: urls) pages w'
  | visited_page w url soup w1 data w2 w3 urls pages w' :
      fetch_page self url w = (Ok (Some soup), w1) ->
      extract_func soup w1 = (Ok data, w2) ->
      setitem data "url" (PStr url) w2 = (Ok tt, w3) ->
      visited self extract_func w3 urls pages w' ->
      visited self extract_func w (url :: urls) ((url, data) :: pages) w'.

(** the message of the [HTTPError] that [raise_for_status] raises for a
    status from 400 to 599 *)
Definition http_error_message (r : Response) : string :=
  pretty (status_code r) +:+ " "
  +:+ (if (status_code r <? 500)%Z then "Client" else "Server")
  +:+ " Error: " +:+ reason r +:+ " for url: " +:+ response_url r.

(** the line of a record under the given columns: a missing key gives an
    empty field *)
Definition csv_line (fieldnames : list string) (rowdict : pydict) : string :=
  Csv.row (map (fun key => Csv.cell (default (PStr "") (PyDict.get key rowdict)))
               fieldnames).

(** the header line followed by one line per record *)
Definition csv_text (fieldnames : list string) (data : list pydict) : string :=
  fold_left String.append (map (csv_line fieldnames) data)
            (Csv.row fieldnames).

(** the world in which the file holds the given text *)
Definition with_file (filename text : string) (w : World) : World :=
  mkWorld (net w) (stdout w) (slept w) (heap w)
          (mkFS (<[filename := text]> (files (fs w))) (open_errors (fs w))).

(** the world after one more line was printed *)
Definition with_line (line : string) (w : World) : World :=
  mkWorld (net w) (stdout w ++ [line]) (slept w) (heap w) (fs w).

End Notions.

(** the shapes of URLs and of their components *)
Module UrlForms.
Import PyStr Urllib.

(** free of the characters that [urlsplit] removes *)
Definition unsafe_free (s : str) : Prop :=
  (ch_tab ∉ s) /\ (ch_cr ∉ s) /\ (ch_lf ∉ s).

(** what [urlsplit] accepts as a scheme, in the lower case it returns *)
Definition valid_scheme (s : str) : Prop :=
  match s with
  | c :: _ => is_ascii c && is_alpha c = true
  | [] => False
  end
  /\ Forall (fun c => is_scheme_char c = true /\ is_upper c = false) s.

(** the characters that end a netloc *)
Definition is_delim (c : ascii) : bool :=
  eqc c "/" || eqc c "?" || eqc c "#".

Definition not_delim (c : ascii) : bool := negb (is_delim c).

(** no semicolon after the last slash: the last segment of a path holds
    no parameters *)
Definition tail_free (p : str) : Prop :=
  forall pre seg, p = pre ++ seg -> "/"%char ∉ seg -> ";"%char ∉ seg.

(** the path that [urlunparse] hands to [urlunsplit] *)
Definition joined_path (p params : str) : str :=
  if is_empty params then p else p ++ ";"%char :: params.

(** the list of segments that [urljoin] joins: it ends with the last
    segment, or with an empty segment when the last segment is a dot
    segment *)
Definition resolved (segments : list str) : list str :=
  if in_list (List.last segments []) [chars "."; chars ".."]
  then resolve_segments segments ++ [[]]
  else resolve_segments segments.

(** the path that [urljoin] builds from the path of the base and a
    non-empty relative path *)
Definition merge_path (bpath upath : str) : str :=
  let base_parts := split "/" bpath in
  let base_parts :=
    if negb (is_empty (List.last base_parts []))
    then removelast base_parts else base_parts in
  let segments :=
    if eqs (take 1 upath) (chars "/") then split "/" upath
    else filter_middle (base_parts ++ split "/" upath) in
  let joined := join (chars "/") (resolved segments) in
  if is_empty joined then chars "/" else joined.

(** the slash that [urlunsplit] puts before a path that follows a
    netloc *)
Definition fix_path (p : str) : str :=
  match p with
  | [] => []
  | c :: _ => if eqc c "/" then p else "/"%char :: p
  end.

(** [?query] and [#fragment], when there is one *)
Definition suffix (c : ascii) (s : str) : str :=
  if is_empty s then [] else c :: s.

Section WithTables.
Context `{Tables}.

(** the split results that [urlunsplit] and [urlsplit] take to each
    other: a valid scheme, a netloc that is there and passes the checks,
    a path that is empty or starts with a slash, and no component that
    holds a character which ends it *)
Record wf_split (r : SplitResult) : Prop := {
  wf_scheme : valid_scheme (s_scheme r);
  wf_netloc : s_netloc r <> [];
  wf_netloc_chars : Forall (fun c => not_delim c = true) (s_netloc r);
  wf_brackets : check_brackets (s_netloc r) = Ok tt;
  wf_nfkc : _checknetloc (s_netloc r) = Ok tt;
  wf_path_query : "?"%char ∉ s_path r;
  wf_path_fragment : "#"%char ∉ s_path r;
  wf_path_head : match s_path r with c :: _ => c = "/"%char | [] => True end;
  wf_query_fragment : "#"%char ∉ s_query r;
  wf_unsafe_netloc : unsafe_free (s_netloc r);
  wf_unsafe_path : unsafe_free (s_path r);
  wf_unsafe_query : unsafe_free (s_query r);
  wf_unsafe_fragment : unsafe_free (s_fragment r)
}.

(** the parse results that [urlunparse] and [urlparse] take to each
    other *)
Record wf_parse (t : ParseResult) : Prop := {
  wfp_split :
    wf_split (mkSplit (scheme t) (netloc t)
                      (joined_path (path t) (params t))
                      (query t) (fragment t));
  wfp_tail : in_list (scheme t) uses_params = true -> tail_free (path t);
  wfp_params :
    params t <> [] ->
    in_list (scheme t) uses_params = true /\ "/"%char ∉ params t
}.

End WithTables.

End UrlForms.

(* ===================================================================== *)
(** * The data of the scenarios                                           *)
(* ===================================================================== *)

(** three pages of the demo site: the second one is missing *)
Definition u1 : string := "http://site.example/links".
Definition u2 : string := "http://site.example/missing".
Definition u3 : string := "http://site.example/plain".

(** the world after the table page was fetched from the initial world *)
Definition world_after_table : @World Demo.web :=
  @mkWorld Demo.web 1 ["Fetching: http://site.example/table"] 1 ∅ Demo.fs0.

Definition crlf : string := Csv.lineterminator.

Definition newline : string := String (ascii_of_nat 10) "".

(* ===================================================================== *)
(** * [json.dump] with [indent=4] and [ensure_ascii=False]                *)
(* ===================================================================== *)

(** What [save_to_json] is given: a dict, or a list of dicts. *)
Inductive json_data :=
  | JsonDict (d : pydict)
  | JsonList (l : list pydict).

Module Json.
Import PyStr.

(** four digits of [format(n, '04x')] for a code below 32 *)
Definition hex4 (n : nat) : str :=
  chars "00" ++ [PyRepr.hex_digit (n / 16); PyRepr.hex_digit (n mod 16)].

(** [ESCAPE_DCT[c]] for the characters that [ESCAPE] matches: the
    backslash, the double quote and the codes below 32 *)
Definition escape (c : ascii) : str :=
  if eqc c ch_backslash then [ch_backslash; ch_backslash]
  else if eqc c ch_dquote then [ch_backslash; ch_dquote]
  else if Nat.eqb (code c) 8 then ch_backslash :: chars "b"
  else if Nat.eqb (code c) 12 then ch_backslash :: chars "f"
  else if eqc c ch_lf then ch_backslash :: chars "n"
  else if eqc c ch_cr then ch_backslash :: chars "r"
  else if eqc c ch_tab then ch_backslash :: chars "t"
  else if Nat.ltb (code c) 32 then ch_backslash :: chars "u" ++ hex4 (code c)
  else [c].

(** [encode_basestring(s)] *)
Definition encode_basestring (s : string) : string :=
  text (ch_dquote :: concat (map escape (chars s)) ++ [ch_dquote]).

(** a line break and the indentation of a nesting level *)
Definition newline_indent (level : nat) : string :=
  newline +:+ text (replicate (4 * level) " "%char).

(** [_iterencode] of a value at a nesting level, its chunks joined *)
Fixpoint encode (level : nat) (v : pyval) : string :=
  match v with
  | PNone => "null"
  | PStr s => encode_basestring s
  | PInt z => pretty z
  | PList [] => "[]"
  | PList l =>
      "[" +:+ newline_indent (S level)
      +:+ PyRepr.join_strings ("," +:+ newline_indent (S level))
            (map (encode (S level)) l)
      +:+ newline_indent level +:+ "]"
  end.

(** [_iterencode_dict] *)
Definition encode_dict (level : nat) (d : pydict) : string :=
  match d with
  | [] => "{}"
  | _ :: _ =>
      "{" +:+ newline_indent (S level)
      +:+ PyRepr.join_strings ("," +:+ newline_indent (S level))
            (map (fun kv => encode_basestring (fst kv) +:+ ": "
                            +:+ encode (S level) (snd kv)) d)
      +:+ newline_indent level +:+ "}"
  end.

(** the text that [json.dump(data, f, indent=4, ensure_ascii=False)]
    writes *)
Definition dumps (data : json_data) : string :=
  match data with
  | JsonDict d => encode_dict 0 d
  | JsonList [] => "[]"
  | JsonList l =>
      "[" +:+ newline_indent 1
      +:+ PyRepr.join_strings ("," +:+ newline_indent 1)
            (map (encode_dict 1) l)
      +:+ newline_indent 0 +:+ "]"
  end.

End Json.

(* ===================================================================== *)
(** * [scrape_custom] and the callers of the scraper                      *)
(* ===================================================================== *)

(** [soup.select(selector)]: the CSS selector engine is a collaborator of
    the scraper.  It returns the tags that match, in document order, or
    raises on a selector it cannot read. *)
Class Css := {
  select : string -> node -> result (list node)
}.

(** [d[key]] for a dict *)
Definition dict_getitem (d : pydict) (key : string) : result pyval :=
  match PyDict.get key d with
  | Some v => Ok v
  | None => Raise (Exn KeyError (PyRepr.repr_str key))
  end.

Section Callers.
Context `{Web} `{Urllib.Tables} `{Css}.

(** the body of the loop over [selectors.items()] of [scrape_custom] *)
Definition scrape_custom_step (soup : node) (data : pydict)
    (item : string * string) : result pydict :=
  elements ← select (snd item) soup;
  Ok (PyDict.set (fst item)
        (PList (map (fun elem => PStr (Bs4Text.get_text elem)) elements))
        data).

(** [selectors] is a dict from names to CSS selectors, given by its items
    in order *)
Definition scrape_custom (self : WebScraper) (url : string)
    (selectors : list (string * string)) : Py pydict :=
  soup ← fetch_page self url;
  match soup with
  | None => mret []
  | Some soup =>
      let data := [("url", PStr url)] in
      py_lift (rfold (scrape_custom_step soup) data selectors)
  end.

Definition save_to_json (self : WebScraper) (data : json_data)
    (filename : string) : Py unit :=
  try_except
    (_ ← open_w filename;
     _ ← write filename (Json.dumps data);
     print ("Data saved to " +:+ filename))
    isinstance_Exception
    (fun e => print ("Error saving to JSON: " +:+ exn_msg e)).

(** [example_custom_scraping()] *)
Definition example_custom_scraping : Py unit :=
  _ ← print (newline +:+ "=== Example 3: Custom Selector Scraping ===");
  let scraper := mkScraper "https://example.com" 1 in
  let selectors :=
    [("headings", "h1, h2"); ("articles", "article"); ("prices", ".price")] in
  data ← scrape_custom scraper "https://example.com" selectors;
  save_to_json scraper (JsonDict data) "custom_data.json".

(** [example_table_scraping()] *)
Definition example_table_scraping : Py unit :=
  _ ← print (newline +:+ "=== Example 2: Table Scraping ===");
  let scraper := mkScraper "https://example.com" 1 in
  table_data ← scrape_table scraper "https://example.com/table-page" 0;
  match table_data with
  | [] => mret tt
  | _ :: _ =>
      _ ← print ("Scraped " +:+ pretty (Z.of_nat (length table_data))
                 +:+ " rows from table");
      save_to_csv scraper table_data "table_data.csv"
  end.

(** the function [extract_data] of [example_multi_page_scraping], for the
    scraper it closes over *)
Definition example_extract_data (scraper : WebScraper) (soup : node)
  : Py loc :=
  title ← py_lift (dict_getitem (extract_metadata scraper (Some soup)) "title");
  let paragraphs := extract_text scraper (Some soup) "p" in
  images ← py_lift (extract_images scraper (Some soup));
  new_dict [("title", title);
            ("paragraphs", PInt (Z.of_nat (length paragraphs)));
            ("images", PInt (Z.of_nat (length images)))].

(** the dicts that a list of references stands for *)
Definition objects (refs : list loc) : Py (list pydict) :=
  fun w =>
    (rfold (fun records l =>
              match heap w !! l with
              | Some d => Ok (records ++ [d])
              | None => Raise (Exn TypeError "not a dict")
              end) [] refs, w).

(** [example_multi_page_scraping()] *)
Definition example_multi_page_scraping : Py unit :=
  _ ← print (newline +:+ "=== Example 4: Multi-Page Scraping ===");
  let scraper := mkScraper "https://example.com" 2 in
  let urls := ["https://example.com/page1"; "https://example.com/page2";
               "https://example.com/page3"] in
  results ← scrape_multiple_pages scraper urls (example_extract_data scraper);
  records ← objects results;
  save_to_json scraper (JsonList records) "multi_page_data.json".

End Callers.

(* ===================================================================== *)
(** * [Hangamn.py] (class [HangmanGame])                                  *)
(* ===================================================================== *)

(** The game reads the player's lines with [input], prints with [print]
    and draws with [random.choice].  The source of random numbers is a
    collaborator: [_randbelow n] returns a number below [n]. *)
Class Random := {
  RandState : Type;
  _randbelow : nat -> RandState -> nat * RandState;
  _randbelow_lt : forall n g, 0 < n -> (_randbelow n g).1 < n
}.

Module Hangman.

Definition WORD_LISTS : list (string * list string) :=
  [("animals", ["elephant"; "giraffe"; "penguin"; "dolphin"; "kangaroo";
                "cheetah"; "rhinoceros"]);
   ("countries", ["brazil"; "australia"; "germany"; "argentina"; "thailand";
                  "portugal"; "switzerland"]);
   ("technology", ["computer"; "keyboard"; "software"; "database";
                   "algorithm"; "internet"; "programming"]);
   ("sports", ["basketball"; "football"; "volleyball"; "baseball";
               "swimming"; "tennis"; "badminton"])].

(** a text given by its lines *)
Definition lines (l : list string) : string :=
  PyRepr.join_strings newline l.

Definition backslash : string := String PyStr.ch_backslash "".

(** the seven drawings, from the empty gallows to the whole figure *)
Definition HANGMAN_STAGES : list string :=
  [lines [""; "       ------"; "       |    |"; "       |"; "       |";
          "       |"; "       |"; "    --------"; "    "];
   lines [""; "       ------"; "       |    |"; "       |    O"; "       |";
          "       |"; "       |"; "    --------"; "    "];
   lines [""; "       ------"; "       |    |"; "       |    O";
          "       |    |"; "       |"; "       |"; "    --------"; "    "];
   lines [""; "       ------"; "       |    |"; "       |    O";
          "       |   /|"; "       |"; "       |"; "    --------"; "    "];
   lines [""; "       ------"; "       |    |"; "       |    O";
          "       |   /|" +:+ backslash; "       |"; "       |";
          "    --------"; "    "];
   lines [""; "       ------"; "       |    |"; "       |    O";
          "       |   /|" +:+ backslash; "       |   /"; "       |";
          "    --------"; "    "];
   lines [""; "       ------"; "       |    |"; "       |    O";
          "       |   /|" +:+ backslash; "       |   / " +:+ backslash;
          "       |"; "    --------"; "    "]].

(** [string.ascii_lowercase] *)
Definition ascii_lowercase : string := "abcdefghijklmnopqrstuvwxyz".

(** The attributes of a game.  [guessed_letters] is a set of one-letter
    strings, kept here as a set of characters. *)
Record HangmanGame := mkGame {
  max_attempts : Z;
  guessed_letters : gset ascii;
  wrong_guesses : Z;
  word : string;
  category : string;
  hint_used : bool
}.

(** [__init__] *)
Definition init : HangmanGame :=
  mkGame 6 ∅ 0 "" "" false.

Definition set_guessed (letters : gset ascii) (self : HangmanGame)
  : HangmanGame :=
  mkGame (max_attempts self) letters (wrong_guesses self) (word self)
         (category self) (hint_used self).

Definition set_wrong (n : Z) (self : HangmanGame) : HangmanGame :=
  mkGame (max_attempts self) (guessed_letters self) n (word self)
         (category self) (hint_used self).

Definition set_word (w : string) (self : HangmanGame) : HangmanGame :=
  mkGame (max_attempts self) (guessed_letters self) (wrong_guesses self) w
         (category self) (hint_used self).

Definition set_category (c : string) (self : HangmanGame) : HangmanGame :=
  mkGame (max_attempts self) (guessed_letters self) (wrong_guesses self)
         (word self) c (hint_used self).

Definition set_hint_used (b : bool) (self : HangmanGame) : HangmanGame :=
  mkGame (max_attempts self) (guessed_letters self) (wrong_guesses self)
         (word self) (category self) b.

(** the capital letters below 256 other than A to Z, and their small
    letters: U+00C0 to U+00DE and U+00E0 to U+00FE, without the signs
    U+00D7 and U+00F7 *)
Definition is_upper_latin (c : ascii) : bool :=
  Nat.leb 192 (PyStr.code c) && Nat.leb (PyStr.code c) 222
  && negb (Nat.eqb (PyStr.code c) 215).

Definition is_lower_latin (c : ascii) : bool :=
  Nat.leb 224 (PyStr.code c) && Nat.leb (PyStr.code c) 254
  && negb (Nat.eqb (PyStr.code c) 247).

(** [s.lower()]: a capital letter becomes its small letter, 32 places on *)
Definition lower_char (c : ascii) : ascii :=
  if PyStr.is_upper c || is_upper_latin c
  then ascii_of_nat (PyStr.code c + 32) else c.

Definition lower (s : string) : string :=
  PyStr.text (map lower_char (PyStr.chars s)).

(** [s.upper()]: a small letter becomes its capital letter, and the sharp s
    U+00DF becomes SS.  The capital letters of U+00B5 and U+00FF lie beyond
    U+00FF; these two letters, which no category holds, are kept. *)
Definition upper_char (c : ascii) : list ascii :=
  if PyStr.is_lower c || is_lower_latin c
  then [ascii_of_nat (PyStr.code c - 32)]
  else if Nat.eqb (PyStr.code c) 223 then PyStr.chars "SS"
  else [c].

Definition upper (s : string) : string :=
  PyStr.text (concat (map upper_char (PyStr.chars s))).

(** [display_word]: every letter of the word, or an underscore in its
    place, each followed by a space; the result is stripped *)
Definition display_word (self : HangmanGame) : string :=
  let display :=
    fold_left
      (fun display letter =>
         if bool_decide (letter ∈ guessed_letters self)
         then display +:+ String letter "" +:+ " "
         else display +:+ "_ ")
      (PyStr.chars (word self)) "" in
  PyStr.strip display.

(** [make_guess]: the answer, and the game after the call *)
Definition make_guess (guess : string) (self : HangmanGame)
  : string * HangmanGame :=
  match PyStr.chars guess with
  | [c] =>
      if negb (PyStr.contains c (PyStr.chars ascii_lowercase))
      then ("Please enter a valid letter (a-z).", self)
      else if bool_decide (c ∈ guessed_letters self)
      then ("You've already guessed that letter!", self)
      else
        let self := set_guessed ({[c]} ∪ guessed_letters self) self in
        if PyStr.contains c (PyStr.chars (word self))
        then ("Good guess! '" +:+ guess +:+ "' is in the word.", self)
        else ("Sorry, '" +:+ guess +:+ "' is not in the word.",
              set_wrong (wrong_guesses self + 1) self)
  | _ => ("Please enter a single letter.", self)
  end.

(** [is_game_won] *)
Definition is_game_won (self : HangmanGame) : bool :=
  forallb (fun letter => bool_decide (letter ∈ guessed_letters self))
          (PyStr.chars (word self)).

(** [is_game_lost] *)
Definition is_game_lost (self : HangmanGame) : bool :=
  (max_attempts self <=? wrong_guesses self)%Z.

(** the order of [sorted] on one-letter strings *)
Definition char_le (a b : ascii) : Prop :=
  PyStr.code a <= PyStr.code b.

#[global] Instance char_le_dec : RelDecision char_le :=
  fun a b => decide (PyStr.code a <= PyStr.code b).

(** [', '.join(sorted(self.guessed_letters))], or [None] for no letter *)
Definition guessed_text (self : HangmanGame) : string :=
  match elements (guessed_letters self) with
  | [] => "None"
  | letters =>
      PyRepr.join_strings ", "
        (map (fun c => String c "") (merge_sort char_le letters))
  end.

Definition rule : string := PyStr.text (replicate 50 "="%char).

Section Play.
Context `{Random}.

(** [random.choice(seq)] *)
Definition choice {A} (seq : list A) (g : RandState)
  : result A * RandState :=
  match seq with
  | [] => (Raise (Exn IndexError "Cannot choose from an empty sequence"), g)
  | _ :: _ =>
      let '(i, g') := _randbelow (length seq) g in
      (py_index seq (Z.of_nat i), g')
  end.

(** What a method of the game works on: the game object, the text written
    to the terminal (a [print] writes its line and a line break, [input]
    writes its prompt) and the random source. *)
Record State := mkState {
  game : HangmanGame;
  written : list string;
  rand : RandState
}.

Definition Run (A : Type) : Type := State -> result A * State.

#[global] Instance run_ret : MRet Run := fun _ a s => (Ok a, s).
#[global] Instance run_bind : MBind Run := fun _ _ k m s =>
  match m s with
  | (Ok a, s') => k a s'
  | (Raise e, s') => (Raise e, s')
  end.

Definition get_self : Run HangmanGame := fun s => (Ok (game s), s).

Definition put_self (self : HangmanGame) : Run unit :=
  fun s => (Ok tt, mkState self (written s) (rand s)).

Definition lift {A} (r : result A) : Run A := fun s => (r, s).

Definition print (line : string) : Run unit :=
  fun s => (Ok tt, mkState (game s) (written s ++ [line +:+ newline]) (rand s)).

(** the prompt of [input], written without a line break *)
Definition prompt (text : string) : Run unit :=
  fun s => (Ok tt, mkState (game s) (written s ++ [text]) (rand s)).

Definition random_choice {A} (seq : list A) : Run A :=
  fun s =>
    let '(r, g) := choice seq (rand s) in
    (r, mkState (game s) (written s) g).

(** [choose_word] *)
Definition choose_word : Run unit :=
  category ← random_choice (map fst WORD_LISTS);
  self ← get_self;
  _ ← put_self (set_category category self);
  words ← lift (match list_find (fun kv => kv.1 = category) WORD_LISTS with
                | Some (_, kv) => Ok kv.2
                | None => Raise (Exn KeyError (PyRepr.repr_str category))
                end);
  w ← random_choice words;
  self ← get_self;
  put_self (set_word (lower w) self).

(** [get_hint] *)
Definition get_hint : Run string :=
  self ← get_self;
  if hint_used self then mret "You've already used your hint!"
  else
    let unguessed :=
      List.filter (fun letter => negb (bool_decide (letter ∈ guessed_letters self)))
                  (PyStr.chars (word self)) in
    match unguessed with
    | _ :: _ =>
        hint_letter ← random_choice unguessed;
        self ← get_self;
        _ ← put_self (set_hint_used true
                        (set_guessed ({[hint_letter]} ∪ guessed_letters self)
                                     self));
        mret ("Hint: The letter '" +:+ String hint_letter ""
              +:+ "' is in the word!")
    | [] => mret "No hints available."
    end.

(** [display_status] *)
Definition display_status : Run unit :=
  self ← get_self;
  _ ← print (newline +:+ rule);
  stage ← lift (py_index HANGMAN_STAGES (wrong_guesses self));
  _ ← print stage;
  _ ← print ("Category: " +:+ upper (category self));
  _ ← print (newline +:+ "Word: " +:+ display_word self);
  _ ← print (newline +:+ "Guessed letters: " +:+ guessed_text self);
  _ ← print ("Remaining attempts: "
             +:+ pretty (max_attempts self - wrong_guesses self)%Z);
  print rule.

(** How one pass through the body of the game loop ends. *)
Inductive flow := Continue | Break.

(** The body of [while True] from the line that [input] returned on: the
    commands [quit] and [hint], or a guess followed by the checks for a
    win and for a loss. *)
Definition turn (line : string) : Run flow :=
  let user_input := PyStr.strip (lower line) in
  if String.eqb user_input "quit" then
    self ← get_self;
    _ ← print (newline +:+ "Thanks for playing! The word was: "
               +:+ word self);
    mret Break
  else if String.eqb user_input "hint" then
    hint ← get_hint;
    _ ← print hint;
    mret Continue
  else
    self ← get_self;
    let '(result, self) := make_guess user_input self in
    _ ← put_self self;
    _ ← print result;
    if is_game_won self then
      _ ← display_status;
      _ ← print (newline +:+ "*** CONGRATULATIONS! YOU WON! ***");
      _ ← print ("The word was: " +:+ word self);
      mret Break
    else if is_game_lost self then
      stage ← lift (py_index HANGMAN_STAGES (wrong_guesses self));
      _ ← print stage;
      _ ← print (newline +:+ "*** GAME OVER! ***");
      _ ← print ("The word was: " +:+ word self);
      mret Break
    else mret Continue.

(** the head of the loop, up to the point where [input] waits *)
Definition ask_guess : Run unit :=
  _ ← display_status;
  prompt (newline +:+ "Enter your guess: ").

(** [play] up to its first [input]: the welcome, the choice of the word
    and the head of the loop *)
Definition start : Run unit :=
  _ ← print (newline +:+ "*** WELCOME TO HANGMAN ***");
  _ ← print "Guess the word one letter at a time!";
  _ ← print "Type 'hint' for a hint (one time use)";
  _ ← print ("Type 'quit' to exit the game" +:+ newline);
  _ ← choose_word;
  ask_guess.

(** the two calls of [input] in [play] *)
Inductive waiting := ForGuess | ForAnswer.

(** what [input] raises when standard input is at its end *)
Definition end_of_input : exn := Exn EOFError "EOF when reading a line".

(** [play] from a call of [input] on, after its prompt was written.  The
    lines of standard input are [typed]: [input] returns the next one, and
    raises [EOFError] when none is left, which [play] does not catch.
    After a guess the loop goes round or is left for the question whether
    to play again; on [yes] the game is reset and [play] starts anew. *)
Fixpoint resume (at_input : waiting) (typed : list string) (s : State)
  : result unit * State :=
  match typed with
  | [] => (Raise end_of_input, s)
  | line :: typed' =>
      match at_input with
      | ForGuess =>
          match turn line s with
          | (Ok Continue, s1) =>
              match ask_guess s1 with
              | (Ok _, s2) => resume ForGuess typed' s2
              | (Raise e, s2) => (Raise e, s2)
              end
          | (Ok Break, s1) =>
              match prompt (newline
                            +:+ "Would you like to play again? (yes/no): ") s1
              with
              | (_, s2) => resume ForAnswer typed' s2
              end
          | (Raise e, s1) => (Raise e, s1)
          end
      | ForAnswer =>
          let play_again := PyStr.strip (lower line) in
          if String.eqb play_again "yes" || String.eqb play_again "y" then
            match (_ ← put_self init; start) s with
            | (Ok _, s1) => resume ForGuess typed' s1
            | (Raise e, s1) => (Raise e, s1)
            end
          else print "Thanks for playing Hangman!" s
      end
  end.

(** [play], run on the lines of standard input *)
Definition play (typed : list string) (s : State) : result unit * State :=
  match start s with
  | (Ok _, s1) => resume ForGuess typed s1
  | (Raise e, s1) => (Raise e, s1)
  end.

(** the program: a new game is played *)
Definition main (typed : list string) (g : RandState)
  : result unit * State :=
  play typed (mkState init [] g).

End Play.

End Hangman.

(** the notions the properties of the game are stated with *)
Module HangmanForms.
Import Hangman.

(** what [display_word] shows in the place of a letter *)
Definition shown (self : HangmanGame) (letter : ascii) : ascii :=
  if bool_decide (letter ∈ guessed_letters self) then letter else "_"%char.

(** the guessed letters that are not in the word *)
Definition misses (self : HangmanGame) : gset ascii :=
  filter (fun c => c ∉ PyStr.chars (word self)) (guessed_letters self).

(** the counter of wrong guesses agrees with the letters guessed *)
Definition consistent (self : HangmanGame) : Prop :=
  wrong_guesses self = Z.of_nat (size (misses self)).

(** a guess that [make_guess] takes: one lower-case letter that was not
    guessed before *)
Definition new_letter (self : HangmanGame) (guess : string) (c : ascii)
  : Prop :=
  guess = String c "" /\ PyStr.is_lower c = true /\ c ∉ guessed_letters self.

(** a word of lower-case letters, at least one *)
Definition lowercase_word (w : string) : bool :=
  negb (String.eqb w "") && forallb PyStr.is_lower (PyStr.chars w).

(** the attributes that a guess or a hint leaves alone *)
Definition same_round (self self' : HangmanGame) : Prop :=
  max_attempts self' = max_attempts self /\ word self' = word self
  /\ category self' = category self.

(** what holds of the game whenever [play] waits for a guess *)
Definition in_play (self : HangmanGame) : Prop :=
  consistent self
  /\ (0 <= wrong_guesses self < 6)%Z
  /\ max_attempts self = 6%Z
  /\ lowercase_word (word self) = true.

End HangmanForms.

(* ===================================================================== *)
(** * More notions and data for the properties                            *)
(* ===================================================================== *)

(** a text without white space at either end *)
Definition trimmed (t : string) : Prop :=
  match PyStr.chars t with
  | c :: _ => PyStr.is_space c = false
  | [] => True
  end
  /\ match rev (PyStr.chars t) with
     | c :: _ => PyStr.is_space c = false
     | [] => True
     end.

(** the record [extract_images] builds for an [img] tag whose [src]
    resolves to [full_url] *)
Definition image_record (img : node) (full_url : string) : pydict :=
  [("url", PStr full_url); ("alt", PStr (Bs4.get img "alt" "No alt text"))].

(** the [img] tags of a document that have a [src] that is not empty *)
Definition images_with_src (soup : node) : list node :=
  List.filter (fun img => negb (String.eqb (Bs4.get img "src" "") ""))
              (Bs4.find_all ["img"] Bs4.any_attrs soup).

(** the anchors of a document that have an [href] *)
Definition anchors (soup : node) : list node :=
  Bs4.find_all ["a"] (Bs4.has_attr "href") soup.

Section MoreNotions.
Context `{Web}.

(** a world that differs from another one at most in the contents of one
    file *)
Definition touches_only (filename : string) (w w' : World) : Prop :=
  net w' = net w /\ stdout w' = stdout w /\ slept w' = slept w
  /\ heap w' = heap w
  /\ open_errors (fs w') = open_errors (fs w)
  /\ forall other, other <> filename ->
                   files (fs w') !! other = files (fs w) !! other.

(** the keys of a row that are no column of the file *)
Definition excess_keys (fieldnames : list string) (rowdict : pydict)
  : list string :=
  List.filter (fun k => negb (bool_decide (k ∈ fieldnames)))
              (PyDict.keys rowdict).

(** the message of the error that [DictWriter] raises for keys in excess,
    with the keys named in the given order *)
Definition excess_message (names : list string) : string :=
  "dict contains fields not in fieldnames: "
  +:+ PyRepr.join_strings ", " (map PyRepr.repr_str names).

(** the value [scrape_custom] binds to a name: the texts of the elements
    that the selector matches *)
Definition selected_texts (elements : list node) : pyval :=
  PList (map (fun elem => PStr (Bs4Text.get_text elem)) elements).

(** the dict that [scrape_table] builds from the headers and the cells of
    a row, when no header text comes twice *)
Definition table_record (headers cells : list string) : pydict :=
  zip headers (map PStr cells).

(** the scraper and the banner of [example_table_scraping], and the line
    it prints for a table of [n] rows *)
Definition example_scraper : WebScraper := mkScraper "https://example.com" 1.

Definition example_banner : string :=
  newline +:+ "=== Example 2: Table Scraping ===".

Definition custom_banner : string :=
  newline +:+ "=== Example 3: Custom Selector Scraping ===".

Definition multi_page_banner : string :=
  newline +:+ "=== Example 4: Multi-Page Scraping ===".

(** every character, in the order of the codes *)
Definition all_chars : list ascii := map ascii_of_nat (seq 0 256).

(** one text goes before the other, or the other way round *)
Definition prefix_related (a b : list ascii) : bool :=
  PyStr.startswith a b || PyStr.startswith b a.

Definition scraped_line (n : nat) : string :=
  "Scraped " +:+ pretty (Z.of_nat n) +:+ " rows from table".

End MoreNotions.

Module Demo2.
Import Bs4.

Definition img (attrs : gmap string string) : node := Tag "img" attrs [].

(** a page with two paragraphs, one of them blank, and four images: one
    without [src], one with an empty [src], one with a relative [src] and
    no [alt], and one with an absolute [src] and an [alt] *)
Definition images_page : node :=
  BeautifulSoup
    [Tag "p" ∅ [NavigableString "  first "; Tag "b" ∅ [NavigableString " bold "]];
     Tag "p" ∅ [NavigableString "   "];
     img ∅;
     img {[ "src" := "" ]};
     img {[ "src" := "a.png" ]};
     img {[ "src" := "http://cdn.example/b.png"; "alt" := "B" ]}].

(** a page whose second image and second anchor name a host that is no
    address *)
Definition broken_page : node :=
  BeautifulSoup
    [img {[ "src" := "a.png" ]};
     img {[ "src" := "http://[" ]};
     Demo.anchor "/x";
     Demo.anchor "http://[";
     Demo.anchor "/y"].

(** a table whose first row has no cell *)
Definition headerless_page : node :=
  BeautifulSoup
    [Tag "table" ∅
       [Tag "tr" ∅ []; Demo.tr "td" ["a"; "b"]; Tag "tr" ∅ [];
        Demo.tr "td" ["c"]]].

(** a table whose first data row is the longest one *)
Definition regular_page : node :=
  BeautifulSoup
    [Tag "table" ∅
       [Demo.tr "th" ["h1"; "h2"]; Demo.tr "td" ["a"; "b"];
        Demo.tr "td" ["c"]]].

(** a table whose third data row is longer than the first one *)
Definition ragged_page : node :=
  BeautifulSoup
    [Tag "table" ∅
       [Demo.tr "th" ["h1"; "h2"; "h3"]; Demo.tr "td" ["a"];
        Demo.tr "td" ["b"]; Demo.tr "td" ["c"; "d"]; Demo.tr "td" ["e"]]].

(** a table whose two columns have the same header text *)
Definition repeated_page : node :=
  BeautifulSoup
    [Tag "table" ∅ [Demo.tr "th" ["h"; "h"]; Demo.tr "td" ["a"; "b"]]].

Definition no_break_space : string := String (ascii_of_nat 160) "".

(** a page with a paragraph between no-break spaces, a script, a
    paragraph that holds a comment, and a template with a paragraph of
    its own *)
Definition text_page : node :=
  BeautifulSoup
    [Tag "p" ∅ [NavigableString (no_break_space +:+ "x" +:+ no_break_space)];
     Tag "script" ∅ [Contained Script " var s; "];
     Tag "p" ∅ [Comment "c"; NavigableString "y"; CData "z"];
     Tag "template" ∅ [Tag "p" ∅ [Contained TemplateString "t"]]].

(** A network with the pages above.  The table page of the example is the
    regular table on the first request and the ragged one later. *)
Definition serve (url : string) (n : nat) : result Response * nat :=
  (if String.eqb url "http://site.example/images"
   then Ok (mkResponse 200 "OK" url "images")
   else if String.eqb url "http://site.example/broken"
   then Ok (mkResponse 200 "OK" url "broken")
   else if String.eqb url "http://site.example/headerless"
   then Ok (mkResponse 200 "OK" url "headerless")
   else if String.eqb url "http://site.example/repeated"
   then Ok (mkResponse 200 "OK" url "repeated")
   else if String.eqb url "http://site.example/text"
   then Ok (mkResponse 200 "OK" url "text")
   else if String.eqb url "https://example.com/table-page"
   then Ok (mkResponse 200 "OK" url
              (if Nat.eqb n 0 then "regular" else "ragged"))
   else Raise (Exn ConnectionError "connection refused"),
   S n).

Definition parse (content : string) : node :=
  if String.eqb content "images" then images_page
  else if String.eqb content "broken" then broken_page
  else if String.eqb content "headerless" then headerless_page
  else if String.eqb content "regular" then regular_page
  else if String.eqb content "ragged" then ragged_page
  else if String.eqb content "repeated" then repeated_page
  else if String.eqb content "text" then text_page
  else BeautifulSoup [].

Definition web : Web :=
  {| NetState := nat; session_get := serve; html_parser := fun content => Ok (parse content);
     html_parser_raises := ltac:(intros content e Hparse; discriminate Hparse)
  |}.

(** a selector engine that reads tag names only *)
Definition css : Css :=
  {| select := fun selector soup =>
       if String.eqb selector "p" then Ok (find_all ["p"] any_attrs soup)
       else if String.eqb selector "img"
       then Ok (find_all ["img"] any_attrs soup)
       else Ok [] |}.

Definition impatient : WebScraper := mkScraper "http://site.example/" (-1).

Definition world0 : @World web := @mkWorld web 0 [] 0 ∅ Demo.fs0.

(** the world in which one request was made before *)
Definition world1 : @World web := @mkWorld web 1 [] 0 ∅ Demo.fs0.

(** a random source that counts its draws *)
Definition counter : Random :=
  {| RandState := nat;
     _randbelow := fun n g => (g mod n, S g);
     _randbelow_lt := fun n g Hn =>
       Nat.mod_upper_bound g n (proj2 (Nat.neq_0_lt_0 n) Hn) |}.

(** a game on the word [cat] in which [a] was guessed *)
Definition cat_game : Hangman.HangmanGame :=
  Hangman.mkGame 6 {[ "a"%char ]} 0 "cat" "animals" false.

(** a state in which the word [cat] is complete and five wrong letters
    were guessed *)
Definition last_attempt : @Hangman.State counter :=
  @Hangman.mkState counter
    (Hangman.mkGame 6
       (list_to_set (PyStr.chars "catxyqwk")) 5 "cat" "animals" true)
    [] 0.

End Demo2.

(* ===================================================================== *)
(** * Properties of the extractors                                        *)
(* ===================================================================== *)

Section ExtractorFacts.
Context `{Urllib.Tables}.

Lemma rfold_app {A B} (f : B -> A -> result B) acc l1 l2 :
  rfold f acc (l1 ++ l2) = (acc' ← rfold f acc l1; rfold f acc' l2).
Proof.
  revert acc. induction l1 as [|x l1 IH]; intros acc; simpl; [done|].
  destruct (f acc x) as [acc'|e]; simpl; [apply IH | done].
Qed.

Lemma extract_links_step_internal self links link links' :
  extract_links_step self true links link = Ok links' ->
  Forall (same_netloc self) links -> Forall (same_netloc self) links'.
Proof.
  unfold extract_links_step. intros Hstep Hall.
  destruct (getitem link "href") as [href|]; simpl in Hstep; [|done].
  destruct (Urllib.urljoin (base_url self) href) as [url|]; simpl in Hstep;
    [|done].
  destruct (Urllib.urlparse_netloc url) as [n|] eqn:Hn; simpl in Hstep; [|done].
  destruct (Urllib.urlparse_netloc (base_url self)) as [nb|] eqn:Hnb;
    simpl in Hstep; [|done].
  destruct (String.eqb n nb) eqn:Heq; inversion Hstep; subst; [|done].
  apply String.eqb_eq in Heq. subst nb.
  apply Forall_app. split; [done|]. constructor; [|constructor].
  exists n. by rewrite Hnb.
Qed.

Lemma rfold_links_internal self l : forall acc links,
  rfold (extract_links_step self true) acc l = Ok links ->
  Forall (same_netloc self) acc -> Forall (same_netloc self) links.
Proof.
  induction l as [|link l IH]; simpl; intros acc links Hr Hacc.
  - by inversion Hr; subst.
  - destruct (extract_links_step self true acc link) as [acc'|] eqn:Hs;
      simpl in Hr; [|done].
    eapply IH; [exact Hr|]. by eapply extract_links_step_internal.
Qed.

Lemma extract_links_step_superset self links_t links_f link links_t' :
  extract_links_step self true links_t link = Ok links_t' ->
  links_t ⊆ links_f ->
  exists links_f',
    extract_links_step self false links_f link = Ok links_f'
    /\ links_t' ⊆ links_f'.
Proof.
  unfold extract_links_step. intros Hstep Hsub.
  destruct (getitem link "href") as [href|]; simpl in *; [|done].
  destruct (Urllib.urljoin (base_url self) href) as [url|]; simpl in *; [|done].
  exists (links_f ++ [url]). split; [done|].
  destruct (Urllib.urlparse_netloc url) as [n|]; simpl in Hstep; [|done].
  destruct (Urllib.urlparse_netloc (base_url self)) as [nb|];
    simpl in Hstep; [|done].
  destruct (String.eqb n nb); inversion Hstep; subst; intros x Hx.
  - apply elem_of_app in Hx as [Hx|Hx]; apply elem_of_app; auto.
  - apply elem_of_app; auto.
Qed.

Lemma rfold_links_superset self l : forall acc_t acc_f links_t,
  rfold (extract_links_step self true) acc_t l = Ok links_t ->
  acc_t ⊆ acc_f ->
  exists links_f,
    rfold (extract_links_step self false) acc_f l = Ok links_f
    /\ links_t ⊆ links_f.
Proof.
  induction l as [|link l IH]; simpl; intros acc_t acc_f links_t Hr Hsub.
  - inversion Hr; subst. by exists acc_f.
  - destruct (extract_links_step self true acc_t link) as [acc_t'|] eqn:Hs;
      simpl in Hr; [|done].
    destruct (extract_links_step_superset _ _ _ _ _ Hs Hsub)
      as (acc_f' & Hf & Hsub').
    rewrite Hf. simpl. by eapply IH.
Qed.

Lemma extract_links_inv self soup flag links :
  extract_links self (Some soup) flag = Ok links ->
  exists l,
    rfold (extract_links_step self flag) []
          (Bs4.find_all ["a"] (Bs4.has_attr "href") soup) = Ok l
    /\ links = elements (list_to_set l : gset string).
Proof.
  unfold extract_links. intros Hl.
  destruct (rfold _ _ _) as [l|]; simpl in Hl; [|done].
  inversion Hl. by exists l.
Qed.

(** C3.  Given the absent document, the link, text, image and metadata
    extractors each return their empty result: the empty list, or the
    empty dict for the metadata.  None of them raises. *)
Theorem absent_document_is_tolerated (self : WebScraper) (flag : bool)
    (tag : string) :
  extract_links self None flag = Ok []
  /\ extract_text self None tag = []
  /\ extract_images self None = Ok []
  /\ extract_metadata self None = [].
Proof. repeat split. Qed.

(** C4, as the code has it.  For a document that is present,
    [extract_metadata] returns a dict with exactly the keys title,
    description and keywords, in that order, each bound to a string; a
    missing title element gives the placeholder [No title], a missing
    description or keywords element (or one without a content attribute)
    gives [No description] or [No keywords].  For the absent document the
    guard at the top of the method returns the empty dict. *)
Theorem metadata_keys_of_present_document (self : WebScraper) (soup : node) :
  let m := extract_metadata self (Some soup) in
  PyDict.keys m = ["title"; "description"; "keywords"]
  /\ (exists t d k : string,
        m = [("title", PStr t); ("description", PStr d); ("keywords", PStr k)])
  /\ (Bs4.find ["title"] Bs4.any_attrs soup = None ->
      PyDict.get "title" m = Some (PStr "No title"))
  /\ (forall key placeholder,
        (key, placeholder) ∈ [("description", "No description");
                               ("keywords", "No keywords")] ->
        match Bs4.find ["meta"] (Bs4.attr_is "name" key) soup with
        | None => PyDict.get key m = Some (PStr placeholder)
        | Some e =>
            PyDict.get key m
            = Some (PStr (default placeholder (Bs4.tag_attrs e !! "content")))
        end)
  /\ extract_metadata self None = [].
Proof.
  cbv zeta. unfold extract_metadata. cbn [PyDict.set String.eqb].
  split; [done|]. split; [by eexists _, _, _|]. split.
  - intros ->. done.
  - split; [|done]. intros key placeholder Hin.
    apply elem_of_cons in Hin as [Hin|Hin];
      [|apply elem_of_cons in Hin as [Hin|Hin]; [|by apply elem_of_nil in Hin]];
      inversion Hin; subst; clear Hin.
    + by destruct (Bs4.find ["meta"] (Bs4.attr_is "name" "description") soup).
    + by destruct (Bs4.find ["meta"] (Bs4.attr_is "name" "keywords") soup).
Qed.

(** C4, as stated, fails on the absent document: the dict returned for it
    has no key at all, so [title] is unbound. *)
Lemma metadata_of_absent_document_has_no_keys :
  PyDict.keys (extract_metadata Demo.scraper None) = []
  /\ PyDict.get "title" (extract_metadata Demo.scraper None) = None.
Proof. split; reflexivity. Qed.

(** C7.  Whatever the document and the value of [filter_internal], the
    list [extract_links] returns holds no URL twice. *)
Theorem extract_links_no_duplicates (self : WebScraper) (soup : option node)
    (filter_internal : bool) (links : list string) :
  extract_links self soup filter_internal = Ok links -> NoDup links.
Proof.
  destruct soup as [soup|]; intros Hl.
  - apply extract_links_inv in Hl as (l & _ & ->). apply NoDup_elements.
  - inversion Hl. constructor.
Qed.

(** C6.  With [filter_internal] true, every URL that [extract_links]
    returns has the netloc of the base URL (the scheme and the path play no
    part in the comparison); and on the same document the call with
    [filter_internal] false returns as well, and returns every URL of the
    internal list. *)
Theorem internal_links_share_netloc (self : WebScraper) (soup : option node)
    (internal : list string) :
  extract_links self soup true = Ok internal ->
  (forall u, u ∈ internal -> same_netloc self u)
  /\ exists all,
       extract_links self soup false = Ok all
       /\ forall u, u ∈ internal -> u ∈ all.
Proof.
  destruct soup as [soup|]; intros Hl.
  - apply extract_links_inv in Hl as (l & Hr & ->). split.
    + intros u Hu. apply elem_of_elements, elem_of_list_to_set in Hu.
      pose proof (rfold_links_internal _ _ _ _ Hr (Forall_nil_2 _)) as Hall.
      rewrite Forall_forall in Hall. by apply Hall.
    + destruct (rfold_links_superset self _ [] [] l Hr) as (lf & Hf & Hsub);
        [done|].
      exists (elements (list_to_set lf : gset string)). split.
      * unfold extract_links. by rewrite Hf.
      * intros u Hu. apply elem_of_elements, elem_of_list_to_set in Hu.
        apply elem_of_elements, elem_of_list_to_set. by apply Hsub.
  - inversion Hl; subst. split; [by intros u Hu; apply elem_of_nil in Hu|].
    exists []. split; [done|]. by intros u Hu.
Qed.

End ExtractorFacts.

(* ===================================================================== *)
(** * Properties of insertion-ordered dicts                               *)
(* ===================================================================== *)

Section DictFacts.

Lemma dict_get_set_eq k v d : PyDict.get k (PyDict.set k v d) = Some v.
Proof.
  induction d as [|[k' v'] d IH]; simpl.
  - by rewrite String.eqb_refl.
  - destruct (String.eqb k k') eqn:Hk; simpl; rewrite Hk; [done | exact IH].
Qed.

Lemma dict_get_set_ne k k' v d :
  k <> k' -> PyDict.get k (PyDict.set k' v d) = PyDict.get k d.
Proof.
  intros Hne. induction d as [|[k0 v0] d IH]; simpl.
  - by apply String.eqb_neq in Hne as ->.
  - destruct (String.eqb k' k0) eqn:Hk; simpl.
    + apply String.eqb_eq in Hk as ->. by apply String.eqb_neq in Hne as ->.
    + by rewrite IH.
Qed.

Lemma dict_keys_set k v d :
  PyDict.keys (PyDict.set k v d)
  = if bool_decide (k ∈ PyDict.keys d) then PyDict.keys d
    else PyDict.keys d ++ [k].
Proof.
  unfold PyDict.keys. induction d as [|[k' v'] d IH]; simpl; [done|].
  destruct (String.eqb k k') eqn:Hk; simpl.
  - apply String.eqb_eq in Hk as ->.
    rewrite bool_decide_eq_true_2; [done | by left].
  - apply String.eqb_neq in Hk. rewrite IH.
    destruct (bool_decide (k ∈ map fst d)) eqn:Hd.
    + apply bool_decide_eq_true in Hd.
      rewrite bool_decide_eq_true_2; [done | by right].
    + apply bool_decide_eq_false in Hd.
      rewrite bool_decide_eq_false_2; [done|].
      intros Hin. apply elem_of_cons in Hin as [?|?]; done.
Qed.

Lemma dict_set_fresh k v d :
  k ∉ PyDict.keys d -> PyDict.set k v d = d ++ [(k, v)].
Proof.
  unfold PyDict.keys. induction d as [|[k' v'] d IH]; simpl; intros Hk; [done|].
  apply not_elem_of_cons in Hk as [Hne Hk].
  apply String.eqb_neq in Hne as ->. by rewrite IH.
Qed.

Lemma insert_all_keys pairs : forall d k,
  k ∈ PyDict.keys (insert_all pairs d)
  <-> k ∈ PyDict.keys d \/ k ∈ map fst pairs.
Proof.
  induction pairs as [|[k0 v0] pairs IH]; intros d k; simpl.
  - split; [by left | intros [?|Hin]; [done | by apply elem_of_nil in Hin]].
  - rewrite IH, dict_keys_set. simpl.
    destruct (bool_decide (k0 ∈ PyDict.keys d)) eqn:Hd.
    + apply bool_decide_eq_true in Hd. rewrite elem_of_cons.
      split; [intros [?|?]; auto | intros [?|[->|?]]; auto].
    + rewrite elem_of_app, list_elem_of_singleton, elem_of_cons.
      split; [intros [[?|?]|?]; auto | intros [?|[?|?]]; auto].
Qed.

Lemma insert_all_NoDup pairs : forall d,
  NoDup (PyDict.keys d) -> NoDup (PyDict.keys (insert_all pairs d)).
Proof.
  induction pairs as [|[k0 v0] pairs IH]; intros d Hd; simpl; [done|].
  apply IH. rewrite dict_keys_set. simpl.
  destruct (bool_decide (k0 ∈ PyDict.keys d)) eqn:Hk; [done|].
  apply bool_decide_eq_false in Hk. apply NoDup_app. split; [done|].
  split; [|apply NoDup_singleton].
  intros x Hx Hx'. apply list_elem_of_singleton in Hx'. by subst.
Qed.

Lemma insert_all_get_other pairs : forall d k,
  k ∉ map fst pairs ->
  PyDict.get k (insert_all pairs d) = PyDict.get k d.
Proof.
  induction pairs as [|[k0 v0] pairs IH]; intros d k Hk; simpl; [done|].
  simpl in Hk. apply not_elem_of_cons in Hk as [Hne Hk].
  rewrite IH by done. by apply dict_get_set_ne.
Qed.

(** a pair whose key does not come again later decides the value *)
Lemma insert_all_get_last pairs1 k v pairs2 d :
  k ∉ map fst pairs2 ->
  PyDict.get k (insert_all (pairs1 ++ (k, v) :: pairs2) d) = Some v.
Proof.
  intros Hk. unfold insert_all. rewrite fold_left_app. simpl.
  fold (insert_all pairs2
          (PyDict.set k v
             (fold_left (fun d kv => PyDict.set (fst kv) (snd kv) d) pairs1 d))).
  rewrite insert_all_get_other by done. apply dict_get_set_eq.
Qed.

Lemma insert_all_fresh pairs : forall d,
  NoDup (PyDict.keys d ++ map fst pairs) -> insert_all pairs d = d ++ pairs.
Proof.
  induction pairs as [|[k0 v0] pairs IH]; intros d Hd; simpl.
  - by rewrite app_nil_r.
  - simpl in Hd. rewrite dict_set_fresh.
    + rewrite IH; [by rewrite <- app_assoc|].
      unfold PyDict.keys. rewrite map_app. simpl. by rewrite <- app_assoc.
    + apply NoDup_app in Hd as (_ & Hd & _). intros Hin.
      apply (Hd _ Hin). by left.
Qed.

Lemma insert_all_get_in pairs : forall d k v,
  PyDict.get k (insert_all pairs d) = Some v ->
  PyDict.get k d = Some v \/ (k, v) ∈ pairs.
Proof.
  induction pairs as [|[k0 v0] pairs IH]; intros d k v Hget; simpl in *;
    [by left|].
  destruct (IH _ _ _ Hget) as [Hd|Hin]; [|right; by right].
  destruct (decide (k = k0)) as [->|Hne].
  - rewrite dict_get_set_eq in Hd. inversion Hd; subst. right. by left.
  - rewrite dict_get_set_ne in Hd by done. by left.
Qed.

Lemma zip_elem_of {A B} (a : list A) : forall (b : list B) x y,
  (x, y) ∈ zip a b -> x ∈ a /\ y ∈ b.
Proof.
  induction a as [|x0 a IH]; intros [|y0 b] x y Hin; simpl in Hin;
    try (by apply elem_of_nil in Hin).
  apply elem_of_cons in Hin as [Heq|Hin].
  - inversion Heq; subst. split; by left.
  - destruct (IH _ _ _ Hin). split; by right.
Qed.

Lemma zip_fst {A B} (a : list A) : forall (b : list B),
  map fst (zip a b) = take (Nat.min (length a) (length b)) a.
Proof.
  induction a as [|x a IH]; intros [|y b]; simpl; try done.
  by rewrite IH.
Qed.

Lemma zip_lookup {A B} (a : list A) : forall (b : list B) i x y,
  a !! i = Some x -> b !! i = Some y ->
  exists l1 l2,
    zip a b = l1 ++ (x, y) :: l2
    /\ map fst l2 = drop (S i) (take (Nat.min (length a) (length b)) a).
Proof.
  induction a as [|x0 a IH]; intros [|y0 b] i x y Ha Hb; try done.
  destruct i as [|i]; simpl in *.
  - inversion Ha; inversion Hb; subst. exists [], (zip a b).
    split; [done|]. apply zip_fst.
  - destruct (IH b i x y Ha Hb) as (l1 & l2 & Hz & Hl2).
    exists ((x0, y0) :: l1), l2. split; [by rewrite Hz | done].
Qed.

End DictFacts.

(* ===================================================================== *)
(** * Properties of [scrape_table]                                        *)
(* ===================================================================== *)

Section TableFacts.
Context `{Web}.

Lemma scrape_table_found (self : WebScraper) url idx (w w1 : World) soup table :
  fetch_page self url w = (Ok (Some soup), w1) ->
  (idx < Z.of_nat (length (Bs4.find_all ["table"] Bs4.any_attrs soup)))%Z ->
  py_index (Bs4.find_all ["table"] Bs4.any_attrs soup) idx = Ok table ->
  scrape_table self url idx w
  = (Ok (fold_left (table_row_step (table_headers table))
                   (table_data_rows table) []), w1).
Proof.
  intros Hfetch Hlt Hidx. unfold scrape_table, mbind, py_mbind, py_bind.
  rewrite Hfetch.
  destruct (Bs4.find_all ["table"] Bs4.any_attrs soup) as [|t0 ts] eqn:Hts.
  - unfold py_index in Hidx. cbn [length lookup list_lookup] in Hidx.
    destruct (_ && _) in Hidx; [done|]. by destruct (_ || _) in Hidx.
  - rewrite bool_decide_eq_false_2 by done.
    replace (Z.of_nat (length (t0 :: ts)) <=? idx)%Z with false by lia.
    simpl. unfold py_lift. rewrite Hidx. reflexivity.
Qed.

Lemma fold_table_rows_app headers rows : forall acc,
  fold_left (table_row_step headers) rows acc
  = acc ++ fold_left (table_row_step headers) rows [].
Proof.
  induction rows as [|row rows IH]; intros acc; simpl.
  - by rewrite app_nil_r.
  - rewrite (IH (table_row_step headers acc row)),
            (IH (table_row_step headers [] row)).
    unfold table_row_step.
    destruct (row_cells ["td"; "th"] row), headers;
      simpl; rewrite ?app_nil_r, <- ?app_assoc; done.
Qed.

Lemma fold_table_rows_with_headers h headers rows :
  fold_left (table_row_step (h :: headers)) rows []
  = map (fun cells => PyDict.of_pairs (zip (h :: headers) (map PStr cells)))
        (List.filter (fun cells => negb (bool_decide (cells = [])))
                     (map (row_cells ["td"; "th"]) rows)).
Proof.
  induction rows as [|row rows IH]; [done|].
  cbn [fold_left map List.filter]. rewrite fold_table_rows_app, IH.
  unfold table_row_step at 1.
  destruct (row_cells ["td"; "th"] row) as [|c cells]; [done|].
  by rewrite bool_decide_eq_false_2.
Qed.

Lemma fold_table_rows_skip headers pre row post :
  row_cells ["td"; "th"] row = [] ->
  fold_left (table_row_step headers) (pre ++ row :: post) []
  = fold_left (table_row_step headers) (pre ++ post) [].
Proof.
  intros Hrow. rewrite !fold_left_app. cbn [fold_left].
  unfold table_row_step at 2. by rewrite Hrow.
Qed.

Lemma fold_table_rows_length headers rows :
  length (fold_left (table_row_step headers) rows [])
  = length (List.filter (fun row => negb (bool_decide
                                            (row_cells ["td"; "th"] row = [])))
                        rows).
Proof.
  induction rows as [|row rows IH]; [done|].
  cbn [fold_left List.filter]. rewrite fold_table_rows_app, length_app, IH.
  unfold table_row_step.
  destruct (row_cells ["td"; "th"] row) as [|c cells]; [done|].
  rewrite bool_decide_eq_false_2 by done. by destruct headers.
Qed.

Lemma fold_table_rows_nonempty headers rows m :
  m ∈ fold_left (table_row_step headers) rows [] ->
  m <> [] /\ m <> [("data", PList [])].
Proof.
  induction rows as [|row rows IH]; cbn [fold_left].
  - by intros Hm%elem_of_nil.
  - rewrite fold_table_rows_app. intros [Hm|Hm]%elem_of_app; [|by apply IH].
    unfold table_row_step in Hm.
    destruct (row_cells ["td"; "th"] row) as [|c cells];
      [by apply elem_of_nil in Hm|].
    destruct headers as [|h headers];
      apply list_elem_of_singleton in Hm; subst m; [done|].
    split; intros Hm.
    + assert (Hk : h ∈ PyDict.keys
                         (PyDict.of_pairs
                            (zip (h :: headers) (map PStr (c :: cells))))).
      { apply (insert_all_keys _ []). right. simpl. by left. }
      rewrite Hm in Hk. by apply elem_of_nil in Hk.
    + assert (Hget : PyDict.get "data"
                       (PyDict.of_pairs
                          (zip (h :: headers) (map PStr (c :: cells))))
                     = Some (PList [])) by (by rewrite Hm).
      apply (insert_all_get_in _ []) in Hget as [Hget|Hin]; [done|].
      apply zip_elem_of in Hin as [_ Hin].
      change (map PStr (c :: cells)) with (PStr <$> c :: cells) in Hin.
      apply list_elem_of_fmap in Hin as (? & ? & _). done.
Qed.

(** C5.  When the table at the requested index has a first row with cells,
    those cell texts are the headers, and [scrape_table] returns one dict
    per data row that has cells, built by [dict(zip(headers, cells))]: the
    keys are the first [min(len(headers), len(cells))] headers, a header at
    position [i] is bound to the cell at position [i] (unless the same
    header text comes again, in which case the later position decides),
    and headers or cells beyond the shorter length are dropped.  With
    distinct headers the dict is exactly the list of positional pairs. *)
Theorem table_rows_pair_headers_with_cells (self : WebScraper) (url : string)
    (idx : Z) (w w1 : World) (soup table : node) (headers : list string) :
  fetch_page self url w = (Ok (Some soup), w1) ->
  (idx < Z.of_nat (length (Bs4.find_all ["table"] Bs4.any_attrs soup)))%Z ->
  py_index (Bs4.find_all ["table"] Bs4.any_attrs soup) idx = Ok table ->
  table_headers table = headers ->
  headers <> [] ->
  scrape_table self url idx w
  = (Ok (map (fun cells => PyDict.of_pairs (zip headers (map PStr cells)))
             (table_data_cells table)), w1)
  /\ forall cells,
       let m := PyDict.of_pairs (zip headers (map PStr cells)) in
       let n := Nat.min (length headers) (length cells) in
       (forall k, k ∈ PyDict.keys m <-> k ∈ take n headers)
       /\ NoDup (PyDict.keys m)
       /\ (forall i h c,
             headers !! i = Some h -> cells !! i = Some c ->
             h ∉ drop (S i) (take n headers) ->
             PyDict.get h m = Some (PStr c))
       /\ (NoDup headers -> m = zip headers (map PStr cells)).
Proof.
  intros Hfetch Hlt Hidx Hh Hne. split.
  - rewrite (scrape_table_found _ _ _ _ _ _ _ Hfetch Hlt Hidx), Hh.
    destruct headers as [|h headers]; [done|].
    by rewrite fold_table_rows_with_headers.
  - intros cells m n. subst m n.
    assert (Hlen : length (map PStr cells) = length cells)
      by apply length_map.
    repeat split.
    + intros Hk. apply (insert_all_keys _ []) in Hk as [Hk|Hk];
        [by apply elem_of_nil in Hk|].
      by rewrite zip_fst, Hlen in Hk.
    + intros Hk. apply (insert_all_keys _ []). right.
      by rewrite zip_fst, Hlen.
    + apply (insert_all_NoDup _ []). constructor.
    + intros i h c Hi Hc Hlast.
      assert (Hc' : map PStr cells !! i = Some (PStr c)).
      { change (map PStr cells) with (PStr <$> cells).
        by rewrite list_lookup_fmap, Hc. }
      destruct (zip_lookup _ _ _ _ _ Hi Hc') as (l1 & l2 & Hz & Hl2).
      unfold PyDict.of_pairs. rewrite Hz.
      apply (insert_all_get_last l1 h (PStr c) l2 []).
      by rewrite Hl2, Hlen.
    + intros Hnd. apply (insert_all_fresh _ []). simpl.
      rewrite zip_fst. eapply sublist_NoDup; [done | apply sublist_take].
Qed.

(** C10.  When the page is fetched and the table exists, a data row
    without any [td] or [th] cell adds nothing to the result: dropping the
    row from the table leaves the result as it is, no returned dict is
    empty or is [{'data': []}], and the result has as many entries as
    there are data rows with a cell, hence fewer entries than data rows as
    soon as one data row has no cell. *)
Theorem rows_without_cells_are_omitted (self : WebScraper) (url : string)
    (idx : Z) (w w1 : World) (soup table : node) :
  fetch_page self url w = (Ok (Some soup), w1) ->
  (idx < Z.of_nat (length (Bs4.find_all ["table"] Bs4.any_attrs soup)))%Z ->
  py_index (Bs4.find_all ["table"] Bs4.any_attrs soup) idx = Ok table ->
  exists rows,
    scrape_table self url idx w = (Ok rows, w1)
    /\ (forall pre row post,
          table_data_rows table = pre ++ row :: post ->
          row_cells ["td"; "th"] row = [] ->
          rows = fold_left (table_row_step (table_headers table))
                           (pre ++ post) [])
    /\ (forall m, m ∈ rows -> m <> [] /\ m <> [("data", PList [])])
    /\ length rows = length (table_data_cells table)
    /\ length rows <= length (table_data_rows table)
    /\ (Exists (fun row => row_cells ["td"; "th"] row = [])
               (table_data_rows table) ->
        length rows < length (table_data_rows table)).
Proof.
  intros Hfetch Hlt Hidx. eexists. split.
  { exact (scrape_table_found _ _ _ _ _ _ _ Hfetch Hlt Hidx). }
  split; [|split; [|split; [|split]]].
  - intros pre row post -> Hrow. by apply fold_table_rows_skip.
  - intros m. apply fold_table_rows_nonempty.
  - rewrite fold_table_rows_length. unfold table_data_cells.
    induction (table_data_rows table) as [|row rows IH]; [done|].
    cbn [map List.filter].
    destruct (bool_decide (row_cells ["td"; "th"] row = [])); simpl;
      by rewrite IH.
  - rewrite fold_table_rows_length. apply List.filter_length_le.
  - rewrite fold_table_rows_length.
    induction 1 as [row rows Hrow|row rows _ IH]; cbn [List.filter length].
    + rewrite bool_decide_eq_true_2 by done. simpl.
      pose proof (List.filter_length_le
                    (fun row => negb (bool_decide
                                        (row_cells ["td"; "th"] row = [])))
                    rows). lia.
    + destruct (negb _); simpl; lia.
Qed.

End TableFacts.

(* ===================================================================== *)
(** * Properties of [fetch_page]                                          *)
(* ===================================================================== *)

Section FetchFacts.
Context `{Web}.

(** the test of [raise_for_status], as one test on the status *)
Lemma raise_for_status_run (r : Response) (w : World) :
  raise_for_status r w
  = if (400 <=? status_code r)%Z && (status_code r <? 600)%Z
    then (Raise (Exn HTTPError (http_error_message r)), w)
    else (Ok tt, w).
Proof.
  unfold raise_for_status, http_error_message, py_raise, py_ret.
  destruct (400 <=? status_code r)%Z eqn:H4;
    destruct (status_code r <? 500)%Z eqn:H5;
    destruct (500 <=? status_code r)%Z eqn:H6;
    destruct (status_code r <? 600)%Z eqn:H7; simpl; try reflexivity; lia.
Qed.

(** [fetch_page], step by step *)
Lemma fetch_page_run (self : WebScraper) url (w : World) :
  fetch_page self url w
  = let fetching := stdout w ++ ["Fetching: " +:+ url] in
    let caught e n s :=
      if isinstance_RequestException e
      then (Ok None,
            mkWorld n (fetching ++ ["Error fetching " +:+ url +:+ ": "
                                    +:+ exn_msg e]) s (heap w) (fs w))
      else (Raise e, mkWorld n fetching s (heap w) (fs w)) in
    match session_get url (net w) with
    | (Raise e, n) => caught e n (slept w)
    | (Ok response, n) =>
        if (400 <=? status_code response)%Z && (status_code response <? 600)%Z
        then caught (Exn HTTPError (http_error_message response)) n (slept w)
        else if (delay self <? - max_sleep)%Z || (max_sleep <? delay self)%Z
        then (Raise (Exn OverflowError
                         "timestamp too large to convert to C _PyTime_t"),
              mkWorld n fetching (slept w) (heap w) (fs w))
        else if (delay self <? 0)%Z
        then (Raise (Exn ValueError "sleep length must be non-negative"),
              mkWorld n fetching (slept w) (heap w) (fs w))
        else
          match html_parser (content response) with
          | Ok soup =>
              (Ok (Some soup),
               mkWorld n fetching (slept w + delay self) (heap w) (fs w))
          | Raise e =>
              (Raise e,
               mkWorld n fetching (slept w + delay self) (heap w) (fs w))
          end
    end.
Proof.
  unfold fetch_page, try_except, mbind, py_mbind, py_bind.
  unfold print at 1. unfold get. cbn [net stdout slept heap fs].
  destruct (session_get url (net w)) as [[response|e] n]; cbn beta iota zeta.
  - rewrite raise_for_status_run.
    destruct ((400 <=? status_code response)%Z
              && (status_code response <? 600)%Z).
    { by destruct (isinstance_RequestException (Exn HTTPError _)). }
    unfold sleep. cbn [net stdout slept heap fs].
    destruct ((delay self <? - max_sleep)%Z || (max_sleep <? delay self)%Z).
    { reflexivity. }
    destruct (delay self <? 0)%Z.
    { reflexivity. }
    unfold py_lift.
    destruct (html_parser (content response)) as [soup|e] eqn:Hparse.
    + reflexivity.
    + by rewrite (html_parser_raises _ _ Hparse).
  - by destruct (isinstance_RequestException e).
Qed.

(** [fetch_page] neither reads nor writes the heap and the files *)
Lemma fetch_page_heap (self : WebScraper) url (w w1 : World) r :
  fetch_page self url w = (r, w1) -> heap w1 = heap w /\ fs w1 = fs w.
Proof.
  rewrite fetch_page_run. cbn zeta.
  repeat match goal with
         | |- context [match ?x with _ => _ end] => destruct x
         | |- context [if ?b then _ else _] => destruct b
         end; by intros [= <- <-].
Qed.

(** C2, as the code has it.  [fetch_page] catches the request errors and
    nothing else.  It never raises a request error: when the transport
    raises one (a connection failure, a timeout and the like), or answers
    with a status from 400 to 599, the call returns [None] after printing
    the URL and the reason, which is the message of the transport's error
    or the line that [raise_for_status] makes of the status; the delay is
    not waited for.  For any other answer the call returns the document
    parsed from the body, provided that [time.sleep] accepts the delay and
    the parser the body.  What is raised otherwise (by the transport, by
    [time.sleep], by the parser) and is no request error passes
    through. *)
Theorem fetch_page_converts_request_errors (self : WebScraper)
    (url : string) (w : World) :
  (forall e w', fetch_page self url w = (Raise e, w') ->
                isinstance_RequestException e = false)
  /\ match session_get url (net w) with
     | (Raise e, n) =>
         (isinstance_RequestException e = true ->
          fetch_page self url w
          = (Ok None,
             mkWorld n (stdout w ++ ["Fetching: " +:+ url;
                                     "Error fetching " +:+ url +:+ ": "
                                     +:+ exn_msg e])
                     (slept w) (heap w) (fs w)))
         /\ (isinstance_RequestException e = false ->
             fetch_page self url w
             = (Raise e,
                mkWorld n (stdout w ++ ["Fetching: " +:+ url])
                        (slept w) (heap w) (fs w)))
     | (Ok response, n) =>
         ((400 <= status_code response < 600)%Z ->
          fetch_page self url w
          = (Ok None,
             mkWorld n (stdout w ++ ["Fetching: " +:+ url;
                                     "Error fetching " +:+ url +:+ ": "
                                     +:+ http_error_message response])
                     (slept w) (heap w) (fs w)))
         /\ (forall soup,
               (status_code response < 400 \/ 600 <= status_code response)%Z ->
               (0 <= delay self <= max_sleep)%Z ->
               html_parser (content response) = Ok soup ->
               fetch_page self url w
               = (Ok (Some soup),
                  mkWorld n (stdout w ++ ["Fetching: " +:+ url])
                          (slept w + delay self) (heap w) (fs w)))
     end.
Proof.
  split.
  - intros e w'. rewrite fetch_page_run. cbn zeta.
    destruct (session_get url (net w)) as [[response|e0] n].
    + destruct ((400 <=? status_code response)%Z
                && (status_code response <? 600)%Z); [done|].
      destruct ((delay self <? - max_sleep)%Z || (max_sleep <? delay self)%Z);
        [by intros [= <- <-]|].
      destruct (delay self <? 0)%Z; [by intros [= <- <-]|].
      destruct (html_parser (content response)) as [soup|e1] eqn:Hparse;
        [done|].
      intros [= <- <-]. exact (html_parser_raises _ _ Hparse).
    + destruct (isinstance_RequestException e0) eqn:He; [done|].
      by intros [= <- <-].
  - rewrite fetch_page_run. cbn zeta.
    destruct (session_get url (net w)) as [[response|e] n].
    + split.
      * intros Hstatus.
        replace ((400 <=? status_code response)%Z
                 && (status_code response <? 600)%Z) with true by lia.
        cbn. by rewrite <- app_assoc.
      * intros soup Hstatus Hdelay ->.
        replace ((400 <=? status_code response)%Z
                 && (status_code response <? 600)%Z) with false by lia.
        replace ((delay self <? - max_sleep)%Z || (max_sleep <? delay self)%Z)
          with false by (unfold max_sleep in *; lia).
        by replace (delay self <? 0)%Z with false by lia.
    + split; intros ->; [|done]. by rewrite <- app_assoc.
Qed.

End FetchFacts.

(* ===================================================================== *)
(** * Properties of [scrape_multiple_pages]                               *)
(* ===================================================================== *)

Section MultiPageFacts.
Context `{Web} `{Urllib.Tables}.

Lemma py_fold_cons {A B} (f : B -> A -> Py B) acc x l (w : World) :
  py_fold f acc (x :: l) w
  = match f acc x w with
    | (Ok acc', w') => py_fold f acc' l w'
    | (Raise e, w') => (Raise e, w')
    end.
Proof. reflexivity. Qed.

Lemma scrape_step_none (self : WebScraper) extract_func all_data url
    (w w1 : World) :
  fetch_page self url w = (Ok None, w1) ->
  scrape_step self extract_func all_data url w = (Ok all_data, w1).
Proof.
  intros Hfetch. unfold scrape_step, mbind, py_mbind, py_bind.
  by rewrite Hfetch.
Qed.

(** one pass through the loop, step by step *)
Lemma scrape_step_cases (self : WebScraper) extract_func all_data url
    (w : World) :
  scrape_step self extract_func all_data url w
  = match fetch_page self url w with
    | (Ok (Some soup), w1) =>
        match extract_func soup w1 with
        | (Ok data, w2) =>
            match setitem data "url" (PStr url) w2 with
            | (Ok _, w3) => (Ok (all_data ++ [data]), w3)
            | (Raise e, w3) => (Raise e, w3)
            end
        | (Raise e, w2) => (Raise e, w2)
        end
    | (Ok None, w1) => (Ok all_data, w1)
    | (Raise e, w1) => (Raise e, w1)
    end.
Proof.
  unfold scrape_step, mbind, py_mbind, py_bind.
  by destruct (fetch_page self url w) as [[[soup|]|e] w1].
Qed.

(** the loop returns exactly on the runs in which nothing raises *)
Lemma scrape_fold_visited (self : WebScraper) extract_func urls :
  forall acc (w w' : World) all_data,
    py_fold (scrape_step self extract_func) acc urls w = (Ok all_data, w')
    <-> exists pages,
          visited self extract_func w urls pages w'
          /\ all_data = acc ++ map snd pages.
Proof.
  induction urls as [|url urls IH]; intros acc w w' all_data.
  - simpl. unfold py_ret. split.
    + intros [= <- <-]. exists []. split; [constructor|by rewrite app_nil_r].
    + intros (pages & Hrun & ->). inversion Hrun; subst.
      by rewrite app_nil_r.
  - rewrite py_fold_cons, scrape_step_cases. split.
    + destruct (fetch_page self url w) as [[[soup|]|e] w1] eqn:Hfetch;
        [| |done].
      * destruct (extract_func soup w1) as [[data|e] w2] eqn:Hdata; [|done].
        destruct (setitem data "url" (PStr url) w2) as [[[]|e] w3] eqn:Hset;
          [|done].
        intros (pages & Hrun & ->)%IH. exists ((url, data) :: pages).
        split; [by econstructor|]. by rewrite <- app_assoc.
      * intros (pages & Hrun & ->)%IH. exists pages.
        split; [by econstructor|done].
    + intros (pages & Hrun & ->). inversion Hrun as [|? ? ? ? ? ? Hfetch Hrest
        |? ? ? ? ? ? ? ? ? ? Hfetch Hdata Hset Hrest]; subst.
      * rewrite Hfetch. apply IH. by exists pages.
      * rewrite Hfetch, Hdata, Hset. apply IH. eexists.
        split; [exact Hrest|]. cbn [map snd]. by rewrite <- app_assoc.
Qed.

Lemma tagged_setitem (w w' : World) l url :
  setitem l "url" (PStr url) w = (Ok tt, w') ->
  tagged w' l url
  /\ forall l0 url0, l0 <> l -> tagged w l0 url0 -> tagged w' l0 url0.
Proof.
  unfold setitem. destruct (heap w !! l) as [d|]; [|done].
  intros [= <-]. unfold tagged. cbn [heap]. split.
  - eexists. split; [apply lookup_insert_eq|]. apply dict_get_set_eq.
  - intros l0 url0 Hne (d0 & Hd0 & Hurl). exists d0.
    by rewrite lookup_insert_ne.
Qed.

Lemma tagged_fetch_page (self : WebScraper) url (w w' : World) r l0 url0 :
  fetch_page self url w = (r, w') -> tagged w l0 url0 -> tagged w' l0 url0.
Proof.
  intros [Hheap _]%fetch_page_heap. unfold tagged. by rewrite Hheap.
Qed.

(** the records of a run keep their tags, and no record is handed out
    twice *)
Lemma visited_tagged (self : WebScraper) extract_func
    (w w' : World) urls pages :
  keeps_tags extract_func ->
  visited self extract_func w urls pages w' ->
  forall done : list (string * loc),
    Forall (fun page => tagged w (snd page) (fst page)) done ->
    Forall (fun page => tagged w' (snd page) (fst page)) (done ++ pages)
    /\ NoDup (map snd pages)
    /\ Forall (fun page => snd page ∉ map snd done) pages.
Proof.
  intros Hkeeps Hrun.
  induction Hrun as [w|w url w1 urls pages w' Hfetch Hrun IH
                    |w url soup w1 data w2 w3 urls pages w' Hfetch Hdata Hset
                       Hrun IH]; intros done Hdone.
  - rewrite app_nil_r. repeat split; [done|constructor|constructor].
  - apply IH. eapply Forall_impl; [exact Hdone|].
    intros page Hpage. exact (tagged_fetch_page _ _ _ _ _ _ _ Hfetch Hpage).
  - destruct (tagged_setitem _ _ _ _ Hset) as [Hnew Hold].
    assert (Hdone2 : Forall (fun page => snd page <> data
                                         /\ tagged w2 (snd page) (fst page))
                            done).
    { eapply Forall_impl; [exact Hdone|]. intros page Hpage.
      apply (Hkeeps soup w1 w2 data Hdata).
      exact (tagged_fetch_page _ _ _ _ _ _ _ Hfetch Hpage). }
    assert (Hdone3 : Forall (fun page => tagged w3 (snd page) (fst page))
                            (done ++ [(url, data)])).
    { apply Forall_app. split.
      - eapply Forall_impl; [exact Hdone2|]. intros page [Hne Hpage].
        by apply Hold.
      - by repeat constructor. }
    destruct (IH _ Hdone3) as (Hall & Hnd & Hnot).
    rewrite <- app_assoc in Hall. split; [exact Hall|]. split.
    + cbn [map snd]. constructor; [|done]. intros Hin.
      apply list_elem_of_fmap in Hin as (page & Heq & Hin).
      rewrite Forall_forall in Hnot. apply (Hnot page Hin).
      rewrite map_app. apply elem_of_app. right. rewrite <- Heq. by left.
    + constructor.
      * cbn [snd]. intros Hin.
        apply list_elem_of_fmap in Hin as (page & Heq & Hin).
        rewrite Forall_forall in Hdone2. by destruct (Hdone2 page Hin).
      * eapply Forall_impl; [exact Hnot|]. intros page Hpage Hin.
        apply Hpage. rewrite map_app. apply elem_of_app. by left.
Qed.

(** the URLs of the pages of a run are URLs of the list, in its order *)
Lemma visited_sublist (self : WebScraper) extract_func
    (w w' : World) urls pages :
  visited self extract_func w urls pages w' ->
  sublist (map fst pages) urls.
Proof.
  induction 1; [constructor|by constructor|by constructor].
Qed.

(** an extraction function that builds its record afresh leaves the
    records of other pages alone *)
Lemma keeps_tags_fresh (extract_func : node -> Py loc) :
  fresh_extractor extract_func -> keeps_tags extract_func.
Proof.
  intros Hfresh soup w w' l Hcall l0 url (d & Hd & Hurl).
  destruct (Hfresh soup w) as (l' & h' & Hcall' & Hnew & _ & Hkeep).
  rewrite Hcall in Hcall'. injection Hcall' as -> ->. split.
  - intros ->. congruence.
  - exists d. split; [by apply Hkeep|done].
Qed.

(** an extraction function that returns a dict display is fresh *)
Lemma fresh_extractor_new_dict (record : node -> pydict) :
  fresh_extractor (fun soup => new_dict (record soup)).
Proof.
  intros soup w. exists (fresh (dom (heap w))), (<[fresh (dom (heap w)) := record soup]> (heap w)).
  assert (Hfresh : heap w !! fresh (dom (heap w)) = None).
  { apply not_elem_of_dom. apply is_fresh. }
  split; [done|]. split; [done|].
  split; [rewrite lookup_insert_eq; by eexists|].
  intros l0 d Hl0. rewrite lookup_insert_ne; [done|]. intros <-. congruence.
Qed.

(** a dict display leaves the records that exist alone *)
Lemma new_dict_keeps_tags (d : pydict) (w w' : World) l :
  new_dict d w = (Ok l, w') ->
  forall l0 url, tagged w l0 url -> l0 <> l /\ tagged w' l0 url.
Proof.
  unfold new_dict. intros [= <- <-] l0 url (d0 & Hd0 & Hurl).
  assert (Hfresh : heap w !! fresh (dom (heap w)) = None).
  { apply not_elem_of_dom. apply is_fresh. }
  split; [intros ->; congruence|]. exists d0. cbn [heap with_heap].
  split; [|done]. rewrite lookup_insert_ne; [done|]. intros <-. congruence.
Qed.

(** An extraction function that does what it likes outside the heap (it
    may print, wait, fetch or raise) and then returns a dict display
    leaves the records of other pages alone. *)
Lemma keeps_tags_new_dict {A} (compute : node -> Py A)
    (record : node -> A -> pydict) :
  (forall soup (w w' : World) r, compute soup w = (r, w') -> heap w' = heap w) ->
  keeps_tags (fun soup => a ← compute soup; new_dict (record soup a)).
Proof.
  intros Hheap soup w w' l. unfold mbind, py_mbind, py_bind.
  destruct (compute soup w) as [[a|e] w1] eqn:Hcompute; [|done].
  intros Hnew l0 url (d0 & Hd0 & Hurl).
  apply (new_dict_keeps_tags _ _ _ _ Hnew). exists d0.
  by rewrite (Hheap _ _ _ _ Hcompute).
Qed.

(** so does the extraction function of the module's own example, which
    raises on a page with an image that does not resolve *)
Lemma keeps_tags_example_extract_data (scraper : WebScraper) :
  keeps_tags (example_extract_data scraper).
Proof.
  intros soup w w' l. unfold example_extract_data, mbind, py_mbind, py_bind,
    py_lift.
  destruct (dict_getitem _ "title") as [title|e]; [|done].
  destruct (extract_images scraper (Some soup)) as [images|e]; [|done].
  apply new_dict_keeps_tags.
Qed.

(** C1, as the code has it.  Let the extraction function leave the records
    of other pages alone.  [scrape_multiple_pages] returns exactly on the
    runs in which every fetch returns and the extraction function returns a
    dict for every document that arrives, and then with one reference for
    every URL whose fetch gave a document, in the order of the input and
    with nothing for the URLs that failed.  The records of such a run are
    distinct objects, and in the final world each carries the URL of its
    page in its [url] entry. *)
Theorem scrape_multiple_pages_keeps_fetched_pages (self : WebScraper)
    (urls : list string) (extract_func : node -> Py loc) (w : World) :
  keeps_tags extract_func ->
  (forall refs w',
     scrape_multiple_pages self urls extract_func w = (Ok refs, w')
     <-> exists pages,
           visited self extract_func w urls pages w' /\ refs = map snd pages)
  /\ (forall pages w',
        visited self extract_func w urls pages w' ->
        sublist (map fst pages) urls
        /\ NoDup (map snd pages)
        /\ Forall (fun page => tagged w' (snd page) (fst page)) pages
        /\ map (fun l => d ← heap w' !! l; PyDict.get "url" d) (map snd pages)
           = map (fun page => Some (PStr (fst page))) pages).
Proof.
  intros Hkeeps. split.
  - intros refs w'. unfold scrape_multiple_pages.
    by rewrite scrape_fold_visited.
  - intros pages w' Hrun.
    destruct (visited_tagged _ _ _ _ _ _ Hkeeps Hrun [])
      as (Hall & Hnd & _); [constructor|].
    split; [by eapply visited_sublist|]. split; [done|].
    split; [done|]. clear Hrun Hnd.
    induction pages as [|page pages IH]; [done|].
    apply Forall_cons in Hall as [(d & Hd & Hurl) Hall].
    cbn [map]. rewrite IH by done. rewrite Hd. simpl. by rewrite Hurl.
Qed.

End MultiPageFacts.

(* ===================================================================== *)
(** * Properties of [save_to_csv]                                         *)
(* ===================================================================== *)

Section CsvFacts.
Context `{Web}.

Lemma dict_to_list_ok fieldnames rowdict :
  (forall key, key ∈ PyDict.keys rowdict -> key ∈ fieldnames) ->
  Csv._dict_to_list fieldnames rowdict
  = Ok (map (fun key => default (PStr "") (PyDict.get key rowdict)) fieldnames).
Proof.
  intros Hsub. unfold Csv._dict_to_list.
  replace (List.filter _ (PyDict.keys rowdict)) with (@nil string); [done|].
  symmetry. induction (PyDict.keys rowdict) as [|k ks IH]; [done|].
  simpl. rewrite bool_decide_eq_true_2 by (apply Hsub; by left). simpl.
  apply IH. intros key Hkey. apply Hsub. by right.
Qed.

Lemma writerow_ok fieldnames rowdict :
  (forall key, key ∈ PyDict.keys rowdict -> key ∈ fieldnames) ->
  Csv.writerow fieldnames rowdict = Ok (csv_line fieldnames rowdict).
Proof.
  intros Hsub. unfold Csv.writerow. rewrite dict_to_list_ok by done.
  simpl. unfold csv_line. by rewrite map_map.
Qed.

Lemma zip_with_image {A B} (f : A -> B) (l : list A) x y :
  (x, y) ∈ zip l (map f l) -> y = f x.
Proof.
  induction l as [|a l IH]; simpl; intros Hin; [by apply elem_of_nil in Hin|].
  apply elem_of_cons in Hin as [Heq|Hin]; [by inversion Heq | by apply IH].
Qed.

Lemma header_get fieldnames key :
  key ∈ fieldnames ->
  PyDict.get key (Csv.header fieldnames) = Some (PStr key).
Proof.
  intros Hin. unfold Csv.header.
  assert (Hk : key ∈ PyDict.keys
                       (PyDict.of_pairs (zip fieldnames (map PStr fieldnames)))).
  { apply (insert_all_keys _ []). right.
    rewrite zip_fst, length_map, Nat.min_id, firstn_all. done. }
  destruct (PyDict.get key _) as [v|] eqn:Hget.
  - apply (insert_all_get_in _ []) in Hget as [Hget|Hz]; [done|].
    by apply zip_with_image in Hz as ->.
  - exfalso. revert Hk Hget. generalize (PyDict.of_pairs
                                          (zip fieldnames (map PStr fieldnames))).
    intros d. unfold PyDict.keys. induction d as [|[k v] d IH]; simpl.
    + by intros Hk%elem_of_nil.
    + intros Hk. destruct (String.eqb key k) eqn:Heq; [done|].
      apply String.eqb_neq in Heq.
      apply elem_of_cons in Hk as [?|Hk]; [done | by apply IH].
Qed.

Lemma writeheader_ok fieldnames :
  Csv.writerow fieldnames (Csv.header fieldnames) = Ok (Csv.row fieldnames).
Proof.
  rewrite writerow_ok.
  - unfold csv_line. f_equal. f_equal.
    rewrite <- (map_id fieldnames) at 2. apply map_ext_in.
    intros key Hkey%list_elem_of_In. by rewrite header_get.
  - intros key Hkey. apply (insert_all_keys _ []) in Hkey as [Hkey|Hkey];
      [by apply elem_of_nil in Hkey|].
    by rewrite zip_fst, length_map, Nat.min_id, firstn_all in Hkey.
Qed.

Lemma bind_run {A B} (m : Py A) (k : A -> Py B) (w : World) :
  (m ≫= k) w
  = match m w with
    | (Ok a, w') => k a w'
    | (Raise e, w') => (Raise e, w')
    end.
Proof. reflexivity. Qed.

Lemma with_file_twice filename t1 t2 (w : World) :
  with_file filename t2 (with_file filename t1 w) = with_file filename t2 w.
Proof. unfold with_file. simpl. by rewrite insert_insert_eq. Qed.

Lemma with_file_same filename text (w : World) :
  files (fs w) !! filename = Some text -> with_file filename text w = w.
Proof.
  destruct w as [n o s h [fl oe]]. unfold with_file. simpl. intros Hf.
  by rewrite insert_id.
Qed.

Lemma write_rows fieldnames filename data : forall (w : World) text,
  files (fs w) !! filename = Some text ->
  (forall row key, row ∈ data -> key ∈ PyDict.keys row -> key ∈ fieldnames) ->
  py_fold
    (fun _ rowdict =>
       line ← py_lift (Csv.writerow fieldnames rowdict);
       write filename line)
    tt data w
  = (Ok tt,
     with_file filename
       (fold_left String.append (map (csv_line fieldnames) data) text) w).
Proof.
  induction data as [|row data IH]; intros w text Hfile Hsub.
  - simpl. by rewrite with_file_same.
  - rewrite py_fold_cons, bind_run. unfold py_lift.
    rewrite writerow_ok by (intros key; apply Hsub; by left).
    unfold write. rewrite Hfile. cbn [default].
    erewrite IH; [| by apply lookup_insert_eq
                  | intros r key Hr; apply Hsub; by right].
    cbn [map fold_left]. f_equal. unfold with_file. cbn.
    by rewrite insert_insert_eq.
Qed.


End CsvFacts.

(* ===================================================================== *)
(** * Properties of the string operations                                 *)
(* ===================================================================== *)

Module PyStrFacts.
Import PyStr.

Lemma eqc_true a b : eqc a b = true <-> a = b.
Proof. apply Ascii.eqb_eq. Qed.

Lemma eqc_false a b : eqc a b = false <-> a <> b.
Proof. apply Ascii.eqb_neq. Qed.

Lemma eqc_refl a : eqc a a = true.
Proof. by apply eqc_true. Qed.

Lemma eqs_true a b : eqs a b = true <-> a = b.
Proof. apply bool_decide_eq_true. Qed.

Lemma eqs_false a b : eqs a b = false <-> a <> b.
Proof. apply bool_decide_eq_false. Qed.

Lemma is_empty_true s : is_empty s = true <-> s = [].
Proof. by destruct s. Qed.

Lemma is_empty_false s : is_empty s = false <-> s <> [].
Proof. by destruct s. Qed.

Lemma contains_true c s : contains c s = true <-> c ∈ s.
Proof.
  unfold contains. induction s as [|x s IH]; simpl.
  - split; [done | by intros ?%elem_of_nil].
  - rewrite orb_true_iff, IH, eqc_true, elem_of_cons. done.
Qed.

Lemma contains_false c s : contains c s = false <-> c ∉ s.
Proof.
  rewrite <- contains_true. by destruct (contains c s).
Qed.

Lemma find_not_in c s : c ∉ s -> find c s = None.
Proof.
  induction s as [|x s IH]; simpl; [done|].
  intros [Hne Hs]%not_elem_of_cons. apply eqc_false in Hne as ->.
  by rewrite IH.
Qed.

Lemma find_None c s : find c s = None -> c ∉ s.
Proof.
  induction s as [|x s IH]; simpl; [intros _; apply not_elem_of_nil|].
  destruct (eqc c x) eqn:Hc; [done|]. apply eqc_false in Hc.
  destruct (find c s); [done|]. intros _.
  apply not_elem_of_cons. by split; [|apply IH].
Qed.

Lemma find_app c a b : c ∉ a -> find c (a ++ c :: b) = Some (length a).
Proof.
  induction a as [|x a IH]; simpl.
  - by rewrite eqc_refl.
  - intros [Hne Ha]%not_elem_of_cons. apply eqc_false in Hne as ->.
    by rewrite IH.
Qed.

Lemma find_app_l c a b i : find c a = Some i -> find c (a ++ b) = Some i.
Proof.
  revert i. induction a as [|x a IH]; simpl; intros i; [done|].
  destruct (eqc c x); [done|].
  destruct (find c a) as [j|]; [|done]. by rewrite (IH j).
Qed.

Lemma find_app_r c a b : c ∉ a ->
  find c (a ++ b) = (fun i => length a + i) <$> find c b.
Proof.
  induction a as [|x a IH]; simpl.
  - intros _. by destruct (find c b).
  - intros [Hne Ha]%not_elem_of_cons. apply eqc_false in Hne as ->.
    rewrite IH by done. by destruct (find c b).
Qed.

Lemma find_Some c s i :
  find c s = Some i ->
  (c ∉ take i s) /\ s = take i s ++ c :: drop (S i) s.
Proof.
  revert i. induction s as [|x s IH]; simpl; intros i; [done|].
  destruct (eqc c x) eqn:Hc.
  - intros [= <-]. apply eqc_true in Hc as ->. simpl.
    split; [apply not_elem_of_nil | done].
  - destruct (find c s) as [j|] eqn:Hf; [|done]. intros [= <-].
    destruct (IH j eq_refl) as [Hnot Heq]. apply eqc_false in Hc. simpl.
    split; [by apply not_elem_of_cons | by rewrite <- Heq].
Qed.

Lemma split1_app c a b : c ∉ a -> split1 c (a ++ c :: b) = Some (a, b).
Proof.
  induction a as [|x a IH]; simpl.
  - by rewrite eqc_refl.
  - intros [Hne Ha]%not_elem_of_cons. apply eqc_false in Hne as ->.
    by rewrite IH.
Qed.

Lemma split1_not_in c s : c ∉ s -> split1 c s = None.
Proof.
  induction s as [|x s IH]; simpl; [done|].
  intros [Hne Hs]%not_elem_of_cons. apply eqc_false in Hne as ->.
  by rewrite IH.
Qed.

Lemma split1_Some c s a b :
  split1 c s = Some (a, b) -> s = a ++ c :: b /\ c ∉ a.
Proof.
  revert a. induction s as [|x s IH]; simpl; intros a; [done|].
  destruct (eqc c x) eqn:Hc.
  - intros [= <- <-]. apply eqc_true in Hc as ->.
    split; [done | apply not_elem_of_nil].
  - destruct (split1 c s) as [[a' b']|]; [|done]. intros [= <- <-].
    destruct (IH a' eq_refl) as [-> Ha]. apply eqc_false in Hc.
    split; [done | by apply not_elem_of_cons].
Qed.

Lemma split1_None c s : split1 c s = None -> c ∉ s.
Proof.
  induction s as [|x s IH]; simpl; [intros _; apply not_elem_of_nil|].
  destruct (eqc c x) eqn:Hc; [done|]. apply eqc_false in Hc.
  destruct (split1 c s) as [[? ?]|]; [done|]. intros _.
  apply not_elem_of_cons. by split; [|apply IH].
Qed.

Lemma remove_id c s : c ∉ s -> remove c s = s.
Proof.
  unfold remove. induction s as [|x s IH]; simpl; [done|].
  intros [Hne Hs]%not_elem_of_cons. apply eqc_false in Hne as ->. simpl.
  by rewrite IH.
Qed.

Lemma elem_of_remove x c s : x ∈ remove c s <-> x ∈ s /\ x <> c.
Proof.
  unfold remove. rewrite list_elem_of_In, List.filter_In, <- list_elem_of_In.
  rewrite negb_true_iff, eqc_false. split; intros [? ?]; split; auto.
Qed.

Lemma lstrip_of_id p s :
  match s with x :: _ => p x = false | [] => True end -> lstrip_of p s = s.
Proof. destruct s as [|x s]; simpl; [done|]. by intros ->. Qed.

Lemma lstrip_of_head p s :
  match lstrip_of p s with x :: _ => p x = false | [] => True end.
Proof.
  induction s as [|x s IH]; simpl; [done|].
  destruct (p x) eqn:Hp; [done | by simpl].
Qed.

Lemma elem_of_lstrip p s x : x ∈ lstrip_of p s -> x ∈ s.
Proof.
  induction s as [|y s IH]; simpl; [done|].
  destruct (p y); [|done]. intros Hx. right. by apply IH.
Qed.

Lemma rstrip_of_id p s :
  match rev s with x :: _ => p x = false | [] => True end -> rstrip_of p s = s.
Proof.
  intros Hs. unfold rstrip_of. rewrite lstrip_of_id by done. apply rev_involutive.
Qed.

Lemma lower_char_fix c : is_upper c = false -> lower_char c = c.
Proof. unfold lower_char. by intros ->. Qed.

Lemma lower_id s : Forall (fun c => is_upper c = false) s -> lower s = s.
Proof.
  unfold lower. induction 1 as [|c s Hc _ IH]; simpl; [done|].
  by rewrite lower_char_fix, IH.
Qed.

Lemma take_while_app p a b :
  Forall (fun c => p c = true) a ->
  match b with x :: _ => p x = false | [] => True end ->
  take_while p (a ++ b) = a.
Proof.
  induction 1 as [|c a Hc _ IH]; simpl; intros Hb.
  - destruct b as [|x b]; simpl; [done | by rewrite Hb].
  - by rewrite Hc, IH.
Qed.

Lemma take_while_spec p s :
  Forall (fun c => p c = true) (take_while p s)
  /\ s = take_while p s ++ drop (length (take_while p s)) s
  /\ match drop (length (take_while p s)) s with
     | x :: _ => p x = false
     | [] => True
     end.
Proof.
  induction s as [|x s (IH1 & IH2 & IH3)]; simpl; [by repeat split|].
  destruct (p x) eqn:Hp; simpl.
  - split; [by constructor|]. split; [by rewrite <- IH2 | done].
  - by repeat split.
Qed.

End PyStrFacts.

(* ===================================================================== *)
(** * Properties of [urllib.parse]                                        *)
(* ===================================================================== *)

Module UrllibFacts.
Import PyStr PyStrFacts Urllib UrlForms.

Lemma drop_app_cons {A} (a : list A) c b : drop (S (length a)) (a ++ c :: b) = b.
Proof. induction a as [|x a IH]; simpl; [by rewrite drop_0 | done]. Qed.

Lemma take_app_cons {A} (a : list A) c b : take (length a) (a ++ c :: b) = a.
Proof. induction a as [|x a IH]; simpl; [done | by rewrite IH]. Qed.

Lemma remove_unsafe_id s : unsafe_free s -> remove_unsafe s = s.
Proof.
  intros (Ht & Hr & Hl). unfold remove_unsafe.
  by rewrite (remove_id ch_tab), (remove_id ch_cr), (remove_id ch_lf).
Qed.

Lemma elem_of_remove_unsafe x s :
  x ∈ remove_unsafe s <->
  x ∈ s /\ x <> ch_tab /\ x <> ch_cr /\ x <> ch_lf.
Proof.
  unfold remove_unsafe. rewrite !elem_of_remove. tauto.
Qed.

Lemma remove_unsafe_free s : unsafe_free (remove_unsafe s).
Proof.
  repeat split; intros Hin%elem_of_remove_unsafe; tauto.
Qed.

Lemma unsafe_free_app a b :
  unsafe_free (a ++ b) <-> unsafe_free a /\ unsafe_free b.
Proof. unfold unsafe_free. rewrite !not_elem_of_app. tauto. Qed.

Lemma unsafe_free_sub a b :
  (forall x, x ∈ a -> x ∈ b) -> unsafe_free b -> unsafe_free a.
Proof. intros Hsub (? & ? & ?). repeat split; intros ?%Hsub; done. Qed.

Lemma unsafe_free_nil : unsafe_free [].
Proof. repeat split; apply not_elem_of_nil. Qed.

Lemma unsafe_free_cons c s :
  c <> ch_tab -> c <> ch_cr -> c <> ch_lf ->
  unsafe_free s -> unsafe_free (c :: s).
Proof.
  intros ? ? ? (? & ? & ?). repeat split; apply not_elem_of_cons; split; done.
Qed.

Ltac unsafe_free_tac :=
  repeat first
    [ assumption
    | apply unsafe_free_nil
    | apply unsafe_free_app; split
    | apply unsafe_free_cons; [discriminate | discriminate | discriminate |] ].

Lemma scheme_char_facts c :
  is_scheme_char c = true ->
  is_c0_or_space c = false /\ c <> ":"%char /\ c <> "/"%char
  /\ c <> "?"%char /\ c <> "#"%char
  /\ c <> ch_tab /\ c <> ch_cr /\ c <> ch_lf.
Proof.
  destruct c as [[|] [|] [|] [|] [|] [|] [|] [|]]; vm_compute;
    intros Hc; try discriminate Hc; repeat split; discriminate.
Qed.

Lemma lower_char_facts c :
  is_scheme_char c = true ->
  is_scheme_char (lower_char c) = true /\ is_upper (lower_char c) = false
  /\ (is_ascii c && is_alpha c = true ->
      is_ascii (lower_char c) && is_alpha (lower_char c) = true).
Proof.
  destruct c as [[|] [|] [|] [|] [|] [|] [|] [|]]; vm_compute;
    intros Hc; try discriminate Hc; repeat split; done.
Qed.

Lemma valid_scheme_not_in s c :
  valid_scheme s ->
  c ∈ [":"%char; "/"%char; "?"%char; "#"%char; ch_tab; ch_cr; ch_lf] ->
  c ∉ s.
Proof.
  intros [_ Hall] Hc Hin. rewrite Forall_forall in Hall.
  destruct (Hall _ Hin) as [Hsc _].
  destruct (scheme_char_facts _ Hsc) as (_ & ? & ? & ? & ? & ? & ? & ?).
  repeat (apply elem_of_cons in Hc as [->|Hc]; [done|]).
  by apply elem_of_nil in Hc.
Qed.

Lemma valid_scheme_unsafe_free s : valid_scheme s -> unsafe_free s.
Proof.
  intros Hs. repeat split; apply (valid_scheme_not_in _ _ Hs);
    repeat (first [by left | right]).
Qed.

Lemma valid_scheme_lower s : valid_scheme s -> lower s = s.
Proof.
  intros [_ Hall]. apply lower_id. eapply Forall_impl; [exact Hall|].
  by intros c [_ ?].
Qed.

Lemma valid_scheme_nonempty s : valid_scheme s -> s <> [].
Proof. by intros [Hh _] ->. Qed.

(** the scheme step on a URL that starts with a valid scheme *)
Lemma split_scheme_valid s rest dflt :
  valid_scheme s -> split_scheme (s ++ ":"%char :: rest) dflt = (s, rest).
Proof.
  intros Hs. unfold split_scheme.
  rewrite find_app
    by (apply (valid_scheme_not_in _ _ Hs); by left).
  rewrite take_app_cons, (valid_scheme_lower _ Hs).
  rewrite drop_app_cons.
  destruct Hs as [Hhead Hall].
  assert (Hchars : forallb is_scheme_char s = true).
  { apply forallb_forall. intros x Hx%list_elem_of_In.
    rewrite Forall_forall in Hall. by destruct (Hall _ Hx). }
  rewrite Hchars. destruct s as [|c s]; [done|].
  cbn [length Nat.ltb Nat.leb app]. by rewrite Hhead.
Qed.

(** whatever the scheme step returns as the scheme is the default or a
    valid scheme *)
Lemma split_scheme_spec url dflt s rest :
  split_scheme url dflt = (s, rest) ->
  (s = dflt /\ rest = url)
  \/ (valid_scheme s /\ forall x, x ∈ rest -> x ∈ url).
Proof.
  unfold split_scheme. destruct (find ":" url) as [i|] eqn:Hf;
    [|intros [= <- <-]; by left].
  destruct (_ && _) eqn:Hc; [|intros [= <- <-]; by left].
  intros [= <- <-]. right.
  apply andb_true_iff in Hc as [Hc Hall].
  apply andb_true_iff in Hc as [Hi Hhead].
  apply Nat.ltb_lt in Hi. rewrite forallb_forall in Hall.
  split.
  - split.
    + destruct url as [|c url]; [done|]. destruct i as [|i]; [lia|]. simpl.
      apply lower_char_facts; [|done]. apply Hall. by left.
    + unfold lower. apply Forall_forall. intros x Hx.
      change (map lower_char (take i url)) with (lower_char <$> take i url) in Hx.
      apply list_elem_of_fmap in Hx as (y & -> & Hy).
      apply list_elem_of_In, Hall, lower_char_facts in Hy. tauto.
  - intros x Hx. by apply (subseteq_drop (S i) url).
Qed.

Lemma is_delim_cases c :
  is_delim c = true -> c = "/"%char \/ c = "?"%char \/ c = "#"%char.
Proof.
  unfold is_delim. rewrite !orb_true_iff, !eqc_true. tauto.
Qed.

Lemma not_delim_not_in s :
  Forall (fun c => not_delim c = true) s ->
  ("/"%char ∉ s) /\ ("?"%char ∉ s) /\ ("#"%char ∉ s).
Proof.
  intros Hall. rewrite Forall_forall in Hall.
  repeat split; intros Hin%Hall; done.
Qed.

Lemma not_in_not_delim s :
  "/"%char ∉ s -> "?"%char ∉ s -> "#"%char ∉ s ->
  Forall (fun c => not_delim c = true) s.
Proof.
  intros H1 H2 H3. apply Forall_forall. intros c Hc.
  unfold not_delim. destruct (is_delim c) eqn:Hd; [|done].
  apply is_delim_cases in Hd as [->| [->| ->]]; done.
Qed.

(** the earliest delimiter position that [_splitnetloc] computes *)
Lemma first_delim s :
  fold_left
    (fun delim c =>
       match (fun i => 2 + i) <$> find c s with
       | Some wdelim => Nat.min delim wdelim
       | None => delim
       end)
    (chars "/?#") (2 + length s)
  = 2 + length (take_while not_delim s).
Proof.
  induction s as [|x s IH]; [done|].
  cbn [chars list_ascii_of_string fold_left] in IH |- *.
  cbn [find take_while].
  destruct (is_delim x) eqn:Hx.
  - unfold not_delim. rewrite Hx. cbn [negb length].
    apply is_delim_cases in Hx as [->| [->| ->]]; cbn;
      repeat (destruct (find _ s); cbn); lia.
  - unfold not_delim at 1. rewrite Hx. cbn [negb length].
    unfold is_delim in Hx. rewrite !orb_false_iff in Hx.
    destruct Hx as [[H1 H2] H3].
    assert (E1 : eqc "/" x = false) by (unfold eqc in *; by rewrite Ascii.eqb_sym).
    assert (E2 : eqc "?" x = false) by (unfold eqc in *; by rewrite Ascii.eqb_sym).
    assert (E3 : eqc "#" x = false) by (unfold eqc in *; by rewrite Ascii.eqb_sym).
    rewrite E1, E2, E3.
    destruct (find "/" s), (find "?" s), (find "#" s);
      cbn [fmap option_fmap option_map] in IH |- *; lia.
Qed.

Lemma take_length_take_while p s :
  take (length (take_while p s)) s = take_while p s.
Proof.
  induction s as [|x s IH]; simpl; [done|].
  destruct (p x); simpl; [by rewrite IH | done].
Qed.

Lemma splitnetloc_spec s :
  _splitnetloc (chars "//" ++ s) 2
  = (take_while not_delim s, drop (length (take_while not_delim s)) s).
Proof.
  unfold _splitnetloc, find_from.
  change (drop 2 (chars "//" ++ s)) with s.
  change (length (chars "//" ++ s)) with (2 + length s).
  rewrite first_delim.
  change (take (2 + ?n) (chars "//" ++ s)) with (chars "//" ++ take n s).
  change (drop 2 (chars "//" ++ ?l)) with l.
  by rewrite take_length_take_while.
Qed.

(** a netloc that is followed by nothing or by a delimiter comes back *)
Lemma splitnetloc_roundtrip n rest :
  Forall (fun c => not_delim c = true) n ->
  match rest with x :: _ => is_delim x = true | [] => True end ->
  _splitnetloc (chars "//" ++ n ++ rest) 2 = (n, rest).
Proof.
  intros Hn Hrest. rewrite splitnetloc_spec.
  rewrite take_while_app; [by rewrite drop_app_length | done |].
  destruct rest as [|x rest]; [done|]. unfold not_delim. by rewrite Hrest.
Qed.

Lemma tail_free_no_semicolon p : ";"%char ∉ p -> tail_free p.
Proof.
  intros Hp pre seg -> _ Hin. apply Hp, elem_of_app. by right.
Qed.

Lemma tail_free_after_slash pre seg :
  ";"%char ∉ seg -> tail_free (pre ++ "/"%char :: seg).
Proof.
  intros Hseg p1 s1 Heq Hs1 Hin.
  apply List.app_eq_app in Heq as [k [[-> Hk]|[-> Hk]]].
  - apply Hs1. rewrite Hk. apply elem_of_app. right. by left.
  - destruct k as [|c k]; simpl in Hk.
    + apply Hs1. rewrite <- Hk. by left.
    + injection Hk as <- ->. apply Hseg, elem_of_app. by right.
Qed.

Lemma tail_free_nil : tail_free [].
Proof. apply tail_free_no_semicolon, not_elem_of_nil. Qed.

Lemma tail_free_slash : tail_free (chars "/").
Proof.
  apply tail_free_no_semicolon. by intros ?%list_elem_of_singleton.
Qed.

(** the last occurrence of a character *)
Lemma rsplit (c : ascii) s :
  c ∈ s -> exists pre seg, s = pre ++ c :: seg /\ c ∉ seg.
Proof.
  induction s as [|x s IH]; [by intros ?%elem_of_nil|].
  destruct (decide (c ∈ s)) as [Hs|Hs].
  - intros _. destruct (IH Hs) as (pre & seg & -> & Hseg).
    by exists (x :: pre), seg.
  - intros [->|?]%elem_of_cons; [|done]. by exists [], s.
Qed.

Lemma rfind_last c pre seg :
  c ∉ seg -> rfind c (pre ++ c :: seg) = Some (length pre).
Proof.
  intros Hseg. unfold rfind.
  rewrite rev_app_distr. cbn [rev]. rewrite <- app_assoc. cbn [app].
  assert (Hrev : c ∉ rev seg).
  { intros Hin. apply Hseg. by apply list_elem_of_In, in_rev, list_elem_of_In. }
  rewrite find_app by done.
  cbn [fmap option_fmap option_map]. f_equal.
  rewrite length_app, length_rev. cbn [length]. lia.
Qed.

Lemma splitparams_slash pre seg :
  "/"%char ∉ seg ->
  _splitparams (pre ++ "/"%char :: seg)
  = match find ";" seg with
    | Some j => (pre ++ "/"%char :: take j seg, drop (S j) seg)
    | None => (pre ++ "/"%char :: seg, [])
    end.
Proof.
  intros Hseg. unfold _splitparams.
  replace (contains "/" (pre ++ "/"%char :: seg)) with true
    by (symmetry; apply contains_true, elem_of_app; right; by left).
  rewrite rfind_last by done. unfold find_from.
  rewrite drop_app_length. cbn [find].
  replace (eqc ";" "/") with false by done.
  destruct (find ";" seg) as [j|] eqn:Hj; cbn [fmap option_fmap option_map];
    [|done].
  replace (length pre + S j) with (length (pre ++ ["/"%char]) + j)
    by (rewrite length_app; simpl; lia).
  replace (S (length (pre ++ ["/"%char]) + j))
    with (length (pre ++ ["/"%char]) + S j) by lia.
  replace (pre ++ "/"%char :: seg) with ((pre ++ ["/"%char]) ++ seg)
    by (by rewrite <- app_assoc).
  rewrite take_app_add', drop_app_add' by done.
  by rewrite <- app_assoc.
Qed.

Lemma splitparams_spec x a b :
  ";"%char ∈ x -> _splitparams x = (a, b) ->
  tail_free a /\ ("/"%char ∉ b)
  /\ ((a = x /\ b = []) \/ x = a ++ ";"%char :: b).
Proof.
  intros Hx. destruct (decide ("/"%char ∈ x)) as [Hs|Hs].
  - destruct (rsplit _ _ Hs) as (pre & seg & -> & Hseg).
    rewrite splitparams_slash by done.
    destruct (find ";" seg) as [j|] eqn:Hj.
    + apply find_Some in Hj as [Hnot Heq]. intros [= <- <-].
      split; [by apply tail_free_after_slash|]. split.
      * intros Hin. apply Hseg. by apply (subseteq_drop (S j) seg).
      * right. rewrite <- app_assoc. cbn [app]. by rewrite <- Heq.
    + apply find_None in Hj. intros [= <- <-].
      split; [by apply tail_free_after_slash|].
      split; [apply not_elem_of_nil | by left].
  - unfold _splitparams. apply contains_false in Hs as Hc. rewrite Hc.
    destruct (find ";" x) as [j|] eqn:Hj.
    + apply find_Some in Hj as [Hnot Heq]. intros [= <- <-].
      split; [by apply tail_free_no_semicolon|]. split.
      * intros Hin. apply Hs. by apply (subseteq_drop (S j) x).
      * by right.
    + by apply find_None in Hj.
Qed.

Lemma splitparams_join a b :
  tail_free a -> "/"%char ∉ b -> _splitparams (a ++ ";"%char :: b) = (a, b).
Proof.
  intros Ha Hb. destruct (decide ("/"%char ∈ a)) as [Hs|Hs].
  - destruct (rsplit _ _ Hs) as (pre & seg & -> & Hseg).
    assert (Hsemi : ";"%char ∉ seg) by (by apply (Ha (pre ++ ["/"%char]) seg);
      [rewrite <- app_assoc|]).
    rewrite <- app_assoc. cbn [app]. rewrite splitparams_slash.
    + rewrite find_app by done. by rewrite take_app_cons, drop_app_cons.
    + apply not_elem_of_app. split; [done|]. by apply not_elem_of_cons.
  - assert (Hsemi : ";"%char ∉ a) by (by apply (Ha [] a)).
    unfold _splitparams.
    replace (contains "/" (a ++ ";"%char :: b)) with false.
    + rewrite find_app by done. by rewrite take_app_cons, drop_app_cons.
    + symmetry. apply contains_false, not_elem_of_app. split; [done|].
      by apply not_elem_of_cons.
Qed.

Lemma splitparams_fixed a :
  tail_free a -> ";"%char ∈ a -> _splitparams a = (a, []).
Proof.
  intros Ha Hsemi. destruct (decide ("/"%char ∈ a)) as [Hs|Hs].
  - destruct (rsplit _ _ Hs) as (pre & seg & -> & Hseg).
    assert (Hno : ";"%char ∉ seg) by (by apply (Ha (pre ++ ["/"%char]) seg);
      [rewrite <- app_assoc|]).
    rewrite splitparams_slash by done. by rewrite find_not_in.
  - exfalso. by apply (Ha [] a).
Qed.

Lemma params_roundtrip sch p params :
  (in_list sch uses_params = true -> tail_free p) ->
  (params <> [] -> in_list sch uses_params = true /\ "/"%char ∉ params) ->
  (if in_list sch uses_params && contains ";" (joined_path p params)
   then _splitparams (joined_path p params)
   else (joined_path p params, []))
  = (p, params).
Proof.
  intros Hp Hparams. unfold joined_path.
  destruct params as [|c params]; cbn [is_empty].
  - destruct (in_list sch uses_params) eqn:Hs; [|done].
    destruct (contains ";" p) eqn:Hc; [|done].
    apply splitparams_fixed; [by apply Hp | by apply contains_true].
  - destruct Hparams as [Hs Hno]; [done|]. rewrite Hs.
    replace (contains ";" (p ++ ";"%char :: c :: params)) with true
      by (symmetry; apply contains_true, elem_of_app; right; by left).
    apply splitparams_join; [by apply Hp | done].
Qed.

(** ** Splitting a path into segments and joining them again *)

Lemma split_nonempty c s : split c s <> [].
Proof.
  destruct s as [|x s]; simpl; [done|].
  destruct (split c s); [done|]. by destruct (eqc c x).
Qed.

Lemma split_pieces c s piece x :
  piece ∈ split c s -> x ∈ piece -> x ∈ s.
Proof.
  revert piece. induction s as [|y s IH]; simpl; intros piece.
  - intros ->%list_elem_of_singleton. by intros ?%elem_of_nil.
  - destruct (split c s) as [|p ps] eqn:Hs.
    + intros ->%list_elem_of_singleton. by intros ?%elem_of_nil.
    + destruct (eqc c y).
      * intros [->|Hp]%elem_of_cons; [by intros ?%elem_of_nil|].
        intros Hx. right. by apply (IH piece).
      * intros [->|Hp]%elem_of_cons.
        -- intros [->|Hx]%elem_of_cons; [by left|]. right.
           apply (IH p); [by left | done].
        -- intros Hx. right. apply (IH piece); [by right | done].
Qed.

Lemma split_no_sep c s piece : piece ∈ split c s -> c ∉ piece.
Proof.
  revert piece. induction s as [|y s IH]; simpl; intros piece.
  - intros ->%list_elem_of_singleton. apply not_elem_of_nil.
  - destruct (split c s) as [|p ps] eqn:Hs.
    + intros ->%list_elem_of_singleton. apply not_elem_of_nil.
    + destruct (eqc c y) eqn:Hc.
      * intros [->|Hp]%elem_of_cons; [apply not_elem_of_nil | by apply IH].
      * apply eqc_false in Hc.
        intros [->|Hp]%elem_of_cons.
        -- apply not_elem_of_cons. split; [done|]. apply IH. by left.
        -- apply IH. by right.
Qed.

Lemma join_split c s : join [c] (split c s) = s.
Proof.
  induction s as [|y s IH]; [done|]. simpl.
  destruct (split c s) as [|p ps] eqn:Hs; [by apply split_nonempty in Hs|].
  destruct (eqc c y) eqn:Hc.
  - apply eqc_true in Hc as ->.
    change (join [y] ([] :: p :: ps)) with ([] ++ [y] ++ join [y] (p :: ps)).
    by rewrite IH.
  - destruct ps as [|p' ps].
    + simpl in *. by rewrite IH.
    + change (join [c] ((y :: p) :: p' :: ps))
        with (y :: (p ++ [c] ++ join [c] (p' :: ps))).
      change (join [c] (p :: p' :: ps))
        with (p ++ [c] ++ join [c] (p' :: ps)) in IH.
      by rewrite IH.
Qed.

Lemma join_snoc sep l e :
  l <> [] -> join sep (l ++ [e]) = join sep l ++ sep ++ e.
Proof.
  induction l as [|p l IH]; [done|]. intros _.
  destruct l as [|p' l]; [done|].
  change (join sep ((p :: p' :: l) ++ [e]))
    with (p ++ sep ++ join sep ((p' :: l) ++ [e])).
  rewrite IH by done.
  change (join sep (p :: p' :: l)) with (p ++ sep ++ join sep (p' :: l)).
  by rewrite <- !app_assoc.
Qed.

(** the last piece is what follows the last separator *)
Lemma split_last c s :
  exists pre,
    s = pre ++ List.last (split c s) [] /\ c ∉ List.last (split c s) [].
Proof.
  pose proof (join_split c s) as Hjoin.
  pose proof (split_no_sep c s) as Hsep.
  destruct (exists_last (split_nonempty c s)) as (l & x & Hl).
  rewrite Hl in Hjoin, Hsep |- *. rewrite List.last_last.
  split_and?.
  destruct l as [|p l].
  - exists []. split; [by rewrite <- Hjoin|]. apply Hsep. by left.
  - rewrite join_snoc in Hjoin by done. eexists. split; [|].
    + rewrite <- Hjoin. by rewrite app_assoc.
    + apply Hsep, elem_of_app. right. by left.
Qed.

Lemma join_chars sep l x :
  x ∈ join sep l -> x ∈ sep \/ exists piece, piece ∈ l /\ x ∈ piece.
Proof.
  induction l as [|p l IH]; [by intros ?%elem_of_nil|].
  destruct l as [|p' l].
  - intros Hx. right. exists p. split; [by left | done].
  - change (join sep (p :: p' :: l)) with (p ++ sep ++ join sep (p' :: l)).
    intros [Hx|[Hx|Hx]%elem_of_app]%elem_of_app.
    + right. exists p. split; [by left | done].
    + by left.
    + destruct (IH Hx) as [?|(piece & Hp & Hxp)]; [by left|].
      right. exists piece. split; [by right | done].
Qed.

Lemma elem_of_removelast {A} (l : list A) x : x ∈ removelast l -> x ∈ l.
Proof.
  induction l as [|y l IH]; [done|]. destruct l as [|z l].
  - by intros ?%elem_of_nil.
  - change (removelast (y :: z :: l)) with (y :: removelast (z :: l)).
    intros [->|Hx]%elem_of_cons; [by left|]. right. by apply IH.
Qed.

Lemma last_elem_of {A} (l : list A) d : l <> [] -> List.last l d ∈ l.
Proof.
  induction l as [|y l IH]; [done|]. intros _. destruct l as [|z l].
  - by left.
  - right. by apply IH.
Qed.

Lemma last_app_nonempty {A} (l1 l2 : list A) d :
  l2 <> [] -> List.last (l1 ++ l2) d = List.last l2 d.
Proof.
  intros Hl2. induction l1 as [|y l1 IH]; [done|].
  cbn [app]. destruct (l1 ++ l2) as [|z l] eqn:Hl; [|exact IH].
  by apply app_eq_nil in Hl as [_ ->].
Qed.

Lemma filter_middle_sub l e : e ∈ filter_middle l -> e ∈ l.
Proof.
  unfold filter_middle. destruct l as [|first rest]; [done|].
  destruct rest as [|r rest]; [done|].
  intros [->|[He|He]%elem_of_app]%elem_of_cons; [by left| |].
  - right. apply list_elem_of_In, List.filter_In in He as [He _].
    by apply elem_of_removelast, list_elem_of_In.
  - apply list_elem_of_singleton in He as ->. right. by apply last_elem_of.
Qed.

Lemma filter_middle_last l : List.last (filter_middle l) [] = List.last l [].
Proof.
  unfold filter_middle. destruct l as [|first rest]; [done|].
  destruct rest as [|r rest]; [done|].
  change (first :: ?l ++ [?e]) with ((first :: l) ++ [e]).
  by rewrite List.last_last.
Qed.

Lemma filter_middle_nonempty l : l <> [] -> filter_middle l <> [].
Proof. destruct l as [|first [|r rest]]; done. Qed.

(** the loop of [urljoin] never invents a segment *)
Lemma resolve_segments_sub segments : forall acc e,
  e ∈ fold_left
        (fun resolved_path seg =>
           if eqs seg (chars "..") then removelast resolved_path
           else if eqs seg (chars ".") then resolved_path
           else resolved_path ++ [seg])
        segments acc ->
  e ∈ acc \/ e ∈ segments.
Proof.
  induction segments as [|seg segments IH]; intros acc e; simpl; [by left|].
  intros [He|He]%IH; [|right; by right].
  destruct (eqs seg _); [left; by apply elem_of_removelast|].
  destruct (eqs seg _); [by left|].
  apply elem_of_app in He as [He|He%list_elem_of_singleton]; [by left|].
  right. rewrite He. by left.
Qed.

Lemma resolved_last segments :
  segments <> [] ->
  exists l e,
    resolved segments = l ++ [e]
    /\ (e = [] \/ e = List.last segments []).
Proof.
  intros Hne. unfold resolved.
  destruct (in_list _ _) eqn:Hdot; [by eexists _, []; split; [|left]|].
  destruct (exists_last Hne) as (segs0 & x & ->).
  rewrite List.last_last in Hdot |- *.
  unfold resolve_segments. rewrite fold_left_app. cbn [fold_left].
  unfold in_list in Hdot. cbn [existsb] in Hdot.
  rewrite !orb_false_iff in Hdot. destruct Hdot as (Hd1 & Hd2 & _).
  rewrite Hd1, Hd2. by eexists _, x; split; [|right].
Qed.

Lemma resolved_sub segments e :
  e ∈ resolved segments -> e = [] \/ e ∈ segments.
Proof.
  unfold resolved, resolve_segments.
  destruct (in_list _ _).
  - intros [He|He%list_elem_of_singleton]%elem_of_app; [|by left].
    apply resolve_segments_sub in He as [He|He]; [by apply elem_of_nil in He|].
    by right.
  - intros He. apply resolve_segments_sub in He as [He|He];
      [by apply elem_of_nil in He|]. by right.
Qed.

Lemma merge_path_segments bpath upath :
  let base_parts := split "/" bpath in
  let base_parts :=
    if negb (is_empty (List.last base_parts []))
    then removelast base_parts else base_parts in
  let segments :=
    if eqs (take 1 upath) (chars "/") then split "/" upath
    else filter_middle (base_parts ++ split "/" upath) in
  segments <> []
  /\ List.last segments [] = List.last (split "/" upath) []
  /\ forall e x, e ∈ segments -> x ∈ e -> x ∈ bpath \/ x ∈ upath.
Proof.
  cbv zeta. pose proof (split_nonempty "/" upath) as Hne.
  destruct (eqs (take 1 upath) (chars "/")).
  - split; [done|]. split; [done|]. intros e x He Hx. right.
    by eapply split_pieces.
  - split.
    { apply filter_middle_nonempty. intros [_ ?]%app_eq_nil. done. }
    split.
    { rewrite filter_middle_last. by apply last_app_nonempty. }
    intros e x [He|He]%filter_middle_sub%elem_of_app Hx.
    + left. destruct (negb _).
      * apply elem_of_removelast in He. by eapply split_pieces.
      * by eapply split_pieces.
    + right. by eapply split_pieces.
Qed.

Lemma merge_path_chars bpath upath x :
  x ∈ merge_path bpath upath ->
  x = "/"%char \/ x ∈ bpath \/ x ∈ upath.
Proof.
  unfold merge_path.
  destruct (merge_path_segments bpath upath) as (_ & _ & Hsub).
  cbv zeta in Hsub. destruct (is_empty (join _ _)).
  - intros ->%list_elem_of_singleton. by left.
  - intros [Hx|(piece & Hp & Hx)]%join_chars.
    + apply list_elem_of_singleton in Hx. by left.
    + apply resolved_sub in Hp as [->|Hp]; [by apply elem_of_nil in Hx|].
      right. by eapply Hsub.
Qed.

Lemma merge_path_tail bpath upath :
  tail_free upath -> tail_free (merge_path bpath upath).
Proof.
  intros Htail. unfold merge_path.
  destruct (merge_path_segments bpath upath) as (Hne & Hlast & _).
  cbv zeta in Hne, Hlast. destruct (is_empty (join _ _));
    [apply tail_free_slash|].
  destruct (resolved_last _ Hne) as (l & e & -> & He).
  assert (Hsemi : ";"%char ∉ e).
  { destruct He as [->| ->]; [apply not_elem_of_nil|]. rewrite Hlast.
    destruct (split_last "/" upath) as (pre & Heq & Hno).
    by apply (Htail pre). }
  destruct l as [|p l].
  - by apply tail_free_no_semicolon.
  - rewrite join_snoc by done. by apply tail_free_after_slash.
Qed.

Lemma merge_path_nonempty bpath upath : merge_path bpath upath <> [].
Proof.
  unfold merge_path. destruct (is_empty (join _ _)) eqn:He; [done|].
  by apply is_empty_false.
Qed.

Lemma fix_path_head p :
  match fix_path p with c :: _ => c = "/"%char | [] => True end.
Proof.
  destruct p as [|c p]; [done|]. simpl.
  destruct (eqc c "/") eqn:Hc; [by apply eqc_true in Hc | done].
Qed.

Lemma fix_path_chars p x : x ∈ fix_path p -> x = "/"%char \/ x ∈ p.
Proof.
  destruct p as [|c p]; [by intros ?%elem_of_nil|]. simpl.
  destruct (eqc c "/"); [by right|].
  intros [->|?]%elem_of_cons; [by left | by right].
Qed.

Lemma fix_path_tail p : tail_free p -> tail_free (fix_path p).
Proof.
  destruct p as [|c p]; [done|]. simpl. destruct (eqc c "/"); [done|].
  intros Htail pre seg Heq Hseg.
  destruct pre as [|x pre]; simpl in Heq.
  - exfalso. apply Hseg. rewrite <- Heq. by left.
  - injection Heq as _ Heq. by apply (Htail pre).
Qed.

Section WithTables.
Context `{Tables}.

Lemma urlunsplit_netloc r :
  s_netloc r <> [] -> s_scheme r <> [] ->
  match s_path r with c :: _ => c = "/"%char | [] => True end ->
  urlunsplit r
  = s_scheme r ++ ":"%char ::
      (chars "//" ++ s_netloc r ++
         (s_path r ++ suffix "?" (s_query r)) ++ suffix "#" (s_fragment r)).
Proof.
  intros Hn Hs Hp. unfold urlunsplit, suffix.
  apply is_empty_false in Hn, Hs. rewrite Hn, Hs. cbn [negb orb].
  replace (negb (is_empty (s_path r))
           && negb (eqs (take 1 (s_path r)) (chars "/"))) with false.
  2:{ destruct (s_path r) as [|c p]; [done|]. subst c. done. }
  destruct (is_empty (s_query r)), (is_empty (s_fragment r)); cbn [negb];
    rewrite ?app_nil_r; cbn [chars list_ascii_of_string app];
    rewrite <- ?app_assoc; cbn [app]; rewrite <- ?app_assoc; done.
Qed.

Lemma split_at_suffix c a b :
  c ∉ a -> split_at c (a ++ suffix c b) = (a, b).
Proof.
  intros Ha. unfold split_at, suffix. destruct b as [|x b]; cbn [is_empty].
  - rewrite app_nil_r. by rewrite split1_not_in.
  - by rewrite split1_app.
Qed.

Lemma unsafe_free_suffix c s :
  c <> ch_tab -> c <> ch_cr -> c <> ch_lf ->
  unsafe_free s -> unsafe_free (suffix c s).
Proof.
  intros ? ? ? Hs. unfold suffix. destruct (is_empty s);
    [apply unsafe_free_nil | by apply unsafe_free_cons].
Qed.

(** [urlsplit] undoes [urlunsplit] on such split results *)
Lemma urlsplit_roundtrip r dflt :
  wf_split r -> urlsplit (urlunsplit r) dflt = Ok r.
Proof.
  intros [Hs Hn Hnc Hbr Hnf Hpq Hpf Hph Hqf Hun Hup Huq Huf].
  rewrite urlunsplit_netloc
    by (try done; by apply valid_scheme_nonempty).
  unfold urlsplit.
  set (rest := chars "//" ++ s_netloc r ++
                 (s_path r ++ suffix "?" (s_query r))
                 ++ suffix "#" (s_fragment r)).
  assert (Hrest : unsafe_free rest).
  { subst rest. cbn [chars list_ascii_of_string app].
    unsafe_free_tac; by apply unsafe_free_suffix. }
  rewrite lstrip_of_id.
  2:{ destruct Hs as [_ Hall]. destruct (s_scheme r) as [|c s] eqn:Hsch;
        [done|]. cbn [app]. apply Forall_cons_1 in Hall as [[Hc _] _].
      by apply scheme_char_facts in Hc as [? _]. }
  rewrite remove_unsafe_id.
  2:{ apply unsafe_free_app. split; [by apply valid_scheme_unsafe_free|].
      unsafe_free_tac. }
  rewrite split_scheme_valid by done.
  unfold split_authority. subst rest.
  change (eqs (take 2 (chars "//" ++ ?l)) (chars "//")) with true.
  cbv iota.
  rewrite splitnetloc_roundtrip; [|done|].
  2:{ unfold suffix.
      destruct (s_path r) as [|c p]; [|by subst c].
      destruct (is_empty (s_query r)); [|done].
      by destruct (is_empty (s_fragment r)). }
  rewrite Hbr. cbn [mbind result_bind].
  rewrite split_at_suffix.
  2:{ apply not_elem_of_app. split; [done|]. unfold suffix.
      destruct (is_empty (s_query r)); [apply not_elem_of_nil|].
      apply not_elem_of_cons. by split. }
  rewrite split_at_suffix by done.
  rewrite Hnf. cbn [mbind result_bind]. by destruct r.
Qed.

Lemma split_at_spec c s a b :
  split_at c s = (a, b) ->
  (c ∉ a)
  /\ ((a = s /\ b = []) \/ s = a ++ c :: b).
Proof.
  unfold split_at. destruct (split1 c s) as [[a' b']|] eqn:Hs.
  - intros [= <- <-]. apply split1_Some in Hs as [-> Ha]. by split; [|right].
  - intros [= <- <-]. apply split1_None in Hs. by split; [|left].
Qed.

Lemma split_at_sub c s a b x :
  split_at c s = (a, b) -> x ∈ a \/ x ∈ b -> x ∈ s.
Proof.
  intros Hs Hx. apply split_at_spec in Hs as [_ [[Ha Hb]|Hs]].
  - rewrite Ha, Hb in Hx.
    destruct Hx as [Hx|Hx]; [done | by apply elem_of_nil in Hx].
  - rewrite Hs. apply elem_of_app. destruct Hx as [Hx|Hx]; [by left|].
    right. by right.
Qed.

Lemma split_at_head c s a b :
  split_at c s = (a, b) ->
  match a with
  | x :: _ => match s with y :: _ => x = y | [] => False end
  | [] => True
  end.
Proof.
  intros Hs. apply split_at_spec in Hs as [_ [[Ha Hb]|Hs]].
  - rewrite Ha. by destruct s.
  - rewrite Hs. by destruct a.
Qed.

Lemma check_brackets_nil : check_brackets [] = Ok tt.
Proof. reflexivity. Qed.

Lemma split_authority_spec url n rest :
  split_authority url = Ok (n, rest) ->
  Forall (fun c => not_delim c = true) n
  /\ check_brackets n = Ok tt
  /\ (forall x, x ∈ n \/ x ∈ rest -> x ∈ url)
  /\ (n <> [] ->
      match rest with x :: _ => is_delim x = true | [] => True end).
Proof.
  unfold split_authority. destruct (eqs (take 2 url) (chars "//")) eqn:Hp.
  - apply eqs_true in Hp.
    assert (Hurl : url = chars "//" ++ drop 2 url)
      by (by rewrite <- Hp, take_drop).
    rewrite Hurl at 1. rewrite splitnetloc_spec.
    destruct (take_while_spec not_delim (drop 2 url)) as (Hall & Heq & Hhead).
    destruct (check_brackets _) as [[]|] eqn:Hbr; cbn [mbind result_bind];
      [|done].
    intros [= <- <-]. split; [done|]. split; [done|]. split.
    + intros x Hx. rewrite Hurl, Heq. rewrite !elem_of_app. tauto.
    + intros _. destruct (drop _ (drop 2 url)) as [|x l]; [done|].
      unfold not_delim in Hhead. by apply negb_false_iff in Hhead.
  - intros [= <- <-]. split; [constructor|]. split; [done|].
    split; [|done]. intros x [Hx|Hx]; [by apply elem_of_nil in Hx | done].
Qed.

Lemma strip_of_nil p : strip_of p [] = [].
Proof. reflexivity. Qed.

(** what [urlsplit] returns: the scheme is the (cleaned) default or a
    valid scheme, the netloc passed the checks and ends before the first
    delimiter, the path holds neither [?] nor [#] and follows a netloc
    with a slash, the query holds no [#], and tabs and line breaks are
    gone *)
Lemma urlsplit_spec url dflt r :
  urlsplit url dflt = Ok r ->
  (s_scheme r = remove_unsafe (strip_of is_c0_or_space dflt)
   \/ valid_scheme (s_scheme r))
  /\ Forall (fun c => not_delim c = true) (s_netloc r)
  /\ check_brackets (s_netloc r) = Ok tt
  /\ _checknetloc (s_netloc r) = Ok tt
  /\ ("?"%char ∉ s_path r) /\ ("#"%char ∉ s_path r)
  /\ ("#"%char ∉ s_query r)
  /\ (s_netloc r <> [] ->
      match s_path r with c :: _ => c = "/"%char | [] => True end)
  /\ unsafe_free (s_netloc r) /\ unsafe_free (s_path r)
  /\ unsafe_free (s_query r) /\ unsafe_free (s_fragment r).
Proof.
  unfold urlsplit.
  set (url1 := remove_unsafe (lstrip_of is_c0_or_space url)).
  set (dflt1 := remove_unsafe (strip_of is_c0_or_space dflt)).
  assert (Hu1 : unsafe_free url1) by apply remove_unsafe_free.
  destruct (split_scheme url1 dflt1) as [sch rest] eqn:Hsch.
  destruct (split_authority rest) as [[n rest2]|] eqn:Hauth;
    cbn [mbind result_bind]; [|done].
  destruct (split_at "#" rest2) as [a f] eqn:Hf.
  destruct (split_at "?" a) as [p q] eqn:Hq.
  destruct (_checknetloc n) as [[]|] eqn:Hnf; cbn [mbind result_bind]; [|done].
  intros [= <-]. cbn [s_scheme s_netloc s_path s_query s_fragment].
  assert (Hrest : forall x, x ∈ rest -> x ∈ url1).
  { apply split_scheme_spec in Hsch as [[_ ->]|[_ ?]]; done. }
  destruct (split_authority_spec _ _ _ Hauth) as (Hnd & Hbr & Hsub & Hhead).
  pose proof (split_at_spec _ _ _ _ Hf) as [Haf _].
  pose proof (split_at_spec _ _ _ _ Hq) as [Hpq _].
  assert (Hsub_a : forall x, x ∈ a \/ x ∈ f -> x ∈ url1).
  { intros x Hx. apply Hrest, Hsub. right. by eapply split_at_sub. }
  assert (Hsub_p : forall x, x ∈ p \/ x ∈ q -> x ∈ a).
  { intros x Hx. by eapply split_at_sub. }
  split; [apply split_scheme_spec in Hsch as [[-> _]|[? _]]; auto|].
  split; [done|]. split; [done|]. split; [done|]. split; [done|].
  split; [intros Hin; apply Haf, Hsub_p; by left|].
  split; [intros Hin; apply Haf, Hsub_p; by right|].
  split.
  { intros Hn. specialize (Hhead Hn).
    pose proof (split_at_head _ _ _ _ Hf) as Hha.
    pose proof (split_at_head _ _ _ _ Hq) as Hhp.
    destruct p as [|c p]; [done|]. destruct a as [|c' a]; [done|]. subst c'.
    destruct rest2 as [|c' rest2]; [done|]. subst c'.
    apply is_delim_cases in Hhead as [->|[->| ->]]; [done| |].
    - exfalso. apply Hpq. by left.
    - exfalso. apply Haf. by left. }
  split; [|split; [|split]]; (eapply unsafe_free_sub; [|exact Hu1]);
    intros x Hx.
  - apply Hrest, Hsub. by left.
  - apply Hsub_a. left. apply Hsub_p. by left.
  - apply Hsub_a. left. apply Hsub_p. by right.
  - apply Hsub_a. by right.
Qed.

Lemma urlunparse_joined t :
  urlunparse t
  = urlunsplit (mkSplit (scheme t) (netloc t)
                        (joined_path (path t) (params t))
                        (query t) (fragment t)).
Proof. unfold urlunparse, joined_path. by destruct (params t). Qed.

(** [urlparse] undoes [urlunparse] on such parse results *)
Lemma urlparse_roundtrip t dflt :
  wf_parse t -> urlparse (urlunparse t) dflt = Ok t.
Proof.
  intros [Hsplit Htail Hparams]. unfold urlparse.
  rewrite urlunparse_joined, urlsplit_roundtrip by done.
  cbn [mbind result_bind s_scheme s_netloc s_path s_query s_fragment].
  rewrite params_roundtrip by done. by destruct t.
Qed.

Lemma urlparse_spec url dflt u :
  urlparse url dflt = Ok u ->
  exists r,
    urlsplit url dflt = Ok r
    /\ scheme u = s_scheme r /\ netloc u = s_netloc r
    /\ query u = s_query r /\ fragment u = s_fragment r
    /\ (in_list (scheme u) uses_params = true -> tail_free (path u))
    /\ (params u <> [] ->
        in_list (scheme u) uses_params = true /\ "/"%char ∉ params u)
    /\ ((path u = s_path r /\ params u = [])
        \/ s_path r = path u ++ ";"%char :: params u).
Proof.
  unfold urlparse. destruct (urlsplit url dflt) as [r|] eqn:Hr;
    cbn [mbind result_bind]; [|done].
  destruct (in_list (s_scheme r) uses_params && contains ";" (s_path r))
    eqn:Hc.
  - apply andb_true_iff in Hc as [Hs Hsemi]. apply contains_true in Hsemi.
    destruct (_splitparams (s_path r)) as [a b] eqn:Hsp.
    intros [= <-]. exists r. cbn [scheme netloc path params query fragment].
    destruct (splitparams_spec _ _ _ Hsemi Hsp) as (Htail & Hno & Hdec).
    do 5 (split; [done|]). split; [done|]. split; [done|]. done.
  - intros [= <-]. exists r. cbn [scheme netloc path params query fragment].
    do 5 (split; [done|]). split; [|split; [done | by left]].
    intros Hs. rewrite Hs in Hc. cbn [andb] in Hc.
    by apply tail_free_no_semicolon, contains_false.
Qed.

(** a path with the same characters and the same first character stands
    in for the path of a well-formed split result *)
Lemma wf_split_path s n p p' q f :
  wf_split (mkSplit s n p q f) ->
  (forall x, x ∈ p' -> x ∈ p) ->
  match p' with c :: _ => c = "/"%char | [] => True end ->
  wf_split (mkSplit s n p' q f).
Proof.
  intros [Hs Hn Hnc Hbr Hnf Hpq Hpf Hph Hqf Hun Hup Huq Huf] Hsub Hhead.
  cbn [s_scheme s_netloc s_path s_query s_fragment] in *.
  constructor; cbn [s_scheme s_netloc s_path s_query s_fragment];
    try done; try (by intros ?%Hsub).
  by eapply unsafe_free_sub.
Qed.

Lemma urlsplit_wf url dflt r :
  urlsplit url dflt = Ok r ->
  valid_scheme (s_scheme r) -> s_netloc r <> [] -> wf_split r.
Proof.
  intros Hr Hs Hn.
  destruct (urlsplit_spec _ _ _ Hr)
    as (_ & ? & ? & ? & ? & ? & ? & Hh & ? & ? & ? & ?).
  constructor; try done. by apply Hh.
Qed.

(** what [urlparse] returns is well formed as soon as it has a valid
    scheme and a netloc *)
Lemma urlparse_wf url dflt u :
  urlparse url dflt = Ok u ->
  valid_scheme (scheme u) -> netloc u <> [] -> wf_parse u.
Proof.
  intros Hu Hs Hn.
  destruct (urlparse_spec _ _ _ Hu)
    as (r & Hr & Es & En & Eq & Ef & Htail & Hparams & Hdec).
  constructor; [|done|done].
  rewrite Es in Hs. rewrite En in Hn.
  pose proof (urlsplit_wf _ _ _ Hr Hs Hn) as Hwf.
  rewrite Es, En, Eq, Ef. destruct r as [s n p q f].
  cbn [s_scheme s_netloc s_path s_query s_fragment] in *.
  unfold joined_path.
  destruct Hdec as [[-> ->]| ->]; cbn [is_empty]; [done|].
  destruct (params u) as [|c ps] eqn:Hps; cbn [is_empty]; [|done].
  eapply wf_split_path; [exact Hwf| |].
  - intros x Hx. apply elem_of_app. by left.
  - pose proof (wf_path_head _ Hwf) as Hh.
    cbn [s_path] in Hh. by destruct (path u).
Qed.

(** a scheme that is relative uses a netloc *)
Lemma uses_relative_netloc s :
  in_list s uses_relative = true -> in_list s uses_netloc = true.
Proof.
  unfold in_list, uses_relative. cbn [map existsb].
  rewrite !orb_true_iff, !eqs_true.
  intros Hs. repeat (destruct Hs as [->|Hs]; [reflexivity|]). done.
Qed.

Lemma urlunparse_nonempty t : scheme t <> [] -> urlunparse t <> [].
Proof.
  intros Hs. unfold urlunparse, urlunsplit.
  cbn [s_scheme s_netloc s_path s_query s_fragment].
  apply is_empty_false in Hs. rewrite Hs. cbn [negb].
  destruct (scheme t) as [|c s]; [done|].
  destruct (negb (is_empty (query t))), (negb (is_empty (fragment t))); done.
Qed.

(** resolving a well-formed URL of the base's scheme gives it back *)
Lemma urljoin_wf base b t :
  base <> [] ->
  urlparse base [] = Ok b ->
  wf_parse t ->
  scheme t = scheme b ->
  urljoin_chars base (urlunparse t) = Ok (urlunparse t).
Proof.
  intros Hbase Hb Ht Hs. unfold urljoin_chars.
  apply is_empty_false in Hbase. rewrite Hbase.
  assert (Hne : is_empty (urlunparse t) = false).
  { apply is_empty_false, urlunparse_nonempty, valid_scheme_nonempty.
    apply (wf_scheme _ (wfp_split _ Ht)). }
  rewrite Hne, Hb. cbn [mbind result_bind].
  rewrite urlparse_roundtrip by done. cbn [mbind result_bind].
  replace (eqs (scheme t) (scheme b)) with true
    by (symmetry; by apply eqs_true).
  cbn [negb orb].
  destruct (in_list (scheme t) uses_relative) eqn:Hrel; cbn [negb]; [|done].
  rewrite (uses_relative_netloc _ Hrel).
  pose proof (wf_netloc _ (wfp_split _ Ht)) as Hn. cbn [s_netloc] in Hn.
  apply is_empty_false in Hn. by rewrite Hn.
Qed.

Lemma urlunparse_fix t :
  netloc t <> [] -> path t <> [] ->
  urlunparse t
  = urlunparse (mkParse (scheme t) (netloc t) (fix_path (path t)) (params t)
                        (query t) (fragment t)).
Proof.
  intros Hn Hp. unfold urlunparse, urlunsplit.
  cbn [scheme netloc path params query fragment
       s_scheme s_netloc s_path s_query s_fragment].
  apply is_empty_false in Hn. rewrite Hn. cbn [negb orb].
  destruct (path t) as [|c p]; [done|]. cbn [fix_path].
  destruct (eqc c "/") eqn:Hc; [done|].
  assert (Hne : eqs [c] ["/"%char] = false).
  { apply eqs_false. intros [= ->]. by rewrite eqc_refl in Hc. }
  assert (Heq : eqs ["/"%char] ["/"%char] = true) by (by apply eqs_true).
  destruct (params t) as [|x ps];
    cbn [is_empty negb app take chars list_ascii_of_string];
    rewrite ?take_0, Hne, Heq; cbn [negb andb]; done.
Qed.

(** the characters of the components that [urlparse] returns *)
Lemma urlparse_chars url dflt u :
  urlparse url dflt = Ok u ->
  (forall x, x ∈ joined_path (path u) (params u) ->
             x <> "?"%char /\ x <> "#"%char
             /\ x <> ch_tab /\ x <> ch_cr /\ x <> ch_lf)
  /\ ("#"%char ∉ query u)
  /\ unsafe_free (query u) /\ unsafe_free (fragment u).
Proof.
  intros Hu. destruct (urlparse_spec _ _ _ Hu)
    as (r & Hr & _ & _ & -> & -> & _ & _ & Hdec).
  destruct (urlsplit_spec _ _ _ Hr)
    as (_ & _ & _ & _ & Hq & Hf & Hqf & _ & _ & (Ht & Hc & Hl) & Huq & Huf).
  split; [|done]. intros x Hx.
  assert (Hin : x ∈ s_path r).
  { unfold joined_path in Hx. destruct Hdec as [[Hp Hps]|Hp].
    - rewrite Hps in Hx. cbn [is_empty] in Hx. by rewrite <- Hp.
    - rewrite Hp. destruct (is_empty (params u)); [|done].
      apply elem_of_app. by left. }
  repeat split; intros ->; done.
Qed.

Lemma joined_path_chars p params x :
  x ∈ joined_path p params -> x ∈ p \/ x = ";"%char \/ x ∈ params.
Proof.
  unfold joined_path. destruct (is_empty params); [by left|].
  intros [?|[->|?]%elem_of_cons]%elem_of_app; auto.
Qed.

Lemma joined_path_l p params x : x ∈ p -> x ∈ joined_path p params.
Proof.
  unfold joined_path. destruct (is_empty params); [done|].
  intros Hx. apply elem_of_app. by left.
Qed.

Lemma joined_path_r p params x : x ∈ params -> x ∈ joined_path p params.
Proof.
  unfold joined_path. destruct params as [|c ps]; [by intros ?%elem_of_nil|].
  intros Hx. apply elem_of_app. right. by right.
Qed.

Lemma joined_path_head p params :
  p <> [] ->
  match p with c :: _ => c = "/"%char | [] => True end ->
  match joined_path p params with c :: _ => c = "/"%char | [] => True end.
Proof.
  unfold joined_path. destruct p as [|c p]; [done|].
  intros _ Hc. by destruct (is_empty params).
Qed.

(** [urljoin] on two non-empty strings, after both are parsed *)
Lemma urljoin_chars_unfold base url b u :
  base <> [] -> url <> [] ->
  urlparse base [] = Ok b ->
  urlparse url (scheme b) = Ok u ->
  urljoin_chars base url
  = if negb (eqs (scheme u) (scheme b))
       || negb (in_list (scheme u) uses_relative)
    then Ok url
    else if in_list (scheme u) uses_netloc && negb (is_empty (netloc u))
    then Ok (urlunparse u)
    else
      let netloc' :=
        if in_list (scheme u) uses_netloc then netloc b else netloc u in
      if is_empty (path u) && is_empty (params u) then
        Ok (urlunparse
              (mkParse (scheme u) netloc' (path b) (params b)
                       (if is_empty (query u) then query b else query u)
                       (fragment u)))
      else
        Ok (urlunparse
              (mkParse (scheme u) netloc'
                       (merge_path (path b) (path u))
                       (params u) (query u) (fragment u))).
Proof.
  intros Hbase Hurl Hb Hu. unfold urljoin_chars.
  apply is_empty_false in Hbase, Hurl. rewrite Hbase, Hurl, Hb.
  cbn [mbind result_bind]. rewrite Hu. reflexivity.
Qed.

(** resolving twice is resolving once, on lists of characters *)
Lemma urljoin_chars_idempotent base url b r :
  urlparse base [] = Ok b ->
  scheme b <> [] -> netloc b <> [] ->
  url <> [] \/ urlunparse b = base ->
  urljoin_chars base url = Ok r ->
  urljoin_chars base r = Ok r.
Proof.
  intros Hb Hsb Hnb Hcase Hjoin.
  assert (Hbase : base <> []).
  { intros ->. cbv in Hb. injection Hb as <-. done. }
  assert (Hvb : valid_scheme (scheme b)).
  { destruct (urlparse_spec _ _ _ Hb) as (rb & Hrb & Es & _).
    destruct (urlsplit_spec _ _ _ Hrb) as ([Hd|Hv] & _).
    - rewrite Es, Hd in Hsb. done.
    - by rewrite Es. }
  pose proof (urlparse_wf _ _ _ Hb Hvb Hnb) as Hwb.
  destruct (decide (url = [])) as [->|Hurl].
  { destruct Hcase as [?|Hub]; [done|].
    unfold urljoin_chars in Hjoin. apply is_empty_false in Hbase as Hbe.
    rewrite Hbe in Hjoin. cbn [is_empty] in Hjoin. injection Hjoin as <-.
    rewrite <- Hub at 2 3. by apply (urljoin_wf base b b). }
  pose proof Hjoin as Hjoin0.
  destruct (urlparse url (scheme b)) as [u|e] eqn:Hu.
  2:{ unfold urljoin_chars in Hjoin. apply is_empty_false in Hbase, Hurl.
      rewrite Hbase, Hurl, Hb in Hjoin. cbn [mbind result_bind] in Hjoin.
      by rewrite Hu in Hjoin. }
  rewrite (urljoin_chars_unfold _ _ _ _ Hbase Hurl Hb Hu) in Hjoin.
  destruct (negb (eqs (scheme u) (scheme b))
            || negb (in_list (scheme u) uses_relative)) eqn:Hc.
  { injection Hjoin as <-. exact Hjoin0. }
  apply orb_false_iff in Hc as [Hs Hrel].
  apply negb_false_iff in Hs, Hrel. apply eqs_true in Hs.
  rewrite (uses_relative_netloc _ Hrel) in Hjoin. cbn [andb] in Hjoin.
  destruct (urlparse_chars _ _ _ Hu) as (Hupath & Huqf & Huq & Huf).
  destruct (urlparse_spec _ _ _ Hu)
    as (_ & _ & _ & _ & _ & _ & Hutail & Huparams & _).
  destruct (is_empty (netloc u)) eqn:Hnu; cbn [negb] in Hjoin.
  2:{ injection Hjoin as <-. apply is_empty_false in Hnu.
      apply (urljoin_wf base b u); try done.
      apply (urlparse_wf _ _ _ Hu); [by rewrite Hs | done]. }
  cbv zeta in Hjoin.
  destruct Hwb as [[_ Hn Hnc Hbr Hnf Hpq Hpf Hph Hqf Hun Hup Huqb _] Hbt Hbp].
  cbn [s_scheme s_netloc s_path s_query s_fragment] in *.
  destruct (is_empty (path u) && is_empty (params u)) eqn:Hpe;
    injection Hjoin as <-.
  - apply (urljoin_wf base b); try done.
    constructor; cbn [scheme netloc path params query fragment];
      [|by rewrite Hs..].
    constructor; cbn [s_scheme s_netloc s_path s_query s_fragment];
      try done; try (by rewrite Hs); by destruct (is_empty (query u)).
  - set (P := merge_path (path b) (path u)).
    rewrite urlunparse_fix by (try done; apply merge_path_nonempty).
    cbn [scheme netloc path params query fragment].
    assert (HP : forall x, x ∈ P ->
                   x <> "?"%char /\ x <> "#"%char
                   /\ x <> ch_tab /\ x <> ch_cr /\ x <> ch_lf).
    { intros x [->|[Hx|Hx]]%merge_path_chars; [done| |].
      - destruct Hup as (? & ? & ?).
        apply (joined_path_l _ (params b)) in Hx.
        repeat split; intros ->; done.
      - by apply Hupath, joined_path_l. }
    assert (HJ : forall x, x ∈ joined_path (fix_path P) (params u) ->
                   x <> "?"%char /\ x <> "#"%char
                   /\ x <> ch_tab /\ x <> ch_cr /\ x <> ch_lf).
    { intros x [Hx|[->|Hx]]%joined_path_chars; [|done|].
      - apply fix_path_chars in Hx as [->|Hx]; [done | by apply HP].
      - by apply Hupath, joined_path_r. }
    apply (urljoin_wf base b); try done.
    constructor; cbn [scheme netloc path params query fragment].
    + constructor; cbn [s_scheme s_netloc s_path s_query s_fragment];
        try done; try (by rewrite Hs).
      * intros Hin. by destruct (HJ _ Hin) as (? & _).
      * intros Hin. by destruct (HJ _ Hin) as (_ & ? & _).
      * apply joined_path_head; [|apply fix_path_head].
        pose proof (merge_path_nonempty (path b) (path u)) as Hne.
        fold P in Hne. destruct P as [|c P']; [done|]. simpl.
        by destruct (eqc c "/").
      * repeat split; intros Hin; destruct (HJ _ Hin) as (_ & _ & ? & ? & ?);
          done.
    + intros Hin. by apply fix_path_tail, merge_path_tail, Hutail.
    + done.
Qed.

End WithTables.

End UrllibFacts.

(* ===================================================================== *)
(** * Resolving twice                                                     *)
(* ===================================================================== *)

Section UrljoinFacts.
Context `{Urllib.Tables}.
Import PyStr.

Lemma chars_text s : chars (text s) = s.
Proof. apply list_ascii_of_string_of_list_ascii. Qed.

Lemma chars_nil s : chars s = [] -> s = "".
Proof.
  intros Hs. rewrite <- (string_of_list_ascii_of_string s).
  unfold chars in Hs. by rewrite Hs.
Qed.

(** C9, as the code has it.  Let the base URL be absolute: it parses, with
    a scheme and a netloc.  For every href that is not empty (and for the
    empty href too when the base is written the way [urlunparse] writes
    it), if resolving the href against the base returns a URL, then
    resolving that URL against the base again returns the same URL. *)
Theorem urljoin_twice_is_urljoin_once (base href resolved : string)
    (b : Urllib.ParseResult) :
  Urllib.urlparse (chars base) [] = Ok b ->
  Urllib.scheme b <> [] ->
  Urllib.netloc b <> [] ->
  href <> "" \/ Urllib.urlunparse b = chars base ->
  Urllib.urljoin base href = Ok resolved ->
  Urllib.urljoin base resolved = Ok resolved.
Proof.
  intros Hb Hs Hn Hcase. unfold Urllib.urljoin.
  destruct (Urllib.urljoin_chars (chars base) (chars href)) as [r|] eqn:Hr;
    cbn [mbind result_bind]; [|done].
  intros [= <-]. rewrite chars_text.
  erewrite UrllibFacts.urljoin_chars_idempotent; [done|exact Hb|done|done| |exact Hr].
  destruct Hcase as [Hne|Hub]; [left | by right].
  intros Hc. by apply Hne, chars_nil.
Qed.

End UrljoinFacts.

(* ===================================================================== *)
(** * The scenarios of the specification, run on the demo site            *)
(* ===================================================================== *)

Section Scenarios.
Existing Instance Demo.tables.
Existing Instance Demo.web.

(** Of the URLs [u1, u2, u3] only [u2] fails to fetch: the result holds
    two records, tagged [u1] and [u3] in that order. *)
Lemma scrape_multiple_pages_scenario :
  keeps_tags Demo.extract_data
  /\ exists w',
       visited Demo.scraper Demo.extract_data Demo.world0 [u1; u2; u3]
               [(u1, 0); (u3, 1)] w'
       /\ scrape_multiple_pages Demo.scraper [u1; u2; u3] Demo.extract_data
                                Demo.world0 = (Ok [0; 1], w')
       /\ NoDup [0; 1]
       /\ tagged w' 0 u1
       /\ tagged w' 1 u3
       /\ map (fun l => d ← heap w' !! l; PyDict.get "url" d) [0; 1]
          = [Some (PStr u1); Some (PStr u3)].
Proof.
  assert (Hkeeps : keeps_tags Demo.extract_data).
  { apply keeps_tags_fresh, fresh_extractor_new_dict. }
  split; [exact Hkeeps|].
  destruct (scrape_multiple_pages_keeps_fetched_pages
              Demo.scraper [u1; u2; u3] Demo.extract_data Demo.world0 Hkeeps)
    as [Hreturns Hrecords].
  eexists.
  match goal with |- ?A /\ _ => assert (Hrun : A) end.
  { eapply visited_page; [vm_compute; reflexivity..|].
    eapply visited_failure; [vm_compute; reflexivity|].
    eapply visited_page; [vm_compute; reflexivity..|].
    apply visited_nil. }
  split; [exact Hrun|].
  split; [apply Hreturns; eexists; split; [exact Hrun|reflexivity]|].
  destruct (Hrecords _ _ Hrun) as (_ & Hdistinct & Htagged & Hurls).
  split; [exact Hdistinct|].
  apply Forall_cons in Htagged as [Hfirst Htagged].
  apply Forall_cons in Htagged as [Hsecond _].
  by repeat split.
Defined.

(** C1, as stated, fails for an extraction function that returns the same
    dict for every page: both pages are fetched, the list holds the one
    record twice, and the record carries the URL of the last page, so the
    entry for [u1] is tagged [u3]. *)
Lemma shared_record_is_tagged_with_last_url :
  exists w',
    scrape_multiple_pages Demo.scraper [u1; u3] Demo.shared_record
                          Demo.world_with_record = (Ok [0; 0], w')
    /\ map (fun l => d ← heap w' !! l; PyDict.get "url" d) [0; 0]
       = [Some (PStr u3); Some (PStr u3)]
    /\ map (fun l => d ← heap w' !! l; PyDict.get "url" d) [0; 0]
       <> [Some (PStr u1); Some (PStr u3)].
Proof.
  eexists. split; [vm_compute; reflexivity|]. split; [vm_compute; reflexivity|].
  vm_compute. discriminate.
Qed.

(** A host that cannot be reached: the call returns [None] and reports the
    reason. *)
Lemma fetch_page_unreachable_host :
  fetch_page Demo.scraper "http://nowhere.example/" Demo.world0
  = (Ok None,
     mkWorld (1 : @NetState Demo.web)
       ["Fetching: http://nowhere.example/";
        "Error fetching http://nowhere.example/: connection refused"]
       0 ∅ Demo.fs0).
Proof.
  exact (proj1 (proj2 (fetch_page_converts_request_errors
                         Demo.scraper "http://nowhere.example/" Demo.world0))
               eq_refl).
Defined.

(** C2, as stated, fails for a delay that the clock of [time.sleep] cannot
    hold: the page is there and the answer is 200, and [fetch_page] raises
    [OverflowError], which is no request error. *)
Lemma fetch_page_raises_for_a_delay_out_of_range :
  fetch_page (mkScraper "http://site.example/" (10 ^ 30)) u1 Demo.world0
  = (Raise (Exn OverflowError
                "timestamp too large to convert to C _PyTime_t"),
     mkWorld (1 : @NetState Demo.web) ["Fetching: http://site.example/links"]
             0 ∅ Demo.fs0).
Proof. vm_compute. reflexivity. Qed.

(** The table with header [h1, h2] and data rows [a, b] and [c] gives
    [{h1: a, h2: b}] and [{h1: c}]. *)
Lemma scrape_table_scenario :
  scrape_table Demo.scraper "http://site.example/table" 0 Demo.world0
  = (Ok [[("h1", PStr "a"); ("h2", PStr "b")]; [("h1", PStr "c")]],
     world_after_table).
Proof.
  refine (proj1 (table_rows_pair_headers_with_cells
                   Demo.scraper "http://site.example/table" 0 Demo.world0
                   world_after_table Demo.table_page
                   (Bs4.Tag "table" ∅
                      [Demo.tr "th" ["h1"; "h2"]; Demo.tr "td" ["a"; "b"];
                       Demo.tr "td" ["c"]])
                   ["h1"; "h2"] _ _ _ _ _)).
  - vm_compute. reflexivity.
  - vm_compute. reflexivity.
  - vm_compute. reflexivity.
  - vm_compute. reflexivity.
  - discriminate.
Defined.

(** In the second table two of the three data rows have no cell: the
    result has one entry. *)
Lemma scrape_table_skips_empty_rows :
  exists rows,
    scrape_table Demo.scraper "http://site.example/table" 1 Demo.world0
    = (Ok rows, world_after_table)
    /\ rows = [[("k", PStr "v")]]
    /\ length rows < 3.
Proof.
  destruct (rows_without_cells_are_omitted
              Demo.scraper "http://site.example/table" 1 Demo.world0
              world_after_table Demo.table_page
              (Bs4.Tag "table" ∅
                 [Demo.tr "th" ["k"]; Bs4.Tag "tr" ∅ []; Demo.tr "td" ["v"];
                  Bs4.Tag "tr" ∅ []]))
    as (rows & Hrun & Hskip & _ & _ & _ & Hlt).
  - vm_compute. reflexivity.
  - vm_compute. reflexivity.
  - vm_compute. reflexivity.
  - exists rows. split; [exact Hrun|]. split.
    + rewrite (Hskip [] (Bs4.Tag "tr" ∅ [])
                 [Demo.tr "td" ["v"]; Bs4.Tag "tr" ∅ []]);
        [vm_compute; reflexivity | vm_compute; reflexivity | reflexivity].
    + apply Hlt. apply Exists_cons_hd. reflexivity.
Defined.

(** The links of the demo page: the internal list leaves out the other
    host, and all of it is in the unfiltered list. *)
Lemma extract_links_internal_scenario :
  (forall u,
     u ∈ ["http://site.example/dir/x"; "http://site.example/x"] ->
     same_netloc Demo.scraper u)
  /\ exists all,
       extract_links Demo.scraper (Some Demo.links_page) false = Ok all
       /\ forall u,
            u ∈ ["http://site.example/dir/x"; "http://site.example/x"] ->
            u ∈ all.
Proof.
  apply (internal_links_share_netloc Demo.scraper (Some Demo.links_page)).
  vm_compute. reflexivity.
Defined.

(** The demo page links to [/x] twice; the result holds it once. *)
Lemma extract_links_deduplicates :
  extract_links Demo.scraper (Some Demo.links_page) false
  = Ok ["http://other.example/"; "http://site.example/dir/x";
        "http://site.example/x"]
  /\ NoDup ["http://other.example/"; "http://site.example/dir/x";
            "http://site.example/x"].
Proof.
  split; [vm_compute; reflexivity|].
  apply (extract_links_no_duplicates Demo.scraper (Some Demo.links_page) false).
  vm_compute. reflexivity.
Defined.



(** An href into the parent directory, with a query and a fragment: the
    resolved URL resolves to itself. *)
Lemma urljoin_twice_scenario :
  Urllib.urljoin "http://site.example/dir/index" "../x;p?y#z"
  = Ok "http://site.example/x;p?y#z"
  /\ Urllib.urljoin "http://site.example/dir/index"
                    "http://site.example/x;p?y#z"
     = Ok "http://site.example/x;p?y#z".
Proof.
  split; [vm_compute; reflexivity|].
  apply (urljoin_twice_is_urljoin_once
           "http://site.example/dir/index" "../x;p?y#z"
           "http://site.example/x;p?y#z"
           (Urllib.mkParse (PyStr.chars "http") (PyStr.chars "site.example")
                           (PyStr.chars "/dir/index") [] [] [])).
  - vm_compute. reflexivity.
  - discriminate.
  - discriminate.
  - left. discriminate.
  - vm_compute. reflexivity.
Defined.

(** C9, as stated, fails for the empty href when the base is not written
    the way [urlunparse] writes it: [urljoin] returns the base as it is,
    with its scheme in upper case, and resolving that result once more
    returns it with the scheme in lower case. *)
Lemma urljoin_empty_href_is_not_idempotent :
  Urllib.urljoin "HTTP://site.example/dir/" "" = Ok "HTTP://site.example/dir/"
  /\ Urllib.urljoin "HTTP://site.example/dir/" "HTTP://site.example/dir/"
     = Ok "http://site.example/dir/"
  /\ "HTTP://site.example/dir/" <> "http://site.example/dir/".
Proof. split; [|split]; [vm_compute; reflexivity..|discriminate]. Qed.

(** The netloc of the base is needed as well: against a base with a scheme
    and a path only, an href of slashes resolves to a URL that resolves to
    another one. *)
Lemma urljoin_base_without_netloc :
  Urllib.urljoin "http:a" "////" = Ok "http://"
  /\ Urllib.urljoin "http:a" "http://" = Ok "http:///a".
Proof. split; vm_compute; reflexivity. Qed.

End Scenarios.

(* ===================================================================== *)
(** * More properties of the extractors                                   *)
(* ===================================================================== *)

Section TextFacts.

Lemma chars_of_text l : PyStr.chars (PyStr.text l) = l.
Proof. apply list_ascii_of_string_of_list_ascii. Qed.

Lemma text_of_chars s : PyStr.text (PyStr.chars s) = s.
Proof. apply string_of_list_ascii_of_string. Qed.

Lemma chars_append a b :
  PyStr.chars (a ++ b)%string = PyStr.chars a ++ PyStr.chars b.
Proof. induction a as [|c a IH]; simpl; [done | by rewrite IH]. Qed.

Lemma chars_empty s : PyStr.chars s = [] <-> s = "".
Proof. destruct s; simpl; split; congruence. Qed.

Lemma lstrip_of_suffix p s : exists pre, s = pre ++ PyStr.lstrip_of p s.
Proof.
  induction s as [|x s [pre IH]]; simpl; [by exists []|].
  destruct (p x); [|by exists []].
  exists (x :: pre). simpl. by rewrite <- IH.
Qed.

Lemma strip_trimmed s : trimmed (PyStr.strip s).
Proof.
  unfold trimmed, PyStr.strip, PyStr.strip_of, PyStr.rstrip_of.
  rewrite chars_of_text, rev_involutive.
  set (l := PyStr.lstrip_of PyStr.is_space (PyStr.chars s)).
  split; [|apply PyStrFacts.lstrip_of_head].
  destruct (lstrip_of_suffix PyStr.is_space (rev l)) as [pre Hpre].
  pose proof (PyStrFacts.lstrip_of_head PyStr.is_space (PyStr.chars s)) as Hl.
  fold l in Hl.
  apply (f_equal (@rev ascii)) in Hpre.
  rewrite rev_involutive, rev_app_distr in Hpre.
  destruct (rev (PyStr.lstrip_of PyStr.is_space (rev l))) as [|c r]; [done|].
  rewrite Hpre in Hl. exact Hl.
Qed.

Lemma concat_trimmed pieces :
  Forall (fun t => t <> "" /\ trimmed t) pieces ->
  trimmed (fold_right String.append "" pieces)
  /\ (pieces <> [] -> fold_right String.append "" pieces <> "").
Proof.
  induction 1 as [|t pieces [Ht [Hhead Hlast]] _ [[IHh IHl] IHne]]; simpl.
  - by split.
  - assert (Hc : PyStr.chars t <> []) by by rewrite chars_empty.
    split; [|intros _ Heq; apply Hc; apply chars_empty in Heq;
             rewrite chars_append in Heq; by apply app_eq_nil in Heq as [? _]].
    unfold trimmed. rewrite chars_append, rev_app_distr. split.
    + destruct (PyStr.chars t); [done | exact Hhead].
    + destruct (rev (PyStr.chars (fold_right String.append "" pieces)))
        as [|c r] eqn:Hr; [|exact IHl].
      simpl. exact Hlast.
Qed.

Lemma get_text_trimmed (n : node) : trimmed (Bs4Text.get_text n).
Proof.
  destruct n as [s|s|s|cls s|name attrs contents];
    [apply strip_trimmed|done|apply strip_trimmed|done|].
  unfold Bs4Text.get_text. apply concat_trimmed.
  apply Forall_forall. intros t Ht.
  apply list_elem_of_In, filter_In in Ht as [Ht Hne].
  apply list_elem_of_In, list_elem_of_omap in Ht as (d & _ & Hd).
  split; [by apply negb_true_iff, String.eqb_neq in Hne|].
  destruct (Bs4Text.interesting name d) as [s|]; [|done].
  injection Hd as <-. apply strip_trimmed.
Qed.

(** X1.  Every text that [extract_text] returns is the stripped text of
    an element with the requested tag name; it is not empty and has no
    white space at either end. *)
Theorem extract_text_gives_trimmed_texts (self : WebScraper)
    (soup : option node) (tag t : string) :
  t ∈ extract_text self soup tag ->
  t <> "" /\ trimmed t
  /\ exists root elem,
       soup = Some root
       /\ elem ∈ Bs4.find_all [tag] Bs4.any_attrs root
       /\ t = Bs4Text.get_text elem.
Proof.
  destruct soup as [root|]; simpl; [|by intros Ht; apply elem_of_nil in Ht].
  intros Ht. apply list_elem_of_In, filter_In in Ht as [Ht Hne].
  apply list_elem_of_In, list_elem_of_fmap in Ht as (elem & -> & Helem).
  split; [by apply negb_true_iff, String.eqb_neq in Hne|].
  split; [apply get_text_trimmed|]. by exists root, elem.
Qed.

End TextFacts.

Section ImageFacts.
Context `{Urllib.Tables}.

(** the body of the loop of [extract_images] *)
Lemma extract_images_unfold self soup :
  extract_images self (Some soup)
  = rfold
      (fun images img =>
         let img_url := Bs4.get img "src" "" in
         if negb (String.eqb img_url "") then
           full_url ← Urllib.urljoin (base_url self) img_url;
           Ok (images ++ [image_record img full_url])
         else Ok images)
      [] (Bs4.find_all ["img"] Bs4.any_attrs soup).
Proof. reflexivity. Qed.

Lemma rfold_images self imgs : forall acc images,
  rfold
    (fun images img =>
       let img_url := Bs4.get img "src" "" in
       if negb (String.eqb img_url "") then
         full_url ← Urllib.urljoin (base_url self) img_url;
         Ok (images ++ [image_record img full_url])
       else Ok images)
    acc imgs = Ok images ->
  exists records,
    images = acc ++ records
    /\ Forall2
         (fun img record =>
            exists full_url,
              Urllib.urljoin (base_url self) (Bs4.get img "src" "")
              = Ok full_url
              /\ record = image_record img full_url)
         (List.filter (fun img => negb (String.eqb (Bs4.get img "src" "") ""))
                      imgs)
         records.
Proof.
  induction imgs as [|img imgs IH]; simpl; intros acc images Hr.
  - inversion Hr; subst. exists []. split; [by rewrite app_nil_r | constructor].
  - destruct (negb (String.eqb (Bs4.get img "src" "") "")) eqn:Hsrc; simpl in Hr.
    + destruct (Urllib.urljoin (base_url self) (Bs4.get img "src" ""))
        as [full_url|] eqn:Hu; simpl in Hr; [|done].
      apply IH in Hr as (records & -> & Hall).
      exists (image_record img full_url :: records).
      split; [by rewrite <- app_assoc|].
      constructor; [by exists full_url | done].
    + by apply IH in Hr.
Qed.

Lemma rfold_images_ok self imgs : forall acc,
  (exists images,
     rfold
       (fun images img =>
          let img_url := Bs4.get img "src" "" in
          if negb (String.eqb img_url "") then
            full_url ← Urllib.urljoin (base_url self) img_url;
            Ok (images ++ [image_record img full_url])
          else Ok images)
       acc imgs = Ok images)
  <-> Forall
        (fun img =>
           exists u,
             Urllib.urljoin (base_url self) (Bs4.get img "src" "") = Ok u)
        (List.filter (fun img => negb (String.eqb (Bs4.get img "src" "") ""))
                     imgs).
Proof.
  induction imgs as [|img imgs IH]; simpl; intros acc.
  - split; [constructor | by exists acc].
  - destruct (negb (String.eqb (Bs4.get img "src" "") "")) eqn:Hsrc; simpl.
    + destruct (Urllib.urljoin (base_url self) (Bs4.get img "src" ""))
        as [full_url|] eqn:Hu; simpl.
      * rewrite IH. split; [by constructor; [exists full_url|]|].
        by intros [_ ?]%Forall_cons_1.
      * split; [by intros [? ?]|]. intros [[? ?] _]%Forall_cons_1; congruence.
    + apply IH.
Qed.

(** X2.  When [extract_images] returns, it returns one record for every
    [img] tag that has a [src] which is not empty, in the order of the
    document: the record holds the [src] resolved against the base URL
    under [url], and under [alt] the tag's [alt], or [No alt text] when
    the tag has none.  Tags without a [src] add nothing. *)
Theorem extract_images_one_record_per_source (self : WebScraper)
    (soup : node) (images : list pydict) :
  extract_images self (Some soup) = Ok images ->
  Forall2
    (fun img record =>
       exists full_url,
         Urllib.urljoin (base_url self) (Bs4.get img "src" "") = Ok full_url
         /\ record = [("url", PStr full_url);
                      ("alt", PStr (default "No alt text"
                                      (Bs4.tag_attrs img !! "alt")))])
    (images_with_src soup) images.
Proof.
  rewrite extract_images_unfold. intros Hr.
  apply rfold_images in Hr as (records & -> & Hall). exact Hall.
Qed.

End ImageFacts.

Section LinkFacts.
Context `{Urllib.Tables}.

Lemma anchor_getitem (soup a : node) :
  a ∈ anchors soup ->
  exists href,
    Bs4.tag_attrs a !! "href" = Some href
    /\ getitem a "href" = Ok href
    /\ Bs4.get a "href" "" = href.
Proof.
  unfold anchors, Bs4.find_all. intros Ha.
  apply list_elem_of_In, filter_In in Ha as [_ Ha].
  destruct a as [| | | |name attrs contents]; [done..|].
  apply andb_true_iff in Ha as [_ Ha]. unfold Bs4.has_attr in Ha.
  apply bool_decide_eq_true in Ha as [href Hhref].
  exists href. unfold getitem, Bs4.get. simpl. by rewrite Hhref.
Qed.

Lemma rfold_links_exact self flag l : forall acc links,
  rfold (extract_links_step self flag) acc l = Ok links ->
  forall u,
    u ∈ links
    <-> u ∈ acc
        \/ exists a href,
             a ∈ l /\ getitem a "href" = Ok href
             /\ Urllib.urljoin (base_url self) href = Ok u
             /\ (flag = true -> same_netloc self u).
Proof.
  induction l as [|a l IH]; simpl; intros acc links Hr u.
  - inversion Hr; subst. split; [by left|].
    intros [?|(a & ? & Ha & _)]; [done | by apply elem_of_nil in Ha].
  - destruct (extract_links_step self flag acc a) as [acc'|] eqn:Hs;
      simpl in Hr; [|done].
    rewrite (IH _ _ Hr u). clear IH Hr.
    unfold extract_links_step in Hs.
    destruct (getitem a "href") as [href|] eqn:Hg; simpl in Hs; [|done].
    destruct (Urllib.urljoin (base_url self) href) as [url|] eqn:Hu;
      simpl in Hs; [|done].
    assert (Hkeep : acc' = acc ++ [url] ->
      (u ∈ acc' \/ (exists a0 href0,
             a0 ∈ l /\ getitem a0 "href" = Ok href0
             /\ Urllib.urljoin (base_url self) href0 = Ok u
             /\ (flag = true -> same_netloc self u)))
      -> (flag = true -> same_netloc self url)
      -> u ∈ acc \/ (exists a0 href0,
             a0 ∈ a :: l /\ getitem a0 "href" = Ok href0
             /\ Urllib.urljoin (base_url self) href0 = Ok u
             /\ (flag = true -> same_netloc self u))).
    { intros -> [Hin|(a0 & h0 & Ha0 & ?)] Hsame.
      - apply elem_of_app in Hin as [Hin|Hin]; [by left|].
        apply list_elem_of_singleton in Hin as ->. right.
        exists a, href. split; [by left|]. done.
      - right. exists a0, h0. split; [by right|]. done. }
    assert (Hskip :
      (u ∈ acc \/ (exists a0 href0,
             a0 ∈ l /\ getitem a0 "href" = Ok href0
             /\ Urllib.urljoin (base_url self) href0 = Ok u
             /\ (flag = true -> same_netloc self u)))
      -> u ∈ acc \/ (exists a0 href0,
             a0 ∈ a :: l /\ getitem a0 "href" = Ok href0
             /\ Urllib.urljoin (base_url self) href0 = Ok u
             /\ (flag = true -> same_netloc self u))).
    { intros [Hin|(a0 & h0 & Ha0 & ?)]; [by left|].
      right. exists a0, h0. split; [by right|]. done. }
    destruct flag.
    + destruct (Urllib.urlparse_netloc url) as [n|] eqn:Hn; simpl in Hs; [|done].
      destruct (Urllib.urlparse_netloc (base_url self)) as [nb|] eqn:Hnb;
        simpl in Hs; [|done].
      destruct (String.eqb n nb) eqn:Heq; inversion Hs; subst acc'; clear Hs.
      * apply String.eqb_eq in Heq. subst nb. split.
        -- intros Hin. apply Hkeep; [done | done |].
           intros _. exists n. by rewrite Hn, Hnb.
        -- intros [Hin|(a0 & h0 & Ha0 & Hg0 & Hu0 & Hs0)].
           ++ left. apply elem_of_app. by left.
           ++ apply elem_of_cons in Ha0 as [->|Ha0].
              ** left. rewrite Hg in Hg0. inversion Hg0; subst h0.
                 rewrite Hu in Hu0. inversion Hu0; subst.
                 apply elem_of_app. right. by left.
              ** right. by exists a0, h0.
      * apply String.eqb_neq in Heq. split; [apply Hskip|].
        intros [Hin|(a0 & h0 & Ha0 & Hg0 & Hu0 & Hs0)]; [by left|].
        apply elem_of_cons in Ha0 as [->|Ha0]; [|right; by exists a0, h0].
        rewrite Hg in Hg0. inversion Hg0; subst h0.
        rewrite Hu in Hu0. inversion Hu0; subst.
        destruct (Hs0 eq_refl) as (m & Hm1 & Hm2).
        rewrite Hn in Hm1. rewrite Hnb in Hm2. congruence.
    + inversion Hs; subst acc'; clear Hs. split.
      * intros Hin. by apply Hkeep.
      * intros [Hin|(a0 & h0 & Ha0 & Hg0 & Hu0 & Hs0)].
        -- left. apply elem_of_app. by left.
        -- apply elem_of_cons in Ha0 as [->|Ha0].
           ++ left. rewrite Hg in Hg0. inversion Hg0; subst h0.
              rewrite Hu in Hu0. inversion Hu0; subst.
              apply elem_of_app. right. by left.
           ++ right. by exists a0, h0.
Qed.

(** X3.  The list [extract_links] returns holds exactly the resolved
    [href]s of the anchors of the document: a URL is returned if and only
    if some anchor with an [href] resolves to it against the base URL and,
    when [filter_internal] is set, it has the netloc of the base URL.  No
    internal link is dropped. *)
Theorem extract_links_returns_exactly_the_resolved_hrefs (self : WebScraper)
    (soup : node) (filter_internal : bool) (links : list string) :
  extract_links self (Some soup) filter_internal = Ok links ->
  forall u,
    u ∈ links
    <-> exists a href,
          a ∈ anchors soup
          /\ Bs4.tag_attrs a !! "href" = Some href
          /\ Urllib.urljoin (base_url self) href = Ok u
          /\ (filter_internal = true -> same_netloc self u).
Proof.
  intros Hl u. apply extract_links_inv in Hl as (l & Hr & ->).
  rewrite elem_of_elements, elem_of_list_to_set.
  rewrite (rfold_links_exact _ _ _ _ _ Hr u). split.
  - intros [Hin|(a & href & Ha & Hg & Hu & Hs)]; [by apply elem_of_nil in Hin|].
    exists a, href. split; [done|]. split; [|done].
    destruct (anchor_getitem _ _ Ha) as (h & Hh & Hg' & _). congruence.
  - intros (a & href & Ha & Hh & Hu & Hs). right.
    exists a, href. split; [done|]. split; [|done].
    destruct (anchor_getitem _ _ Ha) as (h & Hh' & Hg' & _). congruence.
Qed.

Lemma rfold_links_ok self l : forall acc,
  Forall (fun a => exists href, getitem a "href" = Ok href) l ->
  (exists links, rfold (extract_links_step self false) acc l = Ok links)
  <-> Forall
        (fun a =>
           exists u,
             Urllib.urljoin (base_url self) (Bs4.get a "href" "") = Ok u)
        l.
Proof.
  induction l as [|a l IH]; simpl; intros acc Hall.
  - split; [constructor | by exists acc].
  - apply Forall_cons_1 in Hall as [[href Hg] Hall].
    assert (Hget : Bs4.get a "href" "" = href).
    { unfold getitem in Hg. unfold Bs4.get.
      destruct (Bs4.tag_attrs a !! "href"); by inversion Hg. }
    assert (Hs : extract_links_step self false acc a
                 = (url ← Urllib.urljoin (base_url self) href;
                    Ok (acc ++ [url]))).
    { unfold extract_links_step. by rewrite Hg. }
    rewrite Hs, Forall_cons, Hget. clear Hs.
    destruct (Urllib.urljoin (base_url self) href) as [url|] eqn:Hu; simpl.
    + rewrite (IH _ Hall). split; [by split; [exists url|] | by intros [_ ?]].
    + split; [by intros [? ?] | by intros [[? ?] _]].
Qed.

(** X4.  The extractors do not catch the error of a URL that cannot be
    resolved: [extract_links] without the filter returns if and only if
    the [href] of every anchor resolves against the base URL, and
    [extract_images] returns if and only if every [src] that is not empty
    does.  A single [href] or [src] that [urljoin] rejects makes the whole
    call raise. *)
Theorem extractors_return_iff_every_url_resolves (self : WebScraper)
    (soup : node) :
  ((exists links, extract_links self (Some soup) false = Ok links)
   <-> Forall
         (fun a =>
            exists u,
              Urllib.urljoin (base_url self) (Bs4.get a "href" "") = Ok u)
         (anchors soup))
  /\ ((exists images, extract_images self (Some soup) = Ok images)
      <-> Forall
            (fun img =>
               exists u,
                 Urllib.urljoin (base_url self) (Bs4.get img "src" "") = Ok u)
            (images_with_src soup)).
Proof.
  split.
  - rewrite <- (rfold_links_ok self (anchors soup) []).
    + unfold extract_links. fold (anchors soup).
      destruct (rfold _ _ _) as [l|e]; simpl; split.
      * intros _. by exists l.
      * intros _. by eexists.
      * by intros [? ?].
      * by intros [? ?].
    + apply Forall_forall. intros a Ha.
      destruct (anchor_getitem _ _ Ha) as (h & _ & Hg & _). by exists h.
  - rewrite extract_images_unfold. apply rfold_images_ok.
Qed.

End LinkFacts.

(* ===================================================================== *)
(** * More properties of [scrape_table]                                   *)
(* ===================================================================== *)

Section TableEdgeFacts.
Context `{Web}.

Lemma scrape_table_run (self : WebScraper) url idx (w w1 : World) soup :
  fetch_page self url w = (Ok (Some soup), w1) ->
  scrape_table self url idx w
  = let tables := Bs4.find_all ["table"] Bs4.any_attrs soup in
    if bool_decide (tables = []) || (Z.of_nat (length tables) <=? idx)%Z
    then (Ok [], with_line "Table not found" w1)
    else
      match py_index tables idx with
      | Ok table =>
          (Ok (fold_left (table_row_step (table_headers table))
                         (table_data_rows table) []), w1)
      | Raise e => (Raise e, w1)
      end.
Proof.
  intros Hfetch. unfold scrape_table, mbind, py_mbind, py_bind.
  rewrite Hfetch. cbv zeta.
  destruct (bool_decide _ || _); [done|].
  unfold py_lift. by destruct (py_index _ idx).
Qed.

Lemma py_index_negative {A} (l : list A) (i : Z) :
  (- Z.of_nat (length l) <= i < 0)%Z ->
  py_index l i = py_index l (i + Z.of_nat (length l)).
Proof.
  intros Hi. unfold py_index. cbv zeta.
  replace (i <? 0)%Z with true by lia.
  replace (i + Z.of_nat (length l) <? 0)%Z with false by lia.
  rewrite (Z.add_comm i).
  by replace ((0 <=? Z.of_nat (length l) + i)%Z
              && (Z.of_nat (length l) + i <? Z.of_nat (length l))%Z)
    with true by lia.
Qed.

Lemma py_index_below {A} (l : list A) (i : Z) :
  (i < - Z.of_nat (length l))%Z ->
  py_index l i
  = Raise (Exn IndexError
               (if (i <? - 2 ^ 63)%Z
                then "cannot fit 'int' into an index-sized integer"
                else "list index out of range")).
Proof.
  intros Hi. unfold py_index. cbv zeta.
  replace (i <? 0)%Z with true by lia.
  replace (0 <=? Z.of_nat (length l) + i)%Z with false by lia.
  replace (2 ^ 63 <=? i)%Z with false by lia.
  cbn [andb]. by destruct (i <? - 2 ^ 63)%Z.
Qed.

(** X5.  The bounds of [table_index], for a page that was fetched and
    holds [n] tables.  Without any table, or with an index of [n] or
    more, [scrape_table] prints [Table not found] and returns the empty
    list.  An index from [-n] to [-1] counts from the last table, as list
    indices do.  An index below [-n] passes the guard, which tests the
    upper bound only, and the call raises [IndexError], with the message
    of a list index that is out of range or, below [-2 ^ 63], of one that
    does not fit a machine word. *)
Theorem scrape_table_index_bounds (self : WebScraper) (url : string)
    (idx : Z) (w w1 : World) (soup : node) :
  fetch_page self url w = (Ok (Some soup), w1) ->
  let n := Z.of_nat (length (Bs4.find_all ["table"] Bs4.any_attrs soup)) in
  ((n = 0 \/ n <= idx)%Z ->
   scrape_table self url idx w = (Ok [], with_line "Table not found" w1))
  /\ ((- n <= idx < 0)%Z ->
      scrape_table self url idx w = scrape_table self url (idx + n) w)
  /\ ((0 < n)%Z -> (idx < - n)%Z ->
      scrape_table self url idx w
      = (Raise (Exn IndexError
                    (if (idx <? - 2 ^ 63)%Z
                     then "cannot fit 'int' into an index-sized integer"
                     else "list index out of range")), w1)).
Proof.
  intros Hfetch n. rewrite !(scrape_table_run _ _ _ _ _ _ Hfetch). cbv zeta.
  fold n.
  destruct (Bs4.find_all ["table"] Bs4.any_attrs soup) as [|t ts] eqn:Hts.
  - split; [done|]. split; [|intros Hn; simpl in n; lia].
    intros Hi. simpl in n. lia.
  - rewrite !bool_decide_eq_false_2 by done. cbn [orb].
    split; [|split].
    + intros [Hn|Hn]; [simpl in n; lia|].
      by replace (n <=? idx)%Z with true by lia.
    + intros Hi.
      replace (n <=? idx)%Z with false by lia.
      replace (n <=? idx + n)%Z with false by lia.
      by rewrite py_index_negative by (fold n; lia).
    + intros _ Hi. replace (n <=? idx)%Z with false by lia.
      by rewrite py_index_below by (fold n; lia).
Qed.

Lemma fold_table_rows_without_headers rows :
  fold_left (table_row_step []) rows []
  = map (fun cells => [("data", PList (map PStr cells))])
        (List.filter (fun cells => negb (bool_decide (cells = [])))
                     (map (row_cells ["td"; "th"]) rows)).
Proof.
  induction rows as [|row rows IH]; [done|]. cbn [fold_left map List.filter].
  rewrite fold_table_rows_app, IH. unfold table_row_step at 1.
  destruct (row_cells ["td"; "th"] row) as [|c cells]; [done|].
  by rewrite bool_decide_eq_false_2.
Qed.

(** X6.  A table whose first row has no cell has no headers.  For such a
    table [scrape_table] returns, for every later row that has cells, a
    dict with the single key [data] bound to the list of the row's cell
    texts; rows without cells are left out. *)
Theorem scrape_table_without_headers (self : WebScraper) (url : string)
    (idx : Z) (w w1 : World) (soup table : node) :
  fetch_page self url w = (Ok (Some soup), w1) ->
  (idx < Z.of_nat (length (Bs4.find_all ["table"] Bs4.any_attrs soup)))%Z ->
  py_index (Bs4.find_all ["table"] Bs4.any_attrs soup) idx = Ok table ->
  table_headers table = [] ->
  scrape_table self url idx w
  = (Ok (map (fun cells => [("data", PList (map PStr cells))])
             (table_data_cells table)), w1).
Proof.
  intros Hfetch Hlt Hidx Hh.
  rewrite (scrape_table_found _ _ _ _ _ _ _ Hfetch Hlt Hidx), Hh.
  by rewrite fold_table_rows_without_headers.
Qed.

End TableEdgeFacts.

(* ===================================================================== *)
(** * More properties of [fetch_page]                                     *)
(* ===================================================================== *)

Section FetchEdgeFacts.
Context `{Web}.

(** X7.  [fetch_page] waits only after a page that arrived: when it
    returns a document the clock has advanced by the delay of the scraper,
    once; when it returns [None] no time was spent waiting.  The objects
    and the files are as before either way. *)
Theorem fetch_page_sleeps_only_after_success (self : WebScraper)
    (url : string) (w w' : World) (r : option node) :
  fetch_page self url w = (Ok r, w') ->
  slept w' = (match r with
              | Some _ => slept w + delay self
              | None => slept w
              end)%Z
  /\ heap w' = heap w /\ fs w' = fs w.
Proof.
  rewrite fetch_page_run. cbn zeta.
  repeat match goal with
         | |- context [match ?x with _ => _ end] => destruct x
         | |- context [if ?b then _ else _] => destruct b
         end; intros [=]; by subst.
Qed.

(** X8.  The delay is handed to [time.sleep] unchecked.  When a page
    arrives with a status outside 400 to 599, a negative delay makes
    [fetch_page] raise [ValueError], and a delay of more seconds than the
    clock of [sleep] holds, negative or not, makes it raise
    [OverflowError].  These are no request errors, so the handler lets them
    pass: the URL was printed, no time was spent waiting and no document
    is returned. *)
Theorem fetch_page_raises_for_a_rejected_delay (self : WebScraper)
    (url : string) (w : World) (response : Response) (n : NetState) :
  session_get url (net w) = (Ok response, n) ->
  (status_code response < 400 \/ 600 <= status_code response)%Z ->
  ((- max_sleep <= delay self < 0)%Z ->
   fetch_page self url w
   = (Raise (Exn ValueError "sleep length must be non-negative"),
      mkWorld n (stdout w ++ ["Fetching: " +:+ url])
              (slept w) (heap w) (fs w)))
  /\ ((delay self < - max_sleep \/ max_sleep < delay self)%Z ->
      fetch_page self url w
      = (Raise (Exn OverflowError
                    "timestamp too large to convert to C _PyTime_t"),
         mkWorld n (stdout w ++ ["Fetching: " +:+ url])
                 (slept w) (heap w) (fs w))).
Proof.
  intros Hget Hstatus. rewrite fetch_page_run, Hget. cbn zeta.
  replace ((400 <=? status_code response)%Z && (status_code response <? 600)%Z)
    with false by lia.
  split; intros Hdelay.
  - replace ((delay self <? - max_sleep)%Z || (max_sleep <? delay self)%Z)
      with false by lia.
    by replace (delay self <? 0)%Z with true by lia.
  - by replace ((delay self <? - max_sleep)%Z || (max_sleep <? delay self)%Z)
      with true by lia.
Qed.

End FetchEdgeFacts.

(* ===================================================================== *)
(** * More properties of [save_to_csv]                                    *)
(* ===================================================================== *)

Section CsvEdgeFacts.
Context `{Web}.

Lemma touches_only_refl filename (w : World) : touches_only filename w w.
Proof. by repeat split. Qed.

Lemma touches_only_trans filename (w1 w2 w3 : World) :
  touches_only filename w1 w2 -> touches_only filename w2 w3 ->
  touches_only filename w1 w3.
Proof.
  intros (? & ? & ? & ? & ? & Hf1) (? & ? & ? & ? & ? & Hf2).
  repeat split; try congruence.
  intros other Hne. by rewrite Hf2, Hf1.
Qed.

Lemma touches_only_with_file filename text (w : World) :
  touches_only filename w (with_file filename text w).
Proof.
  repeat split. intros other Hne. simpl. by rewrite lookup_insert_ne.
Qed.

Lemma write_touches filename data (w : World) :
  exists w', write filename data w = (Ok tt, w') /\ touches_only filename w w'.
Proof.
  eexists. split; [reflexivity|]. repeat split.
  intros other Hne. simpl. by rewrite lookup_insert_ne.
Qed.

Lemma py_fold_app {A B} (f : B -> A -> Py B) l1 l2 : forall acc (w : World),
  py_fold f acc (l1 ++ l2) w
  = match py_fold f acc l1 w with
    | (Ok acc', w') => py_fold f acc' l2 w'
    | (Raise e, w') => (Raise e, w')
    end.
Proof.
  induction l1 as [|x l1 IH]; intros acc w; [done|].
  cbn [app]. rewrite !py_fold_cons.
  destruct (f acc x w) as [[acc'|e] w']; [apply IH | done].
Qed.

Lemma write_rows_touch fieldnames filename data : forall (w : World),
  exists r w',
    py_fold
      (fun _ rowdict =>
         line ← py_lift (Csv.writerow fieldnames rowdict);
         write filename line)
      tt data w = (r, w')
    /\ touches_only filename w w'.
Proof.
  induction data as [|row data IH]; intros w.
  - exists (Ok tt), w. split; [done | apply touches_only_refl].
  - rewrite py_fold_cons, bind_run. unfold py_lift at 1.
    destruct (Csv.writerow fieldnames row) as [line|e].
    + destruct (write_touches filename line w) as (w1 & -> & Ht1).
      destruct (IH w1) as (r & w2 & -> & Ht2).
      exists r, w2. split; [done|]. by eapply touches_only_trans.
    + exists (Raise e), w. split; [done | apply touches_only_refl].
Qed.

(** X9.  [save_to_csv] never raises, whatever the records and the path:
    it prints exactly one line, and apart from that the world after the
    call differs from the world before at most in the contents of the
    file it was asked to write.  When the path cannot be opened, the files
    are all as before and the line printed reports the error of [open]. *)
Theorem save_to_csv_never_raises (self : WebScraper) (data : list pydict)
    (filename : string) (w : World) :
  (exists line w1,
     save_to_csv self data filename w = (Ok tt, with_line line w1)
     /\ touches_only filename w w1)
  /\ forall msg,
       data <> [] -> open_errors (fs w) !! filename = Some msg ->
       save_to_csv self data filename w
       = (Ok tt, with_line ("Error saving to CSV: " +:+ msg) w).
Proof.
  split.
  2:{ intros msg Hdata Hopen. destruct data as [|first rest]; [done|].
      unfold save_to_csv, try_except. rewrite bind_run. unfold open_w.
      by rewrite Hopen. }
  destruct data as [|first rest].
  { exists "No data to save", w. split; [done | apply touches_only_refl]. }
  unfold save_to_csv, try_except. rewrite bind_run. unfold open_w at 1.
  destruct (open_errors (fs w) !! filename) as [msg|] eqn:Hopen.
  { eexists _, w. split; [reflexivity | apply touches_only_refl]. }
  rewrite !bind_run.
  unfold py_lift at 1. rewrite writeheader_ok.
  match goal with
  | |- context [write filename ?line ?w0] =>
      destruct (write_touches filename line w0) as (w1 & -> & Ht1)
  end.
  rewrite bind_run.
  match goal with
  | |- context [py_fold ?f tt ?d w1] =>
      destruct (write_rows_touch (PyDict.keys first) filename d w1)
        as (r & w2 & -> & Ht2)
  end.
  assert (Ht : touches_only filename w w2).
  { eapply touches_only_trans; [|exact Ht2].
    eapply touches_only_trans; [|exact Ht1].
    apply (touches_only_with_file filename "" w). }
  destruct r as [[]|e]; eexists _, w2; (split; [reflexivity | exact Ht]).
Qed.

Lemma writerow_extra_fields fieldnames rowdict key :
  key ∈ PyDict.keys rowdict -> key ∉ fieldnames ->
  key ∈ excess_keys fieldnames rowdict
  /\ Csv.writerow fieldnames rowdict
     = Raise (Exn ValueError (excess_message (excess_keys fieldnames rowdict))).
Proof.
  intros Hkey Hout.
  assert (Hin : key ∈ excess_keys fieldnames rowdict).
  { apply list_elem_of_In, filter_In. split; [by apply list_elem_of_In|].
    by rewrite bool_decide_eq_false_2. }
  split; [exact Hin|].
  unfold Csv.writerow, Csv._dict_to_list, excess_message.
  fold (excess_keys fieldnames rowdict).
  destruct (excess_keys fieldnames rowdict) as [|k ks]; [|done].
  by apply elem_of_nil in Hin.
Qed.


End CsvEdgeFacts.

(* ===================================================================== *)
(** * More properties of [scrape_multiple_pages]                          *)
(* ===================================================================== *)

Section MultiPageEdgeFacts.
Context `{Web}.

Lemma scrape_step_acc (self : WebScraper) extract_func all_data url
    (w : World) :
  scrape_step self extract_func all_data url w
  = match scrape_step self extract_func [] url w with
    | (Ok records, w') => (Ok (all_data ++ records), w')
    | (Raise e, w') => (Raise e, w')
    end.
Proof.
  rewrite !scrape_step_cases.
  destruct (fetch_page self url w) as [[[soup|]|e] w1];
    [| by rewrite app_nil_r | done].
  destruct (extract_func soup w1) as [[data|e] w2]; [|done].
  by destruct (setitem data "url" (PStr url) w2) as [[[]|e] w3].
Qed.

Lemma scrape_fold_acc (self : WebScraper) extract_func urls :
  forall all_data (w : World),
    py_fold (scrape_step self extract_func) all_data urls w
    = match py_fold (scrape_step self extract_func) [] urls w with
      | (Ok records, w') => (Ok (all_data ++ records), w')
      | (Raise e, w') => (Raise e, w')
      end.
Proof.
  induction urls as [|url urls IH]; intros all_data w.
  - simpl. unfold py_ret. by rewrite app_nil_r.
  - rewrite !py_fold_cons, scrape_step_acc.
    destruct (scrape_step self extract_func [] url w) as [[records|e] w1];
      [|done].
    rewrite (IH (all_data ++ records)), (IH ([] ++ records)).
    destruct (py_fold _ [] urls w1) as [[more|e] w2]; [|done].
    by rewrite app_assoc.
Qed.

(** X11.  Scraping a list of URLs that is made of two parts is scraping
    the first part and then, in the world this leaves, the second part:
    the result is the records of the first part followed by those of the
    second, and an error of either part is the error of the whole.  For
    the empty list the result is empty and nothing happens. *)
Theorem scrape_multiple_pages_in_two_parts (self : WebScraper)
    (urls1 urls2 : list string) (extract_func : node -> Py loc) (w : World) :
  scrape_multiple_pages self (urls1 ++ urls2) extract_func w
  = match scrape_multiple_pages self urls1 extract_func w with
    | (Ok records1, w1) =>
        match scrape_multiple_pages self urls2 extract_func w1 with
        | (Ok records2, w2) => (Ok (records1 ++ records2), w2)
        | (Raise e, w2) => (Raise e, w2)
        end
    | (Raise e, w1) => (Raise e, w1)
    end
  /\ scrape_multiple_pages self [] extract_func w = (Ok [], w).
Proof.
  split; [|done]. unfold scrape_multiple_pages. rewrite py_fold_app.
  destruct (py_fold _ [] urls1 w) as [[records1|e] w1]; [|done].
  apply scrape_fold_acc.
Qed.

(** X12.  An error of the extraction function is not caught.  When the
    pages before some URL were scraped, the page of that URL arrives and
    the extraction function raises on it, [scrape_multiple_pages] raises
    the same error: the records gathered so far are not returned and the
    URLs after it are not fetched. *)
Theorem scrape_multiple_pages_passes_extractor_errors (self : WebScraper)
    (before after : list string) (url : string)
    (extract_func : node -> Py loc) (w w0 w1 w2 : World)
    (records : list loc) (soup : node) (e : exn) :
  scrape_multiple_pages self before extract_func w = (Ok records, w0) ->
  fetch_page self url w0 = (Ok (Some soup), w1) ->
  extract_func soup w1 = (Raise e, w2) ->
  scrape_multiple_pages self (before ++ url :: after) extract_func w
  = (Raise e, w2).
Proof.
  unfold scrape_multiple_pages. intros Hbefore Hfetch Hextract.
  rewrite py_fold_app, Hbefore, py_fold_cons, scrape_step_cases.
  by rewrite Hfetch, Hextract.
Qed.

Lemma scrape_step_clock (self : WebScraper) extract_func all_data url
    (w w' : World) records :
  fresh_extractor extract_func ->
  scrape_step self extract_func all_data url w = (Ok records, w') ->
  exists k : nat,
    length records = length all_data + k
    /\ slept w' = (slept w + delay self * Z.of_nat k)%Z.
Proof.
  intros Hfresh. rewrite scrape_step_cases.
  destruct (fetch_page self url w) as [[[soup|]|e] w1] eqn:Hfetch; [| |done].
  - destruct (Hfresh soup w1) as (l & h' & -> & _ & [d Hd] & _).
    unfold setitem. cbn [heap with_heap]. rewrite Hd.
    intros [= <- <-]. exists 1. rewrite length_app. split; [done|].
    cbn [slept with_heap].
    revert Hfetch. rewrite fetch_page_run. cbn zeta.
    repeat match goal with
           | |- context [match ?x with _ => _ end] => destruct x
           | |- context [if ?b then _ else _] => destruct b
           end; intros [=]; subst; simpl; lia.
  - intros [= <- <-]. exists 0. split; [lia|].
    revert Hfetch. rewrite fetch_page_run. cbn zeta.
    repeat match goal with
           | |- context [match ?x with _ => _ end] => destruct x
           | |- context [if ?b then _ else _] => destruct b
           end; intros [=]; subst; simpl; lia.
Qed.

Lemma scrape_fold_clock (self : WebScraper) extract_func urls :
  fresh_extractor extract_func ->
  forall all_data (w w' : World) records,
    py_fold (scrape_step self extract_func) all_data urls w = (Ok records, w') ->
    exists k : nat,
      length records = length all_data + k
      /\ k <= length urls
      /\ slept w' = (slept w + delay self * Z.of_nat k)%Z.
Proof.
  intros Hfresh. induction urls as [|url urls IH]; intros all_data w w' records.
  - intros [= <- <-]. exists 0. repeat split; [lia..|]. lia.
  - rewrite py_fold_cons.
    destruct (scrape_step self extract_func all_data url w) as [[acc|e] w1]
      eqn:Hstep; [|done].
    intros Hrest.
    destruct (scrape_step_clock _ _ _ _ _ _ _ Hfresh Hstep) as (k1 & Hl1 & Hs1).
    destruct (IH _ _ _ _ Hrest) as (k2 & Hl2 & Hk2 & Hs2).
    assert (k1 <= 1).
    { revert Hstep. rewrite scrape_step_cases.
      destruct (fetch_page self url w) as [[[soup|]|e] w2]; [| |done].
      - destruct (extract_func soup w2) as [[data|e] w3]; [|done].
        destruct (setitem data "url" (PStr url) w3) as [[[]|e] w4]; [|done].
        intros [= <- _]. rewrite length_app in Hl1. simpl in Hl1. lia.
      - intros [= <- _]. lia. }
    exists (k1 + k2). split; [lia|]. split; [simpl; lia|]. lia.
Qed.

(** X13.  The waiting of a whole run.  For an extraction function that
    builds its records afresh, a run of [scrape_multiple_pages] that
    returns has spent the delay of the scraper once for every record it
    returns, and nothing for the URLs that failed; it returns at most one
    record per URL. *)
Theorem scrape_multiple_pages_waits_once_per_record (self : WebScraper)
    (urls : list string) (extract_func : node -> Py loc) (w w' : World)
    (records : list loc) :
  fresh_extractor extract_func ->
  scrape_multiple_pages self urls extract_func w = (Ok records, w') ->
  slept w' = (slept w + delay self * Z.of_nat (length records))%Z
  /\ length records <= length urls.
Proof.
  intros Hfresh Hrun.
  destruct (scrape_fold_clock _ _ _ Hfresh _ _ _ _ Hrun) as (k & Hl & Hk & Hs).
  simpl in Hl. subst k. by split.
Qed.

End MultiPageEdgeFacts.

(* ===================================================================== *)
(** * Properties of [scrape_custom]                                       *)
(* ===================================================================== *)

Section CustomFacts.
Context `{Web} `{Css}.

Lemma scrape_custom_run (self : WebScraper) url selectors (w : World) :
  scrape_custom self url selectors w
  = match fetch_page self url w with
    | (Ok (Some soup), w1) =>
        (rfold (scrape_custom_step soup) [("url", PStr url)] selectors, w1)
    | (Ok None, w1) => (Ok [], w1)
    | (Raise e, w1) => (Raise e, w1)
    end.
Proof.
  unfold scrape_custom. rewrite bind_run.
  by destruct (fetch_page self url w) as [[[soup|]|e] w1].
Qed.

Lemma rfold_custom soup selectors : forall d data,
  rfold (scrape_custom_step soup) d selectors = Ok data ->
  exists pairs,
    data = insert_all pairs d
    /\ map fst pairs = map fst selectors
    /\ Forall2
         (fun item pair =>
            exists elements,
              select (snd item) soup = Ok elements
              /\ pair = (fst item, selected_texts elements))
         selectors pairs.
Proof.
  induction selectors as [|item selectors IH]; simpl; intros d data Hr.
  - inversion Hr; subst. by exists [].
  - destruct (scrape_custom_step soup d item) as [d'|e] eqn:Hstep;
      simpl in Hr; [|done].
    unfold scrape_custom_step in Hstep.
    destruct (select (snd item) soup) as [elements|e] eqn:Hsel;
      simpl in Hstep; [|done].
    inversion Hstep; subst d'; clear Hstep.
    apply IH in Hr as (pairs & -> & Hfst & Hall).
    exists ((fst item, selected_texts elements) :: pairs).
    split; [done|]. split; [by rewrite <- Hfst|].
    constructor; [by exists elements | done].
Qed.

(** X14.  For a page that was fetched and a dict of selectors, the dict
    that [scrape_custom] returns has the key [url] and the names of the
    selectors as its keys, each once; every name is bound to the list of
    the texts of the elements its selector matches (empty texts
    included); and [url] is bound to the URL of the page unless a
    selector is itself named [url], in which case its list takes the
    place of the URL. *)
Theorem scrape_custom_binds_every_name (self : WebScraper) (url : string)
    (selectors : list (string * string)) (w w1 w' : World) (soup : node)
    (data : pydict) :
  fetch_page self url w = (Ok (Some soup), w1) ->
  NoDup (map fst selectors) ->
  scrape_custom self url selectors w = (Ok data, w') ->
  w' = w1
  /\ NoDup (PyDict.keys data)
  /\ (forall key, key ∈ PyDict.keys data
                  <-> key = "url" \/ key ∈ map fst selectors)
  /\ (forall name selector,
        (name, selector) ∈ selectors ->
        exists elements,
          select selector soup = Ok elements
          /\ PyDict.get name data = Some (selected_texts elements))
  /\ ("url" ∉ map fst selectors -> PyDict.get "url" data = Some (PStr url)).
Proof.
  intros Hfetch Hnodup. rewrite scrape_custom_run, Hfetch.
  intros [= Hr <-]. split; [done|].
  apply rfold_custom in Hr as (pairs & -> & Hfst & Hall).
  split; [|split; [|split]].
  - apply insert_all_NoDup. simpl. apply NoDup_singleton.
  - intros key. rewrite insert_all_keys, Hfst. simpl.
    by rewrite list_elem_of_singleton.
  - intros name selector Hin.
    apply list_elem_of_split in Hin as (s1 & s2 & ->).
    apply Forall2_app_inv_l in Hall as (p1 & p2' & Hall1 & Hall2 & ->).
    apply Forall2_cons_inv_l in Hall2
      as (pair & p2 & (elements & Hsel & ->) & Hall2 & ->).
    exists elements. split; [done|]. simpl.
    apply insert_all_get_last.
    rewrite map_app in Hnodup. apply NoDup_app in Hnodup as (_ & _ & Hnodup).
    simpl in Hnodup. apply NoDup_cons in Hnodup as [Hnotin _].
    assert (Hfst2 : map fst p2 = map fst s2).
    { clear -Hall2. induction Hall2 as [|? ? ? ? (? & _ & ->)]; simpl;
        congruence. }
    by rewrite Hfst2.
  - intros Hnot. rewrite insert_all_get_other by by rewrite Hfst.
    done.
Qed.

(** X15.  What [scrape_custom] does not deliver.  When the page cannot
    be fetched it returns the empty dict, without the [url] key.  When
    the selector engine raises on one of the selectors, the call raises
    that error, although the page was fetched and the selectors before it
    were read. *)
Theorem scrape_custom_without_result (self : WebScraper) (url : string)
    (selectors : list (string * string)) (w w1 : World) :
  (fetch_page self url w = (Ok None, w1) ->
   scrape_custom self url selectors w = (Ok [], w1))
  /\ (forall soup before name selector after e,
        fetch_page self url w = (Ok (Some soup), w1) ->
        selectors = before ++ (name, selector) :: after ->
        Forall (fun item => exists elements,
                              select (snd item) soup = Ok elements) before ->
        select selector soup = Raise e ->
        scrape_custom self url selectors w = (Raise e, w1)).
Proof.
  rewrite scrape_custom_run. split.
  - by intros ->.
  - intros soup before name selector after e -> -> Hbefore Hsel.
    f_equal. rewrite rfold_app.
    assert (Hok : exists d,
      rfold (scrape_custom_step soup) [("url", PStr url)] before = Ok d).
    { generalize [("url", PStr url)]. induction Hbefore as [|item before
        [elements Hitem] _ IH]; intros d; simpl; [by exists d|].
      assert (Hstep : scrape_custom_step soup d item
                      = Ok (PyDict.set (fst item) (selected_texts elements) d)).
      { unfold scrape_custom_step. by rewrite Hitem. }
      rewrite Hstep. simpl. apply IH. }
    destruct Hok as [d ->]. simpl.
    assert (Hstep : scrape_custom_step soup d (name, selector) = Raise e).
    { unfold scrape_custom_step. simpl. by rewrite Hsel. }
    by rewrite Hstep.
Qed.

End CustomFacts.

(* ===================================================================== *)
(** * Properties of [example_table_scraping]                              *)
(* ===================================================================== *)

Section ExampleFacts.
Context `{Web}.

Lemma save_to_csv_run (self : WebScraper) first rest filename (w : World) :
  open_errors (fs w) !! filename = None ->
  save_to_csv self (first :: rest) filename w
  = match
      py_fold
        (fun _ rowdict =>
           line ← py_lift (Csv.writerow (PyDict.keys first) rowdict);
           write filename line)
        tt (first :: rest)
        (with_file filename (Csv.row (PyDict.keys first)) w)
    with
    | (Ok _, w2) => (Ok tt, with_line ("Data saved to " +:+ filename) w2)
    | (Raise e, w2) =>
        (Ok tt, with_line ("Error saving to CSV: " +:+ exn_msg e) w2)
    end.
Proof.
  intros Hopen. unfold save_to_csv, try_except. rewrite bind_run.
  unfold open_w at 1. rewrite Hopen, !bind_run.
  unfold py_lift at 1. rewrite writeheader_ok.
  unfold write at 1. cbn [fs files open_errors net stdout slept heap].
  rewrite lookup_insert_eq. cbn [default]. rewrite insert_insert_eq, bind_run.
  change (mkWorld (net w) (stdout w) (slept w) (heap w)
            (mkFS (<[filename := "" +:+ Csv.row (PyDict.keys first)]>
                     (files (fs w))) (open_errors (fs w))))
    with (with_file filename (Csv.row (PyDict.keys first)) w).
  by destruct (py_fold _ tt (first :: rest) _) as [[[]|e] w2].
Qed.

Lemma of_pairs_table_record headers cells :
  NoDup headers ->
  PyDict.of_pairs (zip headers (map PStr cells)) = table_record headers cells.
Proof.
  intros Hnd. apply (insert_all_fresh _ []). simpl.
  rewrite zip_fst. eapply sublist_NoDup; [done | apply sublist_take].
Qed.

Lemma table_record_keys headers cells :
  PyDict.keys (table_record headers cells)
  = take (Nat.min (length headers) (length cells)) headers.
Proof.
  unfold table_record, PyDict.keys. by rewrite zip_fst, length_map.
Qed.

Lemma take_subseteq {A} (l : list A) n m : n <= m -> take n l ⊆ take m l.
Proof.
  intros Hnm x Hx. rewrite <- (Nat.min_l n m) in Hx by done.
  rewrite <- take_take in Hx. by apply subseteq_take in Hx.
Qed.

Lemma example_table_scraping_run (w w1 : World) soup table tables first rest :
  fetch_page example_scraper "https://example.com/table-page"
             (with_line example_banner w)
  = (Ok (Some soup), w1) ->
  Bs4.find_all ["table"] Bs4.any_attrs soup = table :: tables ->
  table_headers table <> [] -> NoDup (table_headers table) ->
  table_data_cells table = first :: rest ->
  example_table_scraping w
  = save_to_csv example_scraper
      (map (table_record (table_headers table)) (first :: rest))
      "table_data.csv"
      (with_line (scraped_line (S (length rest))) w1).
Proof.
  intros Hfetch Htables Hne Hnd Hcells.
  unfold example_table_scraping. rewrite bind_run.
  change (print (newline +:+ "=== Example 2: Table Scraping ===") w)
    with (Ok tt, with_line example_banner w).
  cbv beta iota zeta. rewrite bind_run.
  fold example_scraper.
  rewrite (scrape_table_found example_scraper _ 0 _ w1 soup table);
    [|done|by rewrite Htables; simpl; lia|by rewrite Htables].
  destruct (table_headers table) as [|h headers] eqn:Hh; [done|].
  rewrite fold_table_rows_with_headers.
  fold (table_data_cells table). rewrite Hcells.
  cbn [map]. rewrite !of_pairs_table_record by done.
  rewrite bind_run.
  replace (map (fun cells => PyDict.of_pairs (zip (h :: headers) (map PStr cells)))
               rest)
    with (map (table_record (h :: headers)) rest).
  2:{ apply map_ext. intros cells. by rewrite of_pairs_table_record. }
  unfold print at 1, scraped_line. cbn [length].
  by rewrite length_map.
Qed.

(** X16.  [example_table_scraping] exports the first table of the page.
    Let the page arrive, let its first table have headers that are not
    empty and all different, and let it have data rows with cells.  If no
    data row has more cells under a header than the first data row has,
    the file [table_data.csv] holds the header line made of the keys of
    the first record, and one line for every data row. *)
Theorem example_table_scraping_exports_the_table (w w1 : World)
    (soup table : node) (tables : list node) (first : list string)
    (rest : list (list string)) :
  fetch_page example_scraper "https://example.com/table-page"
             (with_line example_banner w)
  = (Ok (Some soup), w1) ->
  Bs4.find_all ["table"] Bs4.any_attrs soup = table :: tables ->
  table_headers table <> [] -> NoDup (table_headers table) ->
  table_data_cells table = first :: rest ->
  open_errors (fs w1) !! "table_data.csv" = None ->
  Forall (fun cells =>
            Nat.min (length (table_headers table)) (length cells)
            <= length first) rest ->
  example_table_scraping w
  = (Ok tt,
     with_line "Data saved to table_data.csv"
       (with_file "table_data.csv"
          (csv_text (PyDict.keys (table_record (table_headers table) first))
                    (map (table_record (table_headers table)) (first :: rest)))
          (with_line (scraped_line (S (length rest))) w1))).
Proof.
  intros Hfetch Htables Hne Hnd Hcells Hopen Hfit.
  rewrite (example_table_scraping_run _ _ _ _ _ _ _ Hfetch Htables Hne Hnd Hcells).
  cbn [map]. rewrite save_to_csv_run by done.
  erewrite write_rows; [| by apply lookup_insert_eq |].
  - by rewrite with_file_twice.
  - intros row key Hrow Hkey. rewrite table_record_keys.
    change (table_record (table_headers table) first
            :: map (table_record (table_headers table)) rest)
      with (map (table_record (table_headers table)) (first :: rest)) in Hrow.
    apply list_elem_of_fmap in Hrow as (cells & -> & Hin).
    rewrite table_record_keys in Hkey. revert Hkey. apply take_subseteq.
    apply elem_of_cons in Hin as [->|Hin]; [done|].
    rewrite Forall_forall in Hfit. specialize (Hfit _ Hin). lia.
Qed.

(** the keys of a longer row that a shorter row lacks are the headers of
    the columns in between *)
Lemma filter_not_in_take {A} `{EqDecision A} (l : list A) : forall n,
  NoDup l ->
  List.filter (fun k => negb (bool_decide (k ∈ take n l))) l = drop n l.
Proof.
  induction l as [|x l IH]; intros n Hnd; [by destruct n|].
  apply NoDup_cons in Hnd as [Hx Hnd]. destruct n as [|n].
  - simpl. f_equal. rewrite <- (IH 0 Hnd) at 2. by rewrite take_0.
  - cbn [take drop List.filter].
    rewrite bool_decide_eq_true_2 by by left. cbn [negb].
    rewrite <- (IH n Hnd). apply filter_ext_in. intros k Hk. f_equal.
    apply list_elem_of_In in Hk. apply bool_decide_ext.
    rewrite elem_of_cons. split; [|by right].
    intros [->|Hin]; [done|exact Hin].
Qed.

Lemma take_min_length {A} (l : list A) n :
  take (Nat.min (length l) n) l = take n l.
Proof.
  destruct (Nat.le_gt_cases n (length l)).
  - by rewrite Nat.min_r.
  - rewrite Nat.min_l by lia. by rewrite !take_ge by lia.
Qed.

Lemma excess_keys_table_record headers first long :
  NoDup headers ->
  length first <= length long ->
  excess_keys (PyDict.keys (table_record headers first))
              (table_record headers long)
  = drop (length first) (take (length long) headers).
Proof.
  intros Hnd Hlen. unfold excess_keys.
  rewrite !table_record_keys, !take_min_length.
  replace (take (length first) headers)
    with (take (length first) (take (length long) headers))
    by (rewrite take_take; f_equal; lia).
  apply filter_not_in_take.
  eapply sublist_NoDup; first [exact Hnd | apply sublist_take].
Qed.

(** X17.  The export of a ragged table stops early.  Under the same
    conditions, let a data row have more cells under a header than the
    first data row has, and let it be the first such row.  Then
    [example_table_scraping] leaves [table_data.csv] with the header line
    and the rows before that one only, prints the error of the writer,
    which names, in some order, the headers of the cells that the row has
    and the first data row lacks, and returns normally. *)
Theorem example_table_scraping_stops_at_longer_row (w w1 : World)
    (soup table : node) (tables : list node) (first long : list string)
    (before after : list (list string)) :
  fetch_page example_scraper "https://example.com/table-page"
             (with_line example_banner w)
  = (Ok (Some soup), w1) ->
  Bs4.find_all ["table"] Bs4.any_attrs soup = table :: tables ->
  table_headers table <> [] -> NoDup (table_headers table) ->
  table_data_cells table = first :: before ++ long :: after ->
  open_errors (fs w1) !! "table_data.csv" = None ->
  Forall (fun cells =>
            Nat.min (length (table_headers table)) (length cells)
            <= length first) before ->
  length first < Nat.min (length (table_headers table)) (length long) ->
  exists names,
    names ≡ₚ drop (length first) (take (length long) (table_headers table))
    /\ names <> []
    /\ example_table_scraping w
       = (Ok tt,
          with_line ("Error saving to CSV: " +:+ excess_message names)
            (with_file "table_data.csv"
               (csv_text
                  (PyDict.keys (table_record (table_headers table) first))
                  (map (table_record (table_headers table))
                       (first :: before)))
               (with_line
                  (scraped_line (S (length (before ++ long :: after))))
                  w1))).
Proof.
  intros Hfetch Htables Hne Hnd Hcells Hopen Hfit Hlong.
  set (headers := table_headers table) in *.
  destruct (lookup_lt_is_Some_2 headers (length first)) as [key Hkey];
    [lia|].
  destruct (writerow_extra_fields
              (PyDict.keys (table_record headers first))
              (table_record headers long) key) as [Hin Hraise].
  { rewrite table_record_keys. apply list_elem_of_lookup.
    exists (length first). rewrite lookup_take_lt by lia. done. }
  { rewrite table_record_keys. intros Hin.
    apply list_elem_of_lookup in Hin as [j Hj].
    assert (Hjlt : j < length first).
    { apply lookup_lt_Some in Hj. rewrite length_take in Hj. lia. }
    rewrite lookup_take_lt in Hj by lia.
    pose proof (NoDup_lookup _ _ _ _ Hnd Hj Hkey). lia. }
  rewrite excess_keys_table_record in Hin, Hraise by (done || lia).
  exists (drop (length first) (take (length long) headers)).
  split; [done|]. split; [intros Heq; rewrite Heq in Hin;
                          by apply elem_of_nil in Hin|].
  rewrite (example_table_scraping_run _ _ _ _ _ _ _ Hfetch Htables Hne Hnd Hcells).
  fold headers.
  cbn [map]. rewrite save_to_csv_run by done.
  rewrite map_app. cbn [map].
  change (table_record headers first
          :: map (table_record headers) before
             ++ table_record headers long :: map (table_record headers) after)
    with ((table_record headers first :: map (table_record headers) before)
          ++ table_record headers long :: map (table_record headers) after).
  rewrite py_fold_app.
  erewrite write_rows; [| by apply lookup_insert_eq |].
  - rewrite py_fold_cons, bind_run. unfold py_lift at 1.
    rewrite Hraise. by rewrite with_file_twice.
  - intros row key' Hrow Hkey'. rewrite table_record_keys.
    change (table_record headers first :: map (table_record headers) before)
      with (map (table_record headers) (first :: before)) in Hrow.
    apply list_elem_of_fmap in Hrow as (cells & -> & Hin').
    rewrite table_record_keys in Hkey'. revert Hkey'. apply take_subseteq.
    apply elem_of_cons in Hin' as [->|Hin']; [done|].
    rewrite Forall_forall in Hfit. specialize (Hfit _ Hin'). lia.
Qed.

End ExampleFacts.

(* ===================================================================== *)
(** * Properties of [save_to_json] and of the examples that call it       *)
(* ===================================================================== *)

Section JsonFacts.
Context `{Web}.

Lemma save_to_json_run (self : WebScraper) data filename (w : World) :
  save_to_json self data filename w
  = match open_errors (fs w) !! filename with
    | Some msg => (Ok tt, with_line ("Error saving to JSON: " +:+ msg) w)
    | None =>
        (Ok tt,
         with_line ("Data saved to " +:+ filename)
                   (with_file filename (Json.dumps data) w))
    end.
Proof.
  unfold save_to_json, try_except. rewrite bind_run. unfold open_w at 1.
  destruct (open_errors (fs w) !! filename) as [msg|]; [done|].
  rewrite bind_run. unfold write at 1.
  cbn [fs files open_errors net stdout slept heap].
  rewrite lookup_insert_eq. cbn [default]. rewrite insert_insert_eq.
  reflexivity.
Qed.


End JsonFacts.

Section JsonExampleFacts.
Context `{Web} `{Urllib.Tables} `{Css}.

(** X25.  The examples that export JSON write a file even when nothing
    was scraped.  When the page of [example_custom_scraping] does not
    arrive, [custom_data.json] is written with the empty object; when
    none of the three pages of [example_multi_page_scraping] arrives,
    [multi_page_data.json] is written with the empty list. *)
Theorem json_examples_write_empty_documents (w w1 w2 w3 : World) :
  (fetch_page example_scraper "https://example.com"
              (with_line custom_banner w) = (Ok None, w1) ->
   open_errors (fs w1) !! "custom_data.json" = None ->
   example_custom_scraping w
   = (Ok tt,
      with_line "Data saved to custom_data.json"
                (with_file "custom_data.json" "{}" w1)))
  /\ (fetch_page (mkScraper "https://example.com" 2)
                 "https://example.com/page1"
                 (with_line multi_page_banner w) = (Ok None, w1) ->
      fetch_page (mkScraper "https://example.com" 2)
                 "https://example.com/page2" w1 = (Ok None, w2) ->
      fetch_page (mkScraper "https://example.com" 2)
                 "https://example.com/page3" w2 = (Ok None, w3) ->
      open_errors (fs w3) !! "multi_page_data.json" = None ->
      example_multi_page_scraping w
      = (Ok tt,
         with_line "Data saved to multi_page_data.json"
                   (with_file "multi_page_data.json" "[]" w3))).
Proof.
  split.
  - intros Hfetch Hopen. unfold example_custom_scraping.
    rewrite bind_run.
    change (print (newline +:+ "=== Example 3: Custom Selector Scraping ===") w)
      with (Ok tt, with_line custom_banner w).
    cbv beta iota zeta. fold example_scraper.
    rewrite bind_run, scrape_custom_run, Hfetch, save_to_json_run, Hopen.
    reflexivity.
  - intros Hf1 Hf2 Hf3 Hopen. unfold example_multi_page_scraping.
    rewrite bind_run.
    change (print (newline +:+ "=== Example 4: Multi-Page Scraping ===") w)
      with (Ok tt, with_line multi_page_banner w).
    cbv beta iota zeta. rewrite bind_run.
    unfold scrape_multiple_pages.
    rewrite py_fold_cons, (scrape_step_none _ _ _ _ _ _ Hf1).
    rewrite py_fold_cons, (scrape_step_none _ _ _ _ _ _ Hf2).
    rewrite py_fold_cons, (scrape_step_none _ _ _ _ _ _ Hf3).
    cbn [py_fold]. unfold py_ret. rewrite bind_run. unfold objects.
    cbn [rfold]. rewrite save_to_json_run, Hopen. reflexivity.
Qed.

End JsonExampleFacts.

Section JsonStringFacts.
Import PyStr.

Lemma all_chars_complete c : c ∈ all_chars.
Proof.
  unfold all_chars. apply list_elem_of_fmap.
  exists (nat_of_ascii c). split; [by rewrite ascii_nat_embedding|].
  apply elem_of_seq. pose proof (nat_ascii_bounded c). lia.
Qed.

Lemma startswith_app (a b r : str) : startswith a (a ++ r) = true.
Proof.
  induction a as [|x a IH]; simpl; [done|].
  by rewrite PyStrFacts.eqc_refl.
Qed.

Lemma app_prefix_related (a b r1 r2 : str) :
  a ++ r1 = b ++ r2 -> prefix_related a b = true.
Proof.
  revert b. induction a as [|x a IH]; intros b Heq; [done|].
  destruct b as [|y b]; [done|].
  injection Heq as -> Heq. apply IH in Heq.
  unfold prefix_related in *. simpl. by rewrite PyStrFacts.eqc_refl.
Qed.

Lemma escape_prefix_free c1 c2 :
  prefix_related (Json.escape c1) (Json.escape c2) = true -> c1 = c2.
Proof.
  assert (Hall : forallb
            (fun a => forallb
               (fun b => implb (prefix_related (Json.escape a) (Json.escape b))
                               (eqc a b))
               all_chars)
            all_chars = true) by (vm_compute; reflexivity).
  intros Hrel. rewrite forallb_forall in Hall.
  pose proof (Hall c1 (proj1 (list_elem_of_In _ _) (all_chars_complete c1)))
    as H1.
  rewrite forallb_forall in H1.
  pose proof (H1 c2 (proj1 (list_elem_of_In _ _) (all_chars_complete c2)))
    as H2.
  rewrite Hrel in H2. simpl in H2. by apply PyStrFacts.eqc_true.
Qed.

Lemma escape_safe c x : x ∈ Json.escape c -> 32 <= code x.
Proof.
  assert (Hall : forallb
            (fun a => forallb (fun y => Nat.leb 32 (code y)) (Json.escape a))
            all_chars = true) by (vm_compute; reflexivity).
  intros Hx. rewrite forallb_forall in Hall.
  pose proof (Hall c (proj1 (list_elem_of_In _ _) (all_chars_complete c)))
    as Hc.
  rewrite forallb_forall in Hc.
  by apply list_elem_of_In, Hc, Nat.leb_le in Hx.
Qed.

Lemma escape_nonempty c : Json.escape c <> [].
Proof.
  intros Heq.
  assert (Hrel : prefix_related (Json.escape c) (Json.escape ch_dquote) = true)
    by by rewrite Heq.
  apply escape_prefix_free in Hrel. subst c. discriminate.
Qed.

Lemma escaped_injective s1 : forall s2,
  concat (map Json.escape s1) = concat (map Json.escape s2) -> s1 = s2.
Proof.
  induction s1 as [|c1 s1 IH]; intros [|c2 s2]; simpl; intros Heq.
  - done.
  - symmetry in Heq. apply app_eq_nil in Heq as [Heq _].
    by apply escape_nonempty in Heq.
  - apply app_eq_nil in Heq as [Heq _]. by apply escape_nonempty in Heq.
  - pose proof (escape_prefix_free _ _ (app_prefix_related _ _ _ _ Heq)).
    subst c2. apply app_inv_head in Heq. f_equal. by apply IH.
Qed.

(** X26.  Text is stored in JSON without loss.  The quoted form that
    [json.dump] writes for a string determines the string: two different
    strings never get the same form.  And no character of a quoted form
    has a code below 32, so a line break inside a scraped text never
    breaks a line of the file. *)
Theorem json_strings_are_stored_without_loss (s1 s2 : string) :
  (Json.encode_basestring s1 = Json.encode_basestring s2 -> s1 = s2)
  /\ Forall (fun c => 32 <= code c) (chars (Json.encode_basestring s1)).
Proof.
  unfold Json.encode_basestring. split.
  - intros Heq. apply (f_equal chars) in Heq. rewrite !chars_of_text in Heq.
    injection Heq as Heq. apply app_inv_tail in Heq.
    apply escaped_injective in Heq.
    rewrite <- (text_of_chars s1), <- (text_of_chars s2). by f_equal.
  - rewrite chars_of_text. apply Forall_forall. intros c Hc.
    apply elem_of_cons in Hc as [->|Hc]; [vm_compute; lia|].
    apply elem_of_app in Hc as [Hc|Hc].
    + apply list_elem_of_In, in_concat in Hc as (piece & Hpiece & Hc).
      apply list_elem_of_In, list_elem_of_fmap in Hpiece as (a & -> & _).
      apply list_elem_of_In in Hc.
      by apply escape_safe in Hc.
    + apply list_elem_of_singleton in Hc as ->. vm_compute. lia.
Qed.

End JsonStringFacts.

(* ===================================================================== *)
(** * Properties of the Hangman game                                      *)
(* ===================================================================== *)

Module HangmanFacts.
Import Hangman HangmanForms.

Lemma contains_lowercase c :
  PyStr.contains c (PyStr.chars ascii_lowercase) = PyStr.is_lower c.
Proof. by destruct c as [[] [] [] [] [] [] [] []]. Qed.

Lemma contains_elem_of c s : PyStr.contains c s = true <-> c ∈ s.
Proof. apply PyStrFacts.contains_true. Qed.

Lemma chars_singleton guess c : PyStr.chars guess = [c] <-> guess = String c "".
Proof.
  split; [|by intros ->]. destruct guess as [|a [|b guess]]; simpl; congruence.
Qed.

(** X18.  What a guess does to the game.  [make_guess] changes the game
    only for a guess that is one lower-case letter not guessed before:
    any other input, and a letter guessed again, leave every attribute as
    it is, so no attempt is lost.  A new letter joins the guessed letters,
    and the counter of wrong guesses goes up by one exactly when the
    letter is not in the word. *)
Theorem make_guess_counts_new_letters_only (guess : string)
    (self : HangmanGame) :
  ((forall c, ~ new_letter self guess c) -> (make_guess guess self).2 = self)
  /\ (forall c,
        new_letter self guess c ->
        let self' := (make_guess guess self).2 in
        guessed_letters self' = {[c]} ∪ guessed_letters self
        /\ wrong_guesses self'
           = (if bool_decide (c ∈ PyStr.chars (word self))
              then wrong_guesses self else wrong_guesses self + 1)%Z
        /\ same_round self self' /\ hint_used self' = hint_used self).
Proof.
  unfold make_guess. split.
  - intros Hnone.
    destruct (PyStr.chars guess) as [|c [|]] eqn:Hg; [done| |done].
    apply chars_singleton in Hg. rewrite contains_lowercase.
    destruct (PyStr.is_lower c) eqn:Hc; [|done]. simpl.
    destruct (bool_decide (c ∈ guessed_letters self)) eqn:Hin; [done|].
    apply bool_decide_eq_false in Hin. by destruct (Hnone c).
  - intros c (Hg & Hc & Hin). cbv zeta. apply chars_singleton in Hg.
    rewrite Hg, contains_lowercase, Hc. cbn [negb].
    rewrite bool_decide_eq_false_2 by done.
    change (word (set_guessed ({[c]} ∪ guessed_letters self) self))
      with (word self).
    destruct (PyStr.contains c (PyStr.chars (word self))) eqn:Hw.
    + apply contains_elem_of in Hw. by rewrite bool_decide_eq_true_2.
    + apply PyStrFacts.contains_false in Hw.
      by rewrite bool_decide_eq_false_2.
Qed.

Section DisplayFacts.

Lemma display_fold (self : HangmanGame) letters : forall display,
  PyStr.chars
    (fold_left
       (fun display letter =>
          if bool_decide (letter ∈ guessed_letters self)
          then display +:+ String letter "" +:+ " "
          else display +:+ "_ ")
       letters display)
  = PyStr.chars display
    ++ concat (map (fun c => [shown self c; " "%char]) letters).
Proof.
  induction letters as [|c letters IH]; intros display; simpl.
  - by rewrite app_nil_r.
  - rewrite IH. unfold shown.
    destruct (bool_decide (c ∈ guessed_letters self));
      rewrite chars_append; simpl; by rewrite <- app_assoc.
Qed.

Lemma shown_line (self : HangmanGame) letters :
  letters <> [] ->
  concat (map (fun c => [shown self c; " "%char]) letters)
  = PyStr.join (PyStr.chars " ") (map (fun c => [shown self c]) letters)
    ++ [" "%char].
Proof.
  induction letters as [|c letters IH] using rev_ind; [done|]. intros _.
  rewrite !map_app, concat_app. simpl.
  destruct letters as [|c0 letters]; [done|].
  rewrite IH by done.
  rewrite UrllibFacts.join_snoc by done.
  by rewrite <- !app_assoc.
Qed.

Lemma shown_not_space (self : HangmanGame) c :
  PyStr.is_space c = false -> PyStr.is_space (shown self c) = false.
Proof. unfold shown. by destruct (bool_decide _). Qed.

Lemma join_head sep (p : list ascii) ps x p' :
  p = x :: p' -> exists rest, PyStr.join sep (p :: ps) = x :: rest.
Proof. intros ->. destruct ps; simpl; by eexists. Qed.

Lemma join_last sep (ps : list (list ascii)) p x :
  exists init, PyStr.join sep (ps ++ [p ++ [x]]) = init ++ [x].
Proof.
  induction ps as [|q ps [init IH]]; simpl.
  - by exists p.
  - destruct (ps ++ [p ++ [x]]) as [|r rs] eqn:Hps.
    { by destruct ps. }
    rewrite IH. exists (q ++ sep ++ init). by rewrite <- !app_assoc.
Qed.

Lemma elem_of_join sep (ps : list (list ascii)) p x :
  p ∈ ps -> x ∈ p -> x ∈ PyStr.join sep ps.
Proof.
  induction ps as [|q ps IH]; [by intros ?%elem_of_nil|].
  intros Hp Hx. apply elem_of_cons in Hp as [->|Hp].
  - destruct ps; simpl; [done|]. apply elem_of_app. by left.
  - destruct ps as [|r ps]; [by apply elem_of_nil in Hp|].
    change (PyStr.join sep (q :: r :: ps))
      with (q ++ sep ++ PyStr.join sep (r :: ps)).
    rewrite !elem_of_app. right. right. by apply IH.
Qed.

(** X23.  What the player sees of the word.  For a word without white
    space and without underscores, [display_word] is the word with a
    space between neighbouring letters and an underscore in the place of
    every letter that was not guessed; and [is_game_won] holds exactly
    when no underscore is left in it. *)
Theorem display_word_hides_unguessed_letters (self : HangmanGame) :
  Forall (fun c => PyStr.is_space c = false /\ c <> "_"%char)
         (PyStr.chars (word self)) ->
  PyStr.chars (display_word self)
  = PyStr.join (PyStr.chars " ")
               (map (fun c => [shown self c]) (PyStr.chars (word self)))
  /\ (is_game_won self = true
      <-> "_"%char ∉ PyStr.chars (display_word self)).
Proof.
  intros Hword.
  assert (Hshow : PyStr.chars (display_word self)
    = PyStr.join (PyStr.chars " ")
                 (map (fun c => [shown self c]) (PyStr.chars (word self)))).
  { unfold display_word, PyStr.strip. rewrite chars_of_text, display_fold.
    simpl app.
    destruct (PyStr.chars (word self)) as [|c0 letters] eqn:Hletters; [done|].
    rewrite shown_line by done.
    set (X := PyStr.join (PyStr.chars " ")
                (map (fun c => [shown self c]) (c0 :: letters))).
    assert (Hhead : exists rest, X = shown self c0 :: rest).
    { by eapply join_head. }
    assert (Hlast : exists init c, X = init ++ [shown self c]
                                   /\ PyStr.is_space c = false).
    { destruct (exists_last (l := c0 :: letters)) as (l' & c & Hl'); [done|].
      unfold X. rewrite Hl', map_app. simpl.
      destruct (join_last (PyStr.chars " ")
                  (map (fun c => [shown self c]) l') [] (shown self c))
        as [init Hinit].
      exists init, c. split; [exact Hinit|].
      rewrite Hl' in Hword. apply Forall_app in Hword as [_ Hc].
      by apply Forall_cons_1 in Hc as [[? _] _]. }
    destruct Hhead as [rest Hrest]. destruct Hlast as (init & c & Hinit & Hc).
    unfold PyStr.strip_of.
    rewrite (PyStrFacts.lstrip_of_id _ (X ++ [" "%char])).
    2:{ rewrite Hrest. simpl. apply shown_not_space.
        by apply Forall_cons_1 in Hword as [[? _] _]. }
    unfold PyStr.rstrip_of. rewrite rev_app_distr. simpl.
    rewrite PyStrFacts.lstrip_of_id; [apply rev_involutive|].
    rewrite Hinit, rev_app_distr. simpl. by apply shown_not_space. }
  split; [exact Hshow|]. rewrite Hshow. unfold is_game_won.
  rewrite forallb_forall. split.
  - intros Hall Hin. apply UrllibFacts.join_chars in Hin as [Hin|Hin].
    + by apply list_elem_of_singleton in Hin.
    + destruct Hin as (piece & Hpiece & Hin).
      apply list_elem_of_fmap in Hpiece as (c & -> & Hc).
      apply list_elem_of_singleton in Hin. unfold shown in Hin.
      rewrite (Hall c) in Hin by by apply list_elem_of_In.
      rewrite Forall_forall in Hword. by destruct (Hword c Hc).
  - intros Hnot c Hc. apply list_elem_of_In in Hc.
    destruct (bool_decide (c ∈ guessed_letters self)) eqn:Hd; [done|].
    exfalso. apply Hnot.
    apply (elem_of_join _ _ [shown self c]).
    + apply list_elem_of_fmap. by exists c.
    + unfold shown. rewrite Hd. by left.
Qed.

End DisplayFacts.

Section PlayFacts.
Context `{Random}.

Lemma run_bind_eq {A B} (m : Run A) (k : A -> Run B) (s : State) :
  (m ≫= k) s
  = match m s with
    | (Ok a, s') => k a s'
    | (Raise e, s') => (Raise e, s')
    end.
Proof. reflexivity. Qed.

Lemma choice_ok {A} (seq : list A) (g : RandState) :
  seq <> [] ->
  exists x g', choice seq g = (Ok x, g') /\ x ∈ seq.
Proof.
  intros Hne. unfold choice. destruct seq as [|a seq]; [done|].
  pose proof (_randbelow_lt (length (a :: seq)) g) as Hlt.
  destruct (_randbelow (length (a :: seq)) g) as [i g'].
  simpl fst in Hlt. specialize (Hlt ltac:(simpl; lia)).
  destruct (lookup_lt_is_Some_2 (a :: seq) i Hlt) as [x Hx].
  exists x, g'. split; [|by eapply list_elem_of_lookup_2].
  unfold py_index. cbv zeta.
  replace (Z.of_nat i <? 0)%Z with false by lia.
  replace ((0 <=? Z.of_nat i)%Z && (Z.of_nat i <? Z.of_nat (length (a :: seq)))%Z)
    with true by lia.
  by rewrite Nat2Z.id, Hx.
Qed.

Lemma random_choice_ok {A} (seq : list A) (s : State) :
  seq <> [] ->
  exists x g',
    random_choice seq s = (Ok x, mkState (game s) (written s) g') /\ x ∈ seq.
Proof.
  intros Hne. destruct (choice_ok seq (rand s) Hne) as (x & g' & Hc & Hx).
  exists x, g'. unfold random_choice. by rewrite Hc.
Qed.

Lemma misses_hint (self : HangmanGame) c :
  c ∈ PyStr.chars (word self) ->
  misses (set_hint_used true (set_guessed ({[c]} ∪ guessed_letters self) self))
  = misses self.
Proof.
  intros Hc. unfold misses. simpl. apply set_eq. intros x.
  rewrite !elem_of_filter, elem_of_union, elem_of_singleton.
  split; [|tauto]. intros [Hx [->|Hin]]; [done | tauto].
Qed.

Lemma misses_good_guess (self : HangmanGame) c :
  c ∈ PyStr.chars (word self) ->
  misses (set_guessed ({[c]} ∪ guessed_letters self) self) = misses self.
Proof.
  intros Hc. unfold misses. simpl. apply set_eq. intros x.
  rewrite !elem_of_filter, elem_of_union, elem_of_singleton.
  split; [|tauto]. intros [Hx [->|Hin]]; [done | tauto].
Qed.

Lemma misses_bad_guess (self : HangmanGame) c n :
  c ∉ PyStr.chars (word self) -> c ∉ guessed_letters self ->
  size (misses (set_wrong n (set_guessed ({[c]} ∪ guessed_letters self) self)))
  = S (size (misses self)).
Proof.
  intros Hc Hin. unfold misses. simpl.
  assert (Heq : filter (fun c0 => c0 ∉ PyStr.chars (word self))
                       ({[c]} ∪ guessed_letters self)
                = {[c]} ∪ filter (fun c0 => c0 ∉ PyStr.chars (word self))
                                 (guessed_letters self)).
  { apply set_eq. intros x.
    rewrite elem_of_union, !elem_of_filter, elem_of_union, elem_of_singleton.
    split; [intros [Hx [->|Hg]]; tauto|].
    intros [->|[Hx Hg]]; tauto. }
  rewrite Heq, size_union, size_singleton; [done|].
  intros x Hx1 Hx2. apply elem_of_singleton in Hx1 as ->.
  apply elem_of_filter in Hx2 as [_ Hx2]. done.
Qed.

Lemma get_hint_run (s : State) :
  get_hint s
  = if hint_used (game s) then (Ok "You've already used your hint!", s)
    else
      match List.filter
              (fun letter =>
                 negb (bool_decide (letter ∈ guessed_letters (game s))))
              (PyStr.chars (word (game s)))
      with
      | [] => (Ok "No hints available.", s)
      | c0 :: rest =>
          match random_choice (c0 :: rest) s with
          | (Ok c, s1) =>
              (Ok ("Hint: The letter '" +:+ String c ""
                   +:+ "' is in the word!"),
               mkState
                 (set_hint_used true
                    (set_guessed ({[c]} ∪ guessed_letters (game s1)) (game s1)))
                 (written s1) (rand s1))
          | (Raise e, s1) => (Raise e, s1)
          end
      end.
Proof.
  unfold get_hint, mbind, run_bind, get_self, put_self, mret, run_ret.
  destruct (hint_used (game s)); [done|].
  destruct (List.filter _ _) as [|c0 rest]; [done|].
  by destruct (random_choice (c0 :: rest) s) as [[c|e] s1].
Qed.

(** the game after a call of [get_hint], by cases *)
Lemma get_hint_cases (s : State) :
  (exists answer, get_hint s = (Ok answer, s)
                  /\ (hint_used (game s) = true
                      \/ is_game_won (game s) = true))
  \/ (exists c g',
        hint_used (game s) = false
        /\ c ∈ PyStr.chars (word (game s))
        /\ (c ∉ guessed_letters (game s))
        /\ get_hint s
           = (Ok ("Hint: The letter '" +:+ String c "" +:+ "' is in the word!"),
              mkState
                (set_hint_used true
                   (set_guessed ({[c]} ∪ guessed_letters (game s)) (game s)))
                (written s) g')).
Proof.
  rewrite get_hint_run.
  destruct (hint_used (game s)) eqn:Hused.
  { left. eexists. split; [reflexivity | by left]. }
  destruct (List.filter _ (PyStr.chars (word (game s)))) as [|c0 rest] eqn:Hf.
  { left. eexists. split; [reflexivity|]. right.
    unfold is_game_won. apply forallb_forall. intros c Hc.
    destruct (bool_decide (c ∈ guessed_letters (game s))) eqn:Hd; [done|].
    assert (Hin : In c (List.filter
              (fun letter => negb (bool_decide (letter ∈ guessed_letters (game s))))
              (PyStr.chars (word (game s))))).
    { apply filter_In. split; [done | by rewrite Hd]. }
    by rewrite Hf in Hin. }
  right.
  destruct (random_choice_ok (c0 :: rest) s) as (c & g' & Hc & Hin); [done|].
  exists c, g'. rewrite Hc.
  rewrite <- Hf in Hin.
  apply list_elem_of_In, filter_In in Hin as [Hin Hnot].
  apply negb_true_iff, bool_decide_eq_false in Hnot.
  split; [done|]. split; [by apply list_elem_of_In|]. split; [done|].
  reflexivity.
Qed.

(** X19.  The counter of wrong guesses is the number of guessed letters
    that are not in the word.  This holds for a new game, and every call
    of [make_guess] and of [get_hint] keeps it, whatever the guess: a hint
    is a letter of the word and costs no attempt. *)
Theorem wrong_guesses_count_the_misses (self : HangmanGame) :
  consistent init
  /\ (consistent self ->
      (forall guess, consistent (make_guess guess self).2)
      /\ (forall s, game s = self -> consistent (game (get_hint s).2))).
Proof.
  split; [done|]. intros Hself. split.
  - intros guess. unfold make_guess.
    destruct (PyStr.chars guess) as [|c [|]]; [done| |done].
    destruct (negb _); [done|].
    destruct (bool_decide (c ∈ guessed_letters self)) eqn:Hin; [done|].
    apply bool_decide_eq_false in Hin.
    change (word (set_guessed ({[c]} ∪ guessed_letters self) self))
      with (word self).
    destruct (PyStr.contains c (PyStr.chars (word self))) eqn:Hw.
    + apply contains_elem_of in Hw. unfold consistent. simpl snd.
      by rewrite misses_good_guess.
    + apply PyStrFacts.contains_false in Hw. unfold consistent. simpl snd.
      rewrite misses_bad_guess by done. simpl. unfold consistent in Hself. lia.
  - intros s <-.
    destruct (get_hint_cases s) as [(answer & -> & _)|(c & g' & _ & Hc & _ & ->)];
      [done|].
    unfold consistent. simpl. by rewrite misses_hint.
Qed.

(** X20.  One hint for a game, and never an error.  [get_hint] always
    returns.  When the hint was used before, or when no letter of the
    word is left to guess, it changes nothing.  Otherwise it reveals one
    letter that is in the word and was not guessed, adds it to the
    guessed letters and marks the hint as used; the counter of wrong
    guesses, the word and the text written so far stay as they are. *)
Theorem get_hint_reveals_one_letter_once (s : State) :
  exists answer s',
    get_hint s = (Ok answer, s')
    /\ written s' = written s
    /\ wrong_guesses (game s') = wrong_guesses (game s)
    /\ same_round (game s) (game s')
    /\ (hint_used (game s) = true \/ is_game_won (game s) = true -> s' = s)
    /\ (hint_used (game s) = false -> is_game_won (game s) = false ->
        hint_used (game s') = true
        /\ exists c,
             c ∈ PyStr.chars (word (game s))
             /\ (c ∉ guessed_letters (game s))
             /\ guessed_letters (game s') = {[c]} ∪ guessed_letters (game s)).
Proof.
  destruct (get_hint_cases s)
    as [(answer & -> & Hwhy)|(c & g' & Hused & Hc & Hin & ->)].
  - exists answer, s. do 4 (split; [done|]). split; [done|].
    intros Hu Hw. destruct Hwhy; congruence.
  - eexists _, _. split; [reflexivity|]. do 3 (split; [done|]). split.
    + intros [Hu|Hw]; [congruence|]. exfalso.
      unfold is_game_won in Hw. rewrite forallb_forall in Hw.
      apply list_elem_of_In, Hw, bool_decide_eq_true in Hc. done.
    + intros _ _. split; [done|]. by exists c.
Qed.

Lemma word_lists_lowercase c ws w :
  (c, ws) ∈ WORD_LISTS -> w ∈ ws ->
  lower w = w /\ lowercase_word w = true.
Proof.
  assert (Hall : forallb
            (fun kv => forallb
                         (fun w => String.eqb (lower w) w && lowercase_word w)
                         (snd kv))
            WORD_LISTS = true) by (vm_compute; reflexivity).
  intros Hc Hw. rewrite forallb_forall in Hall.
  apply list_elem_of_In, Hall in Hc. simpl in Hc.
  rewrite forallb_forall in Hc. apply list_elem_of_In, Hc in Hw.
  apply andb_true_iff in Hw as [Hl Hw]. by apply String.eqb_eq in Hl.
Qed.

Lemma word_lists_find c :
  c ∈ map fst WORD_LISTS ->
  exists i ws,
    list_find (fun kv : string * list string => kv.1 = c) WORD_LISTS
    = Some (i, (c, ws))
    /\ (c, ws) ∈ WORD_LISTS /\ ws <> [].
Proof.
  intros Hc. unfold WORD_LISTS in Hc. cbn [map fst] in Hc.
  repeat (apply elem_of_cons in Hc as [->|Hc];
          [eexists _, _; split; [vm_compute; reflexivity|];
           split; [|done]; unfold WORD_LISTS;
           repeat (first [by left | right])|]).
  by apply elem_of_nil in Hc.
Qed.

Lemma choose_word_run (s : State) :
  exists c ws w g',
    (c, ws) ∈ WORD_LISTS /\ w ∈ ws
    /\ choose_word s
       = (Ok tt,
          mkState (set_word (lower w) (set_category c (game s)))
                  (written s) g').
Proof.
  destruct (random_choice_ok (map fst WORD_LISTS) s) as (c & g1 & Hc & Hin);
    [done|].
  destruct (word_lists_find c Hin) as (i & ws & Hfind & Hws & Hne).
  destruct (random_choice_ok ws
              (mkState (set_category c (game s)) (written s) g1))
    as (w & g2 & Hw & Hwin); [done|].
  exists c, ws, w, g2. split; [done|]. split; [done|].
  unfold choose_word. rewrite run_bind_eq, Hc.
  unfold mbind, run_bind, get_self, put_self, lift. cbn [game written rand].
  rewrite Hfind. cbn [snd]. by rewrite Hw.
Qed.

(** X21.  [choose_word] always finds a word.  Whatever the random source
    draws, the call returns; the category is one of the keys of
    [WORD_LISTS] and the word is one of the words listed under it; the
    word is not empty and is made of lower-case letters only, so every
    letter of it is a guess that [make_guess] takes.  The guessed
    letters, the counters and the text written stay as they are. *)
Theorem choose_word_picks_a_listed_word (s : State) :
  exists s',
    choose_word s = (Ok tt, s')
    /\ (exists ws, (category (game s'), ws) ∈ WORD_LISTS
                   /\ word (game s') ∈ ws)
    /\ lowercase_word (word (game s')) = true
    /\ guessed_letters (game s') = guessed_letters (game s)
    /\ wrong_guesses (game s') = wrong_guesses (game s)
    /\ max_attempts (game s') = max_attempts (game s)
    /\ hint_used (game s') = hint_used (game s)
    /\ written s' = written s.
Proof.
  destruct (choose_word_run s) as (c & ws & w & g' & Hc & Hw & ->).
  destruct (word_lists_lowercase c ws w Hc Hw) as [Hlower Hword].
  eexists. split; [reflexivity|]. cbn [game written set_word set_category
    category word guessed_letters wrong_guesses max_attempts hint_used].
  rewrite Hlower. split; [by exists ws|]. done.
Qed.

Lemma stage_exists (n : Z) :
  (0 <= n <= 6)%Z -> exists stage, py_index HANGMAN_STAGES n = Ok stage.
Proof.
  intros Hn. unfold py_index. cbv zeta.
  change (Z.of_nat (length HANGMAN_STAGES)) with 7%Z.
  replace (n <? 0)%Z with false by lia.
  replace ((0 <=? n)%Z && (n <? 7)%Z) with true by lia.
  destruct (lookup_lt_is_Some_2 HANGMAN_STAGES (Z.to_nat n)) as [stage Hs].
  { change (length HANGMAN_STAGES) with 7. lia. }
  exists stage. by rewrite Hs.
Qed.

Lemma display_status_run (s : State) :
  (0 <= wrong_guesses (game s) <= 6)%Z ->
  exists out,
    display_status s = (Ok tt, mkState (game s) (written s ++ out) (rand s)).
Proof.
  intros Hn. destruct (stage_exists _ Hn) as [stage Hstage].
  unfold display_status, mbind, run_bind, get_self, print, lift.
  cbn [game written rand]. rewrite Hstage.
  eexists. rewrite <- !app_assoc. reflexivity.
Qed.

Lemma ask_guess_run (s : State) :
  (0 <= wrong_guesses (game s) <= 6)%Z ->
  exists out,
    ask_guess s = (Ok tt, mkState (game s) (written s ++ out) (rand s)).
Proof.
  intros Hn. destruct (display_status_run s Hn) as [out Hout].
  unfold ask_guess. rewrite run_bind_eq, Hout. unfold prompt.
  cbn [game written rand]. eexists. rewrite <- app_assoc. reflexivity.
Qed.

Lemma start_run (s : State) :
  game s = init ->
  exists s', start s = (Ok tt, s') /\ in_play (game s').
Proof.
  intros Hinit. unfold start. rewrite !run_bind_eq.
  unfold print at 1 2 3 4. cbn [game written rand].
  rewrite !run_bind_eq.
  match goal with
  | |- context [choose_word ?s0] =>
      destruct (choose_word_run s0) as (c & ws & w & g' & Hc & Hw & ->)
  end.
  cbn [game written rand]. rewrite Hinit.
  destruct (word_lists_lowercase c ws w Hc Hw) as [Hlower Hword].
  match goal with
  | |- context [ask_guess ?s0] =>
      destruct (ask_guess_run s0) as [out ->]; [simpl; lia|]
  end.
  eexists. split; [reflexivity|]. cbn [game]. unfold in_play.
  split; [done|]. split; [simpl; lia|]. split; [done|].
  simpl. by rewrite Hlower.
Qed.

Lemma make_guess_in_play guess (self : HangmanGame) :
  in_play self ->
  let self' := (make_guess guess self).2 in
  consistent self'
  /\ (0 <= wrong_guesses self' <= 6)%Z
  /\ max_attempts self' = 6%Z
  /\ lowercase_word (word self') = true.
Proof.
  intros (Hcons & Hwrong & Hmax & Hword). cbv zeta. unfold make_guess.
  assert (Hsame : consistent self
                  /\ (0 <= wrong_guesses self <= 6)%Z
                  /\ max_attempts self = 6%Z
                  /\ lowercase_word (word self) = true)
    by (repeat split; first [done | lia]).
  destruct (PyStr.chars guess) as [|c [|]]; [done| |done].
  destruct (negb _); [done|].
  destruct (bool_decide (c ∈ guessed_letters self)) eqn:Hin; [done|].
  apply bool_decide_eq_false in Hin.
  change (word (set_guessed ({[c]} ∪ guessed_letters self) self))
    with (word self).
  destruct (PyStr.contains c (PyStr.chars (word self))) eqn:Hw.
  - apply contains_elem_of in Hw. unfold consistent. simpl snd.
    rewrite misses_good_guess by done. simpl.
    repeat split; first [done | lia].
  - apply PyStrFacts.contains_false in Hw. unfold consistent. simpl snd.
    rewrite misses_bad_guess by done. simpl. unfold consistent in Hcons.
    repeat split; first [done | lia].
Qed.

Lemma turn_in_play line (s : State) :
  in_play (game s) ->
  match turn line s with
  | (Ok Continue, s') => in_play (game s')
  | (Ok Break, s') => (0 <= wrong_guesses (game s') <= 6)%Z
  | (Raise e, _) => False
  end.
Proof.
  intros Hplay. pose proof Hplay as (Hcons & Hwrong & Hmax & Hword).
  unfold turn. cbv zeta.
  destruct (String.eqb (PyStr.strip (lower line)) "quit").
  { unfold mbind, run_bind, get_self, print, mret, run_ret. simpl. lia. }
  destruct (String.eqb (PyStr.strip (lower line)) "hint").
  { rewrite run_bind_eq.
    destruct (get_hint_cases s)
      as [(answer & -> & _)|(c & g' & _ & Hc & _ & ->)].
    - unfold mbind, run_bind, print, mret, run_ret. by simpl.
    - unfold mbind, run_bind, print, mret, run_ret. cbn [game].
      unfold in_play, consistent. rewrite misses_hint by done. done. }
  rewrite run_bind_eq. unfold get_self at 1. cbn beta iota.
  pose proof (make_guess_in_play (PyStr.strip (lower line)) (game s) Hplay)
    as Hnext. cbv zeta in Hnext.
  destruct (make_guess (PyStr.strip (lower line)) (game s)) as [result self'].
  simpl snd in Hnext. destruct Hnext as (Hcons' & Hwrong' & Hmax' & Hword').
  unfold mbind, run_bind, put_self, print, mret, run_ret, lift.
  cbn beta iota.
  destruct (is_game_won self').
  { match goal with
    | |- context [display_status ?s0] =>
        destruct (display_status_run s0) as [out ->]; [done|]
    end.
    by cbn [game]. }
  unfold is_game_lost. rewrite Hmax'.
  destruct (6 <=? wrong_guesses self')%Z eqn:Hlost.
  { destruct (stage_exists _ Hwrong') as [stage ->]. by cbn [game]. }
  cbn [game]. unfold in_play. repeat split; first [done | lia].
Qed.

Lemma resume_in_play typed : forall at_input (s : State),
  (at_input = ForGuess -> in_play (game s)) ->
  (0 <= wrong_guesses (game s) <= 6)%Z ->
  match resume at_input typed s with
  | (Ok _, s') =>
      exists out,
        written s' = out ++ ["Thanks for playing Hangman!" +:+ newline]
  | (Raise e, s') =>
      e = end_of_input /\ (0 <= wrong_guesses (game s') <= 6)%Z
  end.
Proof.
  induction typed as [|line typed IH]; intros at_input s Hplay Hwrong.
  - done.
  - cbn [resume]. destruct at_input.
    + specialize (Hplay eq_refl).
      pose proof (turn_in_play line s Hplay) as Hturn.
      destruct (turn line s) as [[[]|e] s1]; [| |done].
      * assert (Hwrong1 : (0 <= wrong_guesses (game s1) <= 6)%Z).
        { destruct Hturn as (_ & ? & _). lia. }
        destruct (ask_guess_run s1 Hwrong1) as [out ->].
        by apply IH.
      * unfold prompt. by apply IH.
    + destruct (_ || _).
      * rewrite run_bind_eq. unfold put_self at 1. cbn beta iota.
        match goal with
        | |- context [start ?s0] =>
            destruct (start_run s0) as (s1 & -> & Hs1); [done|]
        end.
        apply IH; [done|]. destruct Hs1 as (_ & ? & _). lia.
      * unfold print. cbn [written]. by eexists.
Qed.

(** X22.  [play] fails at the end of the input only.  Whatever the lines
    of standard input and whatever the random source draws, a new game
    either returns, and then the farewell is the last line written, or it
    ends with the [EOFError] of an [input] that finds no line left, which
    [play] does not catch.  Nothing else is raised: the drawing for the
    number of wrong guesses always exists, because the loop is left at
    the sixth wrong guess. *)
Theorem play_raises_only_at_the_end_of_input (typed : list string)
    (g : RandState) :
  match main typed g with
  | (Ok _, s) =>
      exists out,
        written s = out ++ ["Thanks for playing Hangman!" +:+ newline]
  | (Raise e, s) =>
      e = end_of_input /\ (0 <= wrong_guesses (game s) <= 6)%Z
  end.
Proof.
  unfold main, play.
  destruct (start_run (mkState init [] g)) as (s1 & -> & Hs1); [done|].
  apply resume_in_play; [done|]. destruct Hs1 as (_ & ? & _). lia.
Qed.

Lemma make_guess_keeps_won guess (self : HangmanGame) :
  is_game_won self = true ->
  is_game_won (make_guess guess self).2 = true
  /\ word (make_guess guess self).2 = word self.
Proof.
  intros Hwon. unfold make_guess.
  destruct (PyStr.chars guess) as [|c [|]]; [done| |done].
  destruct (negb _); [done|].
  destruct (bool_decide (c ∈ guessed_letters self)); [done|].
  assert (Hmore : forallb
            (fun letter =>
               bool_decide (letter ∈ {[c]} ∪ guessed_letters self))
            (PyStr.chars (word self)) = true).
  { unfold is_game_won in Hwon. rewrite forallb_forall in *.
    intros x Hx. apply Hwon, bool_decide_eq_true in Hx.
    apply bool_decide_eq_true. set_solver. }
  by destruct (PyStr.contains c _).
Qed.

(** X27.  A win is noticed only after a guess, and it comes before a
    loss.  When every letter of the word is guessed already, as after a
    hint that revealed the last one, the next line that is not [quit] or
    [hint] ends the round with the congratulations, whatever it is: an
    input that is no letter, a letter guessed before, or a wrong letter,
    even one that uses up the last attempt. *)
Theorem completed_word_wins_on_the_next_guess (line : string) (s : State) :
  in_play (game s) ->
  is_game_won (game s) = true ->
  PyStr.strip (lower line) <> "quit" ->
  PyStr.strip (lower line) <> "hint" ->
  exists s' out,
    turn line s = (Ok Break, s')
    /\ written s'
       = written s ++ out
         ++ [(newline +:+ "*** CONGRATULATIONS! YOU WON! ***") +:+ newline;
             ("The word was: " +:+ word (game s)) +:+ newline].
Proof.
  intros Hplay Hwon Hquit Hhint.
  unfold turn. cbv zeta.
  rewrite (proj2 (String.eqb_neq _ _) Hquit), (proj2 (String.eqb_neq _ _) Hhint).
  rewrite run_bind_eq. unfold get_self at 1. cbn beta iota.
  pose proof (make_guess_in_play (PyStr.strip (lower line)) (game s) Hplay)
    as Hnext. cbv zeta in Hnext.
  pose proof (make_guess_keeps_won (PyStr.strip (lower line)) (game s) Hwon)
    as [Hwon' Hword].
  destruct (make_guess (PyStr.strip (lower line)) (game s)) as [result self'].
  simpl snd in *. destruct Hnext as (_ & Hwrong' & _ & _).
  unfold mbind, run_bind, put_self, print, mret, run_ret, lift.
  cbn beta iota. rewrite Hwon'.
  match goal with
  | |- context [display_status ?s0] =>
      destruct (display_status_run s0) as [out ->]; [done|]
  end.
  cbn [game written rand]. rewrite Hword.
  eexists _, ([result +:+ newline] ++ out). split; [reflexivity|].
  cbn [written]. by rewrite <- !app_assoc.
Qed.

End PlayFacts.

End HangmanFacts.

(* ===================================================================== *)
(** * More scenarios, run on the second demo site                         *)
(* ===================================================================== *)

Section MoreScenarios.
Existing Instance Demo.tables.
Existing Instance Demo2.web.
Existing Instance Demo2.css.

(** The two paragraphs of the image page: the first gives one text, with
    the white space around its strings removed, the blank one gives none.
    On the text page the no-break spaces are stripped, the comment is no
    text, the paragraph of the template has no text of its own, and the
    text of a script is the script. *)
Lemma extract_text_scenario :
  extract_text Demo.scraper (Some Demo2.images_page) "p" = ["firstbold"]
  /\ extract_text Demo.scraper (Some Demo2.text_page) "p" = ["x"; "yz"]
  /\ extract_text Demo.scraper (Some Demo2.text_page) "script" = ["var s;"]
  /\ extract_text Demo.scraper (Some Demo2.text_page) "template" = ["t"]
  /\ trimmed "firstbold".
Proof.
  do 4 (split; [vm_compute; reflexivity|]).
  refine (proj1 (proj2 (extract_text_gives_trimmed_texts
                          Demo.scraper (Some Demo2.images_page) "p"
                          "firstbold" _))).
  replace (extract_text Demo.scraper (Some Demo2.images_page) "p")
    with ["firstbold"] by (vm_compute; reflexivity).
  by left.
Defined.

(** Of the four images of the page, the two with a [src] that is not
    empty give a record each. *)
Lemma extract_images_scenario :
  extract_images Demo.scraper (Some Demo2.images_page)
  = Ok [[("url", PStr "http://site.example/dir/a.png");
         ("alt", PStr "No alt text")];
        [("url", PStr "http://cdn.example/b.png"); ("alt", PStr "B")]]
  /\ Forall2
       (fun img record =>
          exists full_url,
            Urllib.urljoin (base_url Demo.scraper) (Bs4.get img "src" "")
            = Ok full_url
            /\ record = [("url", PStr full_url);
                         ("alt", PStr (default "No alt text"
                                         (Bs4.tag_attrs img !! "alt")))])
       (images_with_src Demo2.images_page)
       [[("url", PStr "http://site.example/dir/a.png");
         ("alt", PStr "No alt text")];
        [("url", PStr "http://cdn.example/b.png"); ("alt", PStr "B")]].
Proof.
  split; [vm_compute; reflexivity|].
  apply (extract_images_one_record_per_source Demo.scraper Demo2.images_page).
  vm_compute. reflexivity.
Defined.

(** The internal links of the link page are the two targets on the host
    of the base URL, and nothing else. *)
Lemma extract_links_exact_scenario :
  extract_links Demo.scraper (Some Demo.links_page) true
  = Ok ["http://site.example/dir/x"; "http://site.example/x"]
  /\ forall u,
       u ∈ ["http://site.example/dir/x"; "http://site.example/x"]
       <-> exists a href,
             a ∈ anchors Demo.links_page
             /\ Bs4.tag_attrs a !! "href" = Some href
             /\ Urllib.urljoin (base_url Demo.scraper) href = Ok u
             /\ (true = true -> same_netloc Demo.scraper u).
Proof.
  split; [vm_compute; reflexivity|].
  apply (extract_links_returns_exactly_the_resolved_hrefs
           Demo.scraper Demo.links_page true).
  vm_compute. reflexivity.
Defined.

(** The headerless page has one table: the index -1 names it as the index
    0 does. *)
Lemma scrape_table_negative_index_scenario :
  scrape_table Demo.scraper "http://site.example/headerless" (-1)
               Demo2.world0
  = scrape_table Demo.scraper "http://site.example/headerless" (-1 + 1)
                 Demo2.world0.
Proof.
  refine (proj1 (proj2 (scrape_table_index_bounds
                          Demo.scraper "http://site.example/headerless" (-1)
                          Demo2.world0
                          (@mkWorld Demo2.web 1
                             ["Fetching: http://site.example/headerless"] 1
                             ∅ Demo.fs0)
                          Demo2.headerless_page _)) _).
  - vm_compute. reflexivity.
  - vm_compute. split; [intros Heq; discriminate Heq | reflexivity].
Defined.

(** The rows of the table without headers. *)
Lemma scrape_table_without_headers_scenario :
  scrape_table Demo.scraper "http://site.example/headerless" 0 Demo2.world0
  = (Ok [[("data", PList [PStr "a"; PStr "b"])];
         [("data", PList [PStr "c"])]],
     @mkWorld Demo2.web 1 ["Fetching: http://site.example/headerless"] 1
              ∅ Demo.fs0).
Proof.
  refine (scrape_table_without_headers
            Demo.scraper "http://site.example/headerless" 0 Demo2.world0 _
            Demo2.headerless_page
            (Bs4.Tag "table" ∅
               [Bs4.Tag "tr" ∅ []; Demo.tr "td" ["a"; "b"]; Bs4.Tag "tr" ∅ [];
                Demo.tr "td" ["c"]])
            _ _ _ _).
  - vm_compute. reflexivity.
  - vm_compute. reflexivity.
  - vm_compute. reflexivity.
  - vm_compute. reflexivity.
Defined.

(** A page that arrives costs the delay of one second. *)
Lemma fetch_page_clock_scenario :
  fetch_page Demo.scraper "http://site.example/images" Demo2.world0
  = (Ok (Some Demo2.images_page),
     @mkWorld Demo2.web 1 ["Fetching: http://site.example/images"] 1
              ∅ Demo.fs0)
  /\ (1 = 0 + delay Demo.scraper)%Z.
Proof.
  split; [vm_compute; reflexivity|].
  refine (proj1 (fetch_page_sleeps_only_after_success
                   Demo.scraper "http://site.example/images" Demo2.world0
                   (@mkWorld Demo2.web 1
                      ["Fetching: http://site.example/images"] 1 ∅ Demo.fs0)
                   (Some Demo2.images_page) _)).
  vm_compute. reflexivity.
Defined.

(** A scraper with a delay of -1 fetches the page and fails in [sleep];
    so does one with a delay that is out of range, with another error. *)
Lemma fetch_page_negative_delay_scenario :
  fetch_page Demo2.impatient "http://site.example/images" Demo2.world0
  = (Raise (Exn ValueError "sleep length must be non-negative"),
     @mkWorld Demo2.web 1 ["Fetching: http://site.example/images"] 0
              ∅ Demo.fs0)
  /\ fetch_page (mkScraper "http://site.example/" (- 10 ^ 30))
                "http://site.example/images" Demo2.world0
     = (Raise (Exn OverflowError
                   "timestamp too large to convert to C _PyTime_t"),
        @mkWorld Demo2.web 1 ["Fetching: http://site.example/images"] 0
                 ∅ Demo.fs0).
Proof.
  split.
  - refine (proj1 (fetch_page_raises_for_a_rejected_delay
                     Demo2.impatient "http://site.example/images"
                     Demo2.world0
                     (mkResponse 200 "OK" "http://site.example/images"
                                 "images") 1 _ _) _).
    + vm_compute. reflexivity.
    + left. vm_compute. reflexivity.
    + vm_compute. split; [intros Heq; discriminate Heq | reflexivity].
  - refine (proj2 (fetch_page_raises_for_a_rejected_delay
                     (mkScraper "http://site.example/" (- 10 ^ 30))
                     "http://site.example/images" Demo2.world0
                     (mkResponse 200 "OK" "http://site.example/images"
                                 "images") 1 _ _) _).
    + vm_compute. reflexivity.
    + left. vm_compute. reflexivity.
    + left. vm_compute. reflexivity.
Defined.


(** The extraction function of the module's example raises on the page
    with the image that does not resolve: the run raises, and the record
    of the first page is not returned. *)
Lemma scrape_multiple_pages_error_scenario :
  exists w2,
    scrape_multiple_pages Demo.scraper
      (["http://site.example/images"]
       ++ "http://site.example/broken" :: ["http://site.example/images"])
      (example_extract_data Demo.scraper) Demo2.world0
    = (Raise (Exn ValueError "Invalid IPv6 URL"), w2).
Proof.
  eexists.
  refine (scrape_multiple_pages_passes_extractor_errors
            Demo.scraper ["http://site.example/images"]
            ["http://site.example/images"] "http://site.example/broken"
            (example_extract_data Demo.scraper) Demo2.world0
            (scrape_multiple_pages Demo.scraper ["http://site.example/images"]
               (example_extract_data Demo.scraper) Demo2.world0).2
            (fetch_page Demo.scraper "http://site.example/broken"
               (scrape_multiple_pages Demo.scraper
                  ["http://site.example/images"]
                  (example_extract_data Demo.scraper) Demo2.world0).2).2
            _ [0] Demo2.broken_page _ _ _ _).
  - vm_compute. reflexivity.
  - vm_compute. reflexivity.
  - vm_compute. reflexivity.
Defined.

(** Two pages, of which one arrives: one record, one second of waiting. *)
Lemma scrape_multiple_pages_clock_scenario :
  exists w',
    scrape_multiple_pages Demo.scraper
      ["http://site.example/images"; "http://site.example/nowhere"]
      (fun soup => new_dict [("found", PInt 1)]) Demo2.world0
    = (Ok [0], w')
    /\ slept w' = (0 + 1 * 1)%Z.
Proof.
  eexists. split; [vm_compute; reflexivity|].
  refine (proj1 (scrape_multiple_pages_waits_once_per_record
                   Demo.scraper
                   ["http://site.example/images"; "http://site.example/nowhere"]
                   (fun soup => new_dict [("found", PInt 1)]) Demo2.world0
                   _ [0] _ _)).
  - apply (fresh_extractor_new_dict (fun _ => [("found", PInt 1)])).
  - vm_compute. reflexivity.
Defined.

(** Two selectors, one of them named [url]: its list takes the place of
    the URL of the page; the blank paragraph gives an empty text. *)
Lemma scrape_custom_scenario :
  scrape_custom Demo.scraper "http://site.example/images"
                [("paras", "p"); ("url", "img")] Demo2.world0
  = (Ok [("url", PList [PStr ""; PStr ""; PStr ""; PStr ""]);
         ("paras", PList [PStr "firstbold"; PStr ""])],
     @mkWorld Demo2.web 1 ["Fetching: http://site.example/images"] 1
              ∅ Demo.fs0)
  /\ NoDup ["url"; "paras"].
Proof.
  split; [vm_compute; reflexivity|].
  refine (proj1 (proj2 (scrape_custom_binds_every_name
                          Demo.scraper "http://site.example/images"
                          [("paras", "p"); ("url", "img")] Demo2.world0
                          (@mkWorld Demo2.web 1
                             ["Fetching: http://site.example/images"] 1
                             ∅ Demo.fs0)
                          (@mkWorld Demo2.web 1
                             ["Fetching: http://site.example/images"] 1
                             ∅ Demo.fs0)
                          Demo2.images_page
                          [("url", PList [PStr ""; PStr ""; PStr ""; PStr ""]);
                           ("paras", PList [PStr "firstbold"; PStr ""])]
                          _ _ _))).
  - vm_compute. reflexivity.
  - simpl. apply NoDup_cons. split; [|apply NoDup_singleton].
    intros Hin. apply list_elem_of_singleton in Hin. discriminate.
  - vm_compute. reflexivity.
Defined.

(** The regular table of the example page is exported whole. *)
Lemma example_table_scraping_scenario :
  exists w',
    example_table_scraping Demo2.world0 = (Ok tt, w')
    /\ files (fs w') !! "table_data.csv"
       = Some ("h1,h2" +:+ crlf +:+ "a,b" +:+ crlf +:+ "c," +:+ crlf).
Proof.
  eexists. split.
  - refine (example_table_scraping_exports_the_table
              Demo2.world0
              (@mkWorld Demo2.web 1
                 [example_banner; "Fetching: https://example.com/table-page"]
                 1 ∅ Demo.fs0)
              Demo2.regular_page
              (Bs4.Tag "table" ∅
                 [Demo.tr "th" ["h1"; "h2"]; Demo.tr "td" ["a"; "b"];
                  Demo.tr "td" ["c"]])
              [] ["a"; "b"] [["c"]] _ _ _ _ _ _ _).
    + vm_compute. reflexivity.
    + vm_compute. reflexivity.
    + vm_compute. discriminate.
    + vm_compute. apply NoDup_cons. split; [|apply NoDup_singleton].
      intros Hin. apply list_elem_of_singleton in Hin. discriminate.
    + vm_compute. reflexivity.
    + vm_compute. reflexivity.
    + constructor; [simpl; lia | constructor].
  - vm_compute. reflexivity.
Defined.

(** The ragged table of the example page: the export stops at the row
    with two cells, and the error names the header of the second. *)
Lemma example_table_scraping_ragged_scenario :
  exists w',
    example_table_scraping Demo2.world1
    = (Ok tt,
       with_line ("Error saving to CSV: "
                  +:+ "dict contains fields not in fieldnames: 'h2'")
                 w')
    /\ files (fs w') !! "table_data.csv"
       = Some ("h1" +:+ crlf +:+ "a" +:+ crlf +:+ "b" +:+ crlf).
Proof.
  destruct (example_table_scraping_stops_at_longer_row
              Demo2.world1
              (@mkWorld Demo2.web 2
                 [example_banner; "Fetching: https://example.com/table-page"]
                 1 ∅ Demo.fs0)
              Demo2.ragged_page
              (Bs4.Tag "table" ∅
                 [Demo.tr "th" ["h1"; "h2"; "h3"]; Demo.tr "td" ["a"];
                  Demo.tr "td" ["b"]; Demo.tr "td" ["c"; "d"];
                  Demo.tr "td" ["e"]])
              [] ["a"] ["c"; "d"] [["b"]] [["e"]])
    as (names & Hnames & _ & Hrun).
  - vm_compute. reflexivity.
  - vm_compute. reflexivity.
  - vm_compute. discriminate.
  - vm_compute. apply NoDup_cons. split.
    { intros Hin. apply elem_of_cons in Hin as [Hin|Hin]; [discriminate|].
      apply list_elem_of_singleton in Hin. discriminate. }
    apply NoDup_cons. split; [|apply NoDup_singleton].
    intros Hin. apply list_elem_of_singleton in Hin. discriminate.
  - vm_compute. reflexivity.
  - vm_compute. reflexivity.
  - constructor; [simpl; lia | constructor].
  - simpl. lia.
  - apply Permutation_singleton_r in Hnames. subst names.
    eexists. split; [exact Hrun|]. vm_compute. reflexivity.
Defined.

(** C5, as stated, fails for a table whose header row repeats a text.  The
    data row has a cell under each of the two headers, none in excess,
    and the dict keeps the second only: the cell [a] is lost. *)
Lemma repeated_header_keeps_the_last_cell :
  scrape_table Demo.scraper "http://site.example/repeated" 0 Demo2.world0
  = (Ok [[("h", PStr "b")]],
     @mkWorld Demo2.web 1 ["Fetching: http://site.example/repeated"] 1
              ∅ Demo.fs0)
  /\ table_headers (Bs4.Tag "table" ∅
                      [Demo.tr "th" ["h"; "h"]; Demo.tr "td" ["a"; "b"]])
     = ["h"; "h"]
  /\ table_data_cells (Bs4.Tag "table" ∅
                         [Demo.tr "th" ["h"; "h"]; Demo.tr "td" ["a"; "b"]])
     = [["a"; "b"]]
  /\ [("h", PStr "b")] <> zip ["h"; "h"] (map PStr ["a"; "b"])
  /\ PyDict.get "h" [("h", PStr "b")] <> Some (PStr "a").
Proof.
  split; [vm_compute; reflexivity|].
  split; [vm_compute; reflexivity|].
  split; [vm_compute; reflexivity|].
  split; [simpl; discriminate | vm_compute; discriminate].
Qed.

(** The word [cat] with the letter [a] guessed. *)
Lemma display_word_scenario :
  Hangman.display_word Demo2.cat_game = "_ a _"
  /\ (Hangman.is_game_won Demo2.cat_game = true
      <-> "_"%char ∉ PyStr.chars (Hangman.display_word Demo2.cat_game)).
Proof.
  split; [vm_compute; reflexivity|].
  refine (proj2 (HangmanFacts.display_word_hides_unguessed_letters
                   Demo2.cat_game _)).
  repeat constructor; discriminate.
Defined.

(** The word is complete and five attempts are used: the wrong letter
    [z] uses the sixth, and the round ends with the congratulations. *)
Lemma completed_word_scenario :
  exists s' out,
    @Hangman.turn Demo2.counter "z" Demo2.last_attempt = (Ok Hangman.Break, s')
    /\ Hangman.wrong_guesses (Hangman.game s') = 6%Z
    /\ Hangman.written s'
       = Hangman.written Demo2.last_attempt ++ out
         ++ [(newline +:+ "*** CONGRATULATIONS! YOU WON! ***") +:+ newline;
             ("The word was: " +:+ "cat") +:+ newline].
Proof.
  destruct (@HangmanFacts.completed_word_wins_on_the_next_guess
              Demo2.counter "z" Demo2.last_attempt)
    as (s' & out & Hturn & Hout).
  - split; [vm_compute; reflexivity|]. split; [simpl; lia|].
    split; reflexivity.
  - vm_compute. reflexivity.
  - vm_compute. discriminate.
  - vm_compute. discriminate.
  - exists s', out. split; [exact Hturn|]. split; [|exact Hout].
    assert (Hs : (@Hangman.turn Demo2.counter "z" Demo2.last_attempt).2 = s')
      by by rewrite Hturn.
    rewrite <- Hs. vm_compute. reflexivity.
Defined.

(** The command [quit] is read through capital letters and through white
    space, the no-break space included. *)
Lemma quit_is_read_through_white_space :
  exists s',
    @Hangman.turn Demo2.counter ("  QUIT" +:+ Demo2.no_break_space)
                  Demo2.last_attempt
    = (Ok Hangman.Break, s')
    /\ Hangman.written s'
       = [(newline +:+ "Thanks for playing! The word was: cat") +:+ newline].
Proof. eexists. split; vm_compute; reflexivity. Qed.

(** The site of the examples cannot be reached from the demo network:
    both examples write their empty document. *)
Lemma json_examples_scenario :
  files (fs (example_custom_scraping Demo2.world0).2) !! "custom_data.json"
  = Some "{}"
  /\ files (fs (example_multi_page_scraping Demo2.world0).2)
       !! "multi_page_data.json"
     = Some "[]".
Proof.
  destruct (json_examples_write_empty_documents
              Demo2.world0
              (fetch_page (mkScraper "https://example.com" 2)
                 "https://example.com/page1"
                 (with_line multi_page_banner Demo2.world0)).2
              (fetch_page (mkScraper "https://example.com" 2)
                 "https://example.com/page2"
                 (fetch_page (mkScraper "https://example.com" 2)
                    "https://example.com/page1"
                    (with_line multi_page_banner Demo2.world0)).2).2
              (fetch_page (mkScraper "https://example.com" 2)
                 "https://example.com/page3"
                 (fetch_page (mkScraper "https://example.com" 2)
                    "https://example.com/page2"
                    (fetch_page (mkScraper "https://example.com" 2)
                       "https://example.com/page1"
                       (with_line multi_page_banner Demo2.world0)).2).2).2)
    as [_ Hmulti].
  split; [vm_compute; reflexivity|].
  rewrite Hmulti; [vm_compute; reflexivity | vm_compute; reflexivity..].
Defined.

End MoreScenarios.
